(** * EduVoice: storage, authentication and REST routes

    A shallow embedding of the server side of the EduVoice application
    (shared/schema.ts, server/storage.ts, server/auth.ts, server/routes.ts,
    lib/openrouter.ts) together with the properties its specification
    states about them.

    Conventions of the embedding:
    - asynchronous methods are run to completion, one request at a time;
    - a string holds no NUL character, which the database stores neither
      in a [text] nor in a [jsonb] column;
    - the results of [randomUUID()] / [gen_random_uuid()], [new Date()] /
      [defaultNow()] and [randomBytes(16)] are explicit arguments;
    - a JavaScript exception is a value [inl message]; a storage method
      that can throw returns [inl message] in place of its result and the
      new store; the message of an error that the runtime, zod or the
      database raises is shortened to its kind;
    - [undefined] and [null] in an optional property are both [None],
      except in the three payload properties whose column has a default
      ([plan], [language], [difficulty]), where the database tells them
      apart;
    - the functions of [crypto] and [jsonwebtoken], the answer of the AI
      gateway and [JSON.parse] are parameters of the code that calls them;
    - of the file system, an upload carries what reading it returns and
      what unlinking it throws; the session store is left out. *)

From stdpp Require Import base option list strings gmap pretty sorting.
From Stdlib Require Import ZArith Ascii.
From Stdlib.Strings Require Import Byte.

Open Scope Z_scope.

(** ** JavaScript values *)

(** Milliseconds since the epoch, as [Date.getTime()] returns them. *)
Definition Date := Z.

(** What [JSON.parse] produces and a [jsonb] column holds.  A number is
    written as an integer literal; numbers with a fraction are not
    modelled.  An object is the list of its own properties; a property is
    read by its first binding. *)
#[local] Unset Elimination Schemes.
Inductive json :=
| JNull
| JBool (b : bool)
| JNum (n : Z)
| JStr (s : string)
| JArr (items : list json)
| JObj (fields : list (string * json)).
#[local] Set Elimination Schemes.

(** ToBoolean, as used by [||], [!] and [filter(Boolean)]. *)
Definition truthy (j : json) : bool :=
  match j with
  | JNull => false
  | JBool b => b
  | JNum n => negb (n =? 0)
  | JStr s => negb (String.eqb s "")
  | JArr _ | JObj _ => true
  end.

Definition truthy_string (s : string) : bool := negb (String.eqb s "").

(** [x || null] on an optional value: anything falsy becomes [null]. *)
Definition or_null {A} (t : A → bool) (x : option A) : option A :=
  match x with
  | Some v => if t v then Some v else None
  | None => None
  end.

(** [x || d] on an optional string. *)
Definition or_default (x : option string) (d : string) : string :=
  match x with
  | Some v => if truthy_string v then v else d
  | None => d
  end.

(** A payload property whose column has a default: [undefined] (or
    absent), [null], or a value. *)
Inductive Optional (A : Type) :=
| OUndefined
| ONull
| OValue (a : A).
Arguments OUndefined {A}.
Arguments ONull {A}.
Arguments OValue {A} _.

(** What [x || d] and [x || null] see of it. *)
Definition to_option {A} (x : Optional A) : option A :=
  match x with
  | OValue a => Some a
  | _ => None
  end.

(** [o.k] on a value that may be [undefined] ([None]).  Reading a property
    of [null] throws; primitives and arrays have none of the properties the
    routes read. *)
Fixpoint obj_get (k : string) (fields : list (string * json)) : option json :=
  match fields with
  | [] => None
  | (k', v) :: rest => if decide (k' = k) then Some v else obj_get k rest
  end.

Definition get_prop (k : string) (j : json) : string + option json :=
  match j with
  | JNull => inl "TypeError: Cannot read properties of null"
  | JObj fields => inr (obj_get k fields)
  | _ => inr None
  end.

Definition join_with (sep : string) (parts : list string) : string :=
  match parts with
  | [] => ""
  | p :: ps => fold_left (λ acc q, acc +:+ sep +:+ q) ps p
  end.

(** A number is given by an integer literal; its value is the double
    nearest to the literal, ties going to the even significand ([None] is
    [Infinity]). *)
Definition nearest_double (a : Z) : option Z :=
  if a <? 2 ^ 53 then Some a
  else
    let e := Z.log2 a - 52 in
    let q := a / 2 ^ e in
    let r := a mod 2 ^ e in
    let half := 2 ^ (e - 1) in
    let q' := if (half <? r) || ((r =? half) && Z.odd q) then q + 1 else q in
    let x := q' * 2 ^ e in
    if x <? 2 ^ 1024 then Some x else None.

(** The decimal with the fewest significant digits whose value is the
    double [x], and of those the one nearest to [x]: the multiples of the
    power of ten [p] on both sides of [x] are tried, from the largest [p]
    down to 1. *)
Fixpoint shortest_decimal (fuel : nat) (p x : Z) : Z :=
  match fuel with
  | O => x
  | Datatypes.S fuel' =>
      let lo := x / p * p in
      let hi := lo + p in
      let is_x v := bool_decide (nearest_double v = Some x) in
      match is_x lo, is_x hi with
      | true, true =>
          if (x - lo <? hi - x) || ((x - lo =? hi - x) && Z.even (x / p)) then lo else hi
      | true, false => lo
      | false, true => hi
      | false, false => shortest_decimal fuel' (p / 10) x
      end
  end.

Fixpoint strip_zeros (digits : string) : string :=
  match digits with
  | EmptyString => ""
  | String c rest =>
      let rest' := strip_zeros rest in
      if decide (c = "0"%char ∧ rest' = "") then "" else String c rest'
  end.

(** [Number::toString]: positional notation up to 21 digits, exponent
    notation beyond. *)
Definition Number_toString (n : Z) : string :=
  let sign := if n <? 0 then "-" else "" in
  match nearest_double (Z.abs n) with
  | None => sign +:+ "Infinity"
  | Some x =>
      let width := String.length (pretty x) in
      let v :=
        if x <? 2 ^ 53 then x
        else shortest_decimal width (10 ^ (Z.of_nat width - 1)) x in
      let digits := pretty v in
      let exponent := pretty (Z.of_nat (String.length digits) - 1) in
      if (String.length digits <=? 21)%nat then sign +:+ digits
      else
        match strip_zeros digits with
        | EmptyString => sign +:+ digits
        | String d EmptyString => sign +:+ String d ("e+" +:+ exponent)
        | String d rest => sign +:+ String d ("." +:+ rest +:+ "e+" +:+ exponent)
        end
  end.

(** ToString of a JSON value, as a computed property key [answers[q.id]]
    applies it. *)
Fixpoint to_js_string (j : json) : string :=
  match j with
  | JNull => "null"
  | JBool true => "true"
  | JBool false => "false"
  | JNum n => Number_toString n
  | JStr s => s
  | JArr items =>
      join_with "," (map (λ i, match i with JNull => "" | _ => to_js_string i end) items)
  | JObj _ => "[object Object]"
  end.

Definition to_property_key (v : option json) : string :=
  match v with
  | None => "undefined"
  | Some j => to_js_string j
  end.

(** The own property names of [Object.prototype], which every object
    literal inherits: [__proto__] is an accessor that returns the
    prototype, the others are methods. *)
Definition Object_prototype : list string :=
  ["constructor"; "__defineGetter__"; "__defineSetter__"; "hasOwnProperty";
   "__lookupGetter__"; "__lookupSetter__"; "isPrototypeOf"; "propertyIsEnumerable";
   "toString"; "valueOf"; "__proto__"; "toLocaleString"].

(** What [o[k]] reads from an object literal [o] whose own properties are
    strings: an own string, or a member of the prototype. *)
Inductive Property :=
| Own (value : string)
| Inherited (name : string).

Definition object_get (o : gmap string string) (k : string) : option Property :=
  match o !! k with
  | Some value => Some (Own value)
  | None => if bool_decide (k ∈ Object_prototype) then Some (Inherited k) else None
  end.

(** [JSON.stringify] of such a value inside an object: a method is left
    out, the prototype has no enumerable property of its own. *)
Definition property_to_json (v : Property) : option json :=
  match v with
  | Own value => Some (JStr value)
  | Inherited name => if decide (name = "__proto__") then Some (JObj []) else None
  end.

(** ** [jsonb]

    What a [jsonb] column gives back for the value written to it: the keys
    of every object ordered by length, then bytewise.  An object holds each
    key once. *)
Definition key_leb (a b : string) : bool :=
  match Nat.compare (String.length a) (String.length b) with
  | Lt => true
  | Gt => false
  | Eq => String.leb a b
  end.

Fixpoint insert_field (f : string * json) (fields : list (string * json))
  : list (string * json) :=
  match fields with
  | [] => [f]
  | g :: rest => if key_leb f.1 g.1 then f :: g :: rest else g :: insert_field f rest
  end.

Fixpoint jsonb (j : json) : json :=
  match j with
  | JArr items => JArr (map jsonb items)
  | JObj fields =>
      JObj (foldr insert_field [] (map (λ '(k, v), (k, jsonb v)) fields))
  | _ => j
  end.

(** ** The JavaScript [Map]

    Keys are strings; iteration ([values()], [entries()]) follows insertion
    order, and [set] on a present key keeps its position. *)
Abbreviation JsMap V := (list (string * V)).

Fixpoint map_get {V} (k : string) (m : JsMap V) : option V :=
  match m with
  | [] => None
  | (k', v) :: rest => if decide (k' = k) then Some v else map_get k rest
  end.

Fixpoint map_set {V} (k : string) (v : V) (m : JsMap V) : JsMap V :=
  match m with
  | [] => [(k, v)]
  | (k', v') :: rest =>
      if decide (k' = k) then (k, v) :: rest else (k', v') :: map_set k v rest
  end.

Definition map_has {V} (k : string) (m : JsMap V) : bool :=
  bool_decide (is_Some (map_get k m)).

(** [Map.prototype.delete]: removes the entry and tells whether there was
    one. *)
Definition map_delete {V} (k : string) (m : JsMap V) : bool * JsMap V :=
  (map_has k m, filter (λ kv, kv.1 ≠ k) m).

Definition map_values {V} (m : JsMap V) : list V := m.*2.

Definition map_entries {V} (m : JsMap V) : list (string * V) := m.

(** [Array.prototype.find]. *)
Definition array_find {A} (P : A → Prop) `{∀ x, Decision (P x)} (l : list A) : option A :=
  snd <$> list_find P l.

(** ** shared/schema.ts

    One record per table row ([$inferSelect]) and one per insert payload
    ([z.infer] of the insert schema, with the [userId] the storage
    interface adds).  The timestamp columns are nullable in the table
    definitions but every creation path fills them.

    The users table has no [role] column: [role] is a property that
    [MemStorage.createUser] gives a user and [requireRole] reads, and that a
    row of the database does not have ([None]).  The registration body is
    passed on as it came, so it may carry a [role] all the same. *)

Module User.
Record t := mk {
    id : string; username : string; password : string; email : string;
    role : option string; plan : string; language : string; createdAt : Date }.
End User.

Module InsertUser.
Record t := mk {
    username : string; password : string; email : string;
    role : option string; plan : Optional string; language : Optional string }.
End InsertUser.

(** [Partial<User>]: [Some v] is a key present in the update. *)
Module PartialUser.
Record t := mk {
    id : option string; username : option string; password : option string;
    email : option string; role : option string; plan : option string;
    language : option string; createdAt : option Date }.
End PartialUser.

Module Material.
Record t := mk {
    id : string; userId : string; filename : string; type : string;
    content : option string; metadata : option json; uploadedAt : Date }.
End Material.

Module InsertMaterial.
Record t := mk {
    filename : string; type : string; content : option string;
    metadata : option json; userId : string }.
End InsertMaterial.

Module Conversation.
Record t := mk {
    id : string; userId : string; title : option string; createdAt : Date }.
End Conversation.

Module InsertConversation.
Record t := mk { title : option string; userId : string }.
End InsertConversation.

Module Message.
Record t := mk {
    id : string; conversationId : string; role : string; content : string;
    audioUrl : option string; materialIds : option json; timestamp : Date }.
End Message.

Module InsertMessage.
Record t := mk {
    conversationId : string; role : string; content : string;
    audioUrl : option string; materialIds : option json }.
End InsertMessage.

Module MindMap.
Record t := mk {
    id : string; userId : string; title : string; nodes : json;
    materialIds : option json; createdAt : Date; updatedAt : Date }.
End MindMap.

Module InsertMindMap.
Record t := mk {
    title : string; nodes : json; materialIds : option json; userId : string }.
End InsertMindMap.

(** [Partial<MindMap>]. *)
Module PartialMindMap.
Record t := mk {
    id : option string; userId : option string; title : option string;
    nodes : option json; materialIds : option (option json);
    createdAt : option Date; updatedAt : option Date }.
End PartialMindMap.

Module Quiz.
Record t := mk {
    id : string; userId : string; title : string; questions : json;
    materialIds : option json; difficulty : option string; createdAt : Date }.
End Quiz.

Module InsertQuiz.
Record t := mk {
    title : string; questions : json; materialIds : option json;
    difficulty : Optional string; userId : string }.
End InsertQuiz.

Module QuizAttempt.
Record t := mk {
    id : string; userId : string; quizId : string; answers : json;
    score : nat; totalQuestions : nat; completedAt : Date }.
End QuizAttempt.

Module InsertQuizAttempt.
Record t := mk {
    quizId : string; answers : json; score : nat; totalQuestions : nat;
    userId : string }.
End InsertQuizAttempt.

(** [{ ...row, ...updates, updatedAt }] and the column list of
    [UPDATE mind_maps SET ...]: a present key replaces the column. *)
Definition patch {A} (old : A) (upd : option A) : A := default old upd.

(** Messages ordered by timestamp.  [Array.prototype.sort] is stable, so
    equal timestamps keep their relative order. *)
Fixpoint insert_by_timestamp (m : Message.t) (l : list Message.t) : list Message.t :=
  match l with
  | [] => [m]
  | h :: t =>
      if Message.timestamp m <=? Message.timestamp h
      then m :: h :: t
      else h :: insert_by_timestamp m t
  end.

Definition sort_by_timestamp (l : list Message.t) : list Message.t :=
  foldr insert_by_timestamp [] l.

(** ** Exceptions

    [string + A] is a computation that returns an [A] or throws an [Error]
    with the given message; [x ← e; k] stops at the first throw, as the
    body of a [try] block does. *)
#[export] Instance exc_ret : MRet (sum string) := λ A x, inr x.
#[export] Instance exc_bind : MBind (sum string) := λ A B f x,
  match x with
  | inl e => inl e
  | inr a => f a
  end.

(** ** server/storage.ts: [MemStorage]

    Seven maps keyed by id.  Every method is a function of the store;
    methods that write return the new store as well. *)
Module MemStorage.

Record t := mk {
  users : JsMap User.t;
  materials : JsMap Material.t;
  conversations : JsMap Conversation.t;
  messages : JsMap Message.t;
  mindMaps : JsMap MindMap.t;
  quizzes : JsMap Quiz.t;
  quizAttempts : JsMap QuizAttempt.t }.

Definition empty : t := mk [] [] [] [] [] [] [].

Definition with_users (st : t) (m : JsMap User.t) : t :=
  mk m (materials st) (conversations st) (messages st) (mindMaps st) (quizzes st)
     (quizAttempts st).
Definition with_materials (st : t) (m : JsMap Material.t) : t :=
  mk (users st) m (conversations st) (messages st) (mindMaps st) (quizzes st)
     (quizAttempts st).
Definition with_conversations (st : t) (m : JsMap Conversation.t) : t :=
  mk (users st) (materials st) m (messages st) (mindMaps st) (quizzes st)
     (quizAttempts st).
Definition with_messages (st : t) (m : JsMap Message.t) : t :=
  mk (users st) (materials st) (conversations st) m (mindMaps st) (quizzes st)
     (quizAttempts st).
Definition with_mindMaps (st : t) (m : JsMap MindMap.t) : t :=
  mk (users st) (materials st) (conversations st) (messages st) m (quizzes st)
     (quizAttempts st).
Definition with_quizzes (st : t) (m : JsMap Quiz.t) : t :=
  mk (users st) (materials st) (conversations st) (messages st) (mindMaps st) m
     (quizAttempts st).
Definition with_quizAttempts (st : t) (m : JsMap QuizAttempt.t) : t :=
  mk (users st) (materials st) (conversations st) (messages st) (mindMaps st)
     (quizzes st) m.

(** User methods *)
Definition getUser (id : string) (st : t) : option User.t :=
  map_get id (users st).

Definition getUserByUsername (username : string) (st : t) : option User.t :=
  array_find (λ user, User.username user = username) (map_values (users st)).

Definition getUserByEmail (email : string) (st : t) : option User.t :=
  array_find (λ user, User.email user = email) (map_values (users st)).

Definition createUser (id : string) (now : Date) (insertUser : InsertUser.t) (st : t)
  : User.t * t :=
  let user :=
    User.mk id (InsertUser.username insertUser) (InsertUser.password insertUser)
      (InsertUser.email insertUser)
      (Some (or_default (InsertUser.role insertUser) "student"))
      (or_default (to_option (InsertUser.plan insertUser)) "free")
      (or_default (to_option (InsertUser.language insertUser)) "en")
      now in
  (user, with_users st (map_set id user (users st))).

Definition updateUser (id : string) (updates : PartialUser.t) (st : t)
  : option User.t * t :=
  match map_get id (users st) with
  | None => (None, st)
  | Some user =>
      let updatedUser :=
        User.mk (patch (User.id user) (PartialUser.id updates))
          (patch (User.username user) (PartialUser.username updates))
          (patch (User.password user) (PartialUser.password updates))
          (patch (User.email user) (PartialUser.email updates))
          (patch (User.role user) (Some <$> PartialUser.role updates))
          (patch (User.plan user) (PartialUser.plan updates))
          (patch (User.language user) (PartialUser.language updates))
          (patch (User.createdAt user) (PartialUser.createdAt updates)) in
      (Some updatedUser, with_users st (map_set id updatedUser (users st)))
  end.

(** Material methods *)
Definition getMaterial (id : string) (st : t) : option Material.t :=
  map_get id (materials st).

Definition getMaterialsByUser (userId : string) (st : t) : list Material.t :=
  filter (λ material, Material.userId material = userId) (map_values (materials st)).

Definition createMaterial (id : string) (now : Date) (material : InsertMaterial.t) (st : t)
  : Material.t * t :=
  let newMaterial :=
    Material.mk id (InsertMaterial.userId material) (InsertMaterial.filename material)
      (InsertMaterial.type material)
      (or_null truthy_string (InsertMaterial.content material))
      (or_null truthy (InsertMaterial.metadata material))
      now in
  (newMaterial, with_materials st (map_set id newMaterial (materials st))).

Definition deleteMaterial (id : string) (st : t) : bool * t :=
  let '(found, m) := map_delete id (materials st) in (found, with_materials st m).

(** Conversation methods *)
Definition getConversation (id : string) (st : t) : option Conversation.t :=
  map_get id (conversations st).

Definition getConversationsByUser (userId : string) (st : t) : list Conversation.t :=
  filter (λ conv, Conversation.userId conv = userId) (map_values (conversations st)).

Definition createConversation (id : string) (now : Date)
    (conversation : InsertConversation.t) (st : t) : Conversation.t * t :=
  let newConversation :=
    Conversation.mk id (InsertConversation.userId conversation)
      (or_null truthy_string (InsertConversation.title conversation)) now in
  (newConversation,
   with_conversations st (map_set id newConversation (conversations st))).

(** The related messages are collected first and deleted one by one,
    then the conversation itself. *)
Definition deleteConversation (id : string) (st : t) : bool * t :=
  let related :=
    filter (λ e, Message.conversationId e.2 = id) (map_entries (messages st)) in
  let remaining :=
    foldl (λ m e, (map_delete e.1 m).2) (messages st) related in
  let '(found, convs) := map_delete id (conversations st) in
  (found, with_conversations (with_messages st remaining) convs).

(** Message methods *)
Definition getMessage (id : string) (st : t) : option Message.t :=
  map_get id (messages st).

Definition getMessagesByConversation (conversationId : string) (st : t) : list Message.t :=
  sort_by_timestamp
    (filter (λ message, Message.conversationId message = conversationId)
       (map_values (messages st))).

Definition createMessage (id : string) (now : Date) (message : InsertMessage.t) (st : t)
  : Message.t * t :=
  let newMessage :=
    Message.mk id (InsertMessage.conversationId message) (InsertMessage.role message)
      (InsertMessage.content message)
      (or_null truthy_string (InsertMessage.audioUrl message))
      (or_null truthy (InsertMessage.materialIds message))
      now in
  (newMessage, with_messages st (map_set id newMessage (messages st))).

(** MindMap methods *)
Definition getMindMap (id : string) (st : t) : option MindMap.t :=
  map_get id (mindMaps st).

Definition getMindMapsByUser (userId : string) (st : t) : list MindMap.t :=
  filter (λ mindMap, MindMap.userId mindMap = userId) (map_values (mindMaps st)).

Definition createMindMap (id : string) (now : Date) (mindMap : InsertMindMap.t) (st : t)
  : MindMap.t * t :=
  let newMindMap :=
    MindMap.mk id (InsertMindMap.userId mindMap) (InsertMindMap.title mindMap)
      (InsertMindMap.nodes mindMap)
      (or_null truthy (InsertMindMap.materialIds mindMap))
      now now in
  (newMindMap, with_mindMaps st (map_set id newMindMap (mindMaps st))).

(** [{ ...mindMap, ...updates, updatedAt: new Date() }], stored under the
    id the method was called with. *)
Definition updateMindMap (id : string) (now : Date) (updates : PartialMindMap.t) (st : t)
  : option MindMap.t * t :=
  match map_get id (mindMaps st) with
  | None => (None, st)
  | Some mindMap =>
      let updatedMindMap :=
        MindMap.mk (patch (MindMap.id mindMap) (PartialMindMap.id updates))
          (patch (MindMap.userId mindMap) (PartialMindMap.userId updates))
          (patch (MindMap.title mindMap) (PartialMindMap.title updates))
          (patch (MindMap.nodes mindMap) (PartialMindMap.nodes updates))
          (patch (MindMap.materialIds mindMap) (PartialMindMap.materialIds updates))
          (patch (MindMap.createdAt mindMap) (PartialMindMap.createdAt updates))
          now in
      (Some updatedMindMap, with_mindMaps st (map_set id updatedMindMap (mindMaps st)))
  end.

Definition deleteMindMap (id : string) (st : t) : bool * t :=
  let '(found, m) := map_delete id (mindMaps st) in (found, with_mindMaps st m).

(** Quiz methods *)
Definition getQuiz (id : string) (st : t) : option Quiz.t :=
  map_get id (quizzes st).

Definition getQuizzesByUser (userId : string) (st : t) : list Quiz.t :=
  filter (λ quiz, Quiz.userId quiz = userId) (map_values (quizzes st)).

Definition createQuiz (id : string) (now : Date) (quiz : InsertQuiz.t) (st : t)
  : Quiz.t * t :=
  let newQuiz :=
    Quiz.mk id (InsertQuiz.userId quiz) (InsertQuiz.title quiz)
      (InsertQuiz.questions quiz)
      (or_null truthy (InsertQuiz.materialIds quiz))
      (Some (or_default (to_option (InsertQuiz.difficulty quiz)) "medium"))
      now in
  (newQuiz, with_quizzes st (map_set id newQuiz (quizzes st))).

Definition deleteQuiz (id : string) (st : t) : bool * t :=
  let '(found, m) := map_delete id (quizzes st) in (found, with_quizzes st m).

(** QuizAttempt methods *)
Definition getQuizAttempt (id : string) (st : t) : option QuizAttempt.t :=
  map_get id (quizAttempts st).

Definition getQuizAttemptsByUser (userId : string) (st : t) : list QuizAttempt.t :=
  filter (λ attempt, QuizAttempt.userId attempt = userId) (map_values (quizAttempts st)).

Definition createQuizAttempt (id : string) (now : Date) (attempt : InsertQuizAttempt.t)
    (st : t) : QuizAttempt.t * t :=
  let newAttempt :=
    QuizAttempt.mk id (InsertQuizAttempt.userId attempt)
      (InsertQuizAttempt.quizId attempt) (InsertQuizAttempt.answers attempt)
      (InsertQuizAttempt.score attempt) (InsertQuizAttempt.totalQuestions attempt)
      now in
  (newAttempt, with_quizAttempts st (map_set id newAttempt (quizAttempts st))).

End MemStorage.

(** ** server/storage.ts: [DatabaseStorage]

    The query builder is used in four shapes only, each against one table:
    [select().from(t).where(c)], [insert(t).values(v).returning()],
    [update(t).set(s).where(c).returning()] and
    [delete(t).where(c).returning()].  A table is the list of its rows in
    the order a scan meets them: an inserted row comes last, and so does an
    updated one, which is written as a new version of the row.  The
    database promises no order for a select without [orderBy]; what is
    proved of a listing is proved up to the order of its rows.  A column
    left out of [values] takes the default of its table definition
    ([gen_random_uuid()], [defaultNow()], the literal default, or NULL); a
    key of [values] or [set] that is no column of the table is ignored.

    A statement that violates a constraint of the schema (primary key,
    [unique()], [notNull()], [references()]) throws and changes nothing, and
    so does an update that sets no column.  The text of the error is the
    database's; only its kind is kept. *)
Module DatabaseStorage.

Definition db_select {A} (c : A → Prop) `{∀ r, Decision (c r)} (table : list A) : list A :=
  filter c table.

Definition db_insert {A} (row : A) (table : list A) : list A * list A :=
  ([row], table ++ [row]).

Definition db_update {A} (set : A → A) (c : A → Prop) `{∀ r, Decision (c r)}
    (table : list A) : list A * list A :=
  let updated := set <$> filter c table in
  (updated, filter (λ r, ¬ c r) table ++ updated).

Definition db_delete {A} (c : A → Prop) `{∀ r, Decision (c r)} (table : list A)
  : list A * list A :=
  (filter c table, filter (λ r, ¬ c r) table).

Definition not_null_violation : string :=
  "error: null value in column violates not-null constraint".
Definition unique_violation : string :=
  "error: duplicate key value violates unique constraint".
Definition foreign_key_violation : string :=
  "error: insert, update or delete on table violates foreign key constraint".
Definition no_values_to_set : string := "No values to set".
Definition syntax_error : string := "error: syntax error at or near where".

Definition check (P : Prop) `{Decision P} (error : string) : string + () :=
  if decide P then inr () else inl error.

(** A value for a [jsonb(...).notNull()] column, and one for a nullable
    [jsonb] column: JavaScript's [null] is written as NULL. *)
Definition jsonb_not_null (j : json) : string + json :=
  match j with
  | JNull => inl not_null_violation
  | _ => inr (jsonb j)
  end.

Definition jsonb_nullable (j : option json) : option json :=
  match j with
  | Some JNull | None => None
  | Some v => Some (jsonb v)
  end.

(** A value for a [text(...).notNull().default(d)] column, and one for a
    nullable [text(...).default(d)] column: the default stands in for an
    absent property, not for [null]. *)
Definition text_not_null_default (d : string) (x : Optional string) : string + string :=
  match x with
  | OUndefined => inr d
  | ONull => inl not_null_violation
  | OValue v => inr v
  end.

Definition text_default (d : string) (x : Optional string) : option string :=
  match x with
  | OUndefined => Some d
  | ONull => None
  | OValue v => Some v
  end.

(** An update of a [notNull()] jsonb column that does not write NULL. *)
Definition non_null (new : option json) : Prop :=
  match new with
  | Some JNull => False
  | _ => True
  end.

#[global] Instance non_null_dec new : Decision (non_null new).
Proof. destruct new as [[]|]; simpl; apply _. Defined.

(** A new value of a key column is free when no other row holds it. *)
Definition free (new : option string) (taken : list string) : Prop :=
  match new with
  | Some v => v ∉ taken
  | None => True
  end.

#[global] Instance free_dec new taken : Decision (free new taken).
Proof. destruct new; simpl; apply _. Defined.

(** A new value of a referencing column points at a row. *)
Definition refers (new : option string) (keys : list string) : Prop :=
  match new with
  | Some v => v ∈ keys
  | None => True
  end.

#[global] Instance refers_dec new keys : Decision (refers new keys).
Proof. destruct new; simpl; apply _. Defined.

Record t := mk {
  users : list User.t;
  materials : list Material.t;
  conversations : list Conversation.t;
  messages : list Message.t;
  mindMaps : list MindMap.t;
  quizzes : list Quiz.t;
  quizAttempts : list QuizAttempt.t }.

Definition empty : t := mk [] [] [] [] [] [] [].

Definition with_users (st : t) (m : list User.t) : t :=
  mk m (materials st) (conversations st) (messages st) (mindMaps st) (quizzes st)
     (quizAttempts st).
Definition with_materials (st : t) (m : list Material.t) : t :=
  mk (users st) m (conversations st) (messages st) (mindMaps st) (quizzes st)
     (quizAttempts st).
Definition with_conversations (st : t) (m : list Conversation.t) : t :=
  mk (users st) (materials st) m (messages st) (mindMaps st) (quizzes st)
     (quizAttempts st).
Definition with_messages (st : t) (m : list Message.t) : t :=
  mk (users st) (materials st) (conversations st) m (mindMaps st) (quizzes st)
     (quizAttempts st).
Definition with_mindMaps (st : t) (m : list MindMap.t) : t :=
  mk (users st) (materials st) (conversations st) (messages st) m (quizzes st)
     (quizAttempts st).
Definition with_quizzes (st : t) (m : list Quiz.t) : t :=
  mk (users st) (materials st) (conversations st) (messages st) (mindMaps st) m
     (quizAttempts st).
Definition with_quizAttempts (st : t) (m : list QuizAttempt.t) : t :=
  mk (users st) (materials st) (conversations st) (messages st) (mindMaps st)
     (quizzes st) m.

Definition getUser (id : string) (st : t) : option User.t :=
  head (db_select (λ r, User.id r = id) (users st)).

Definition getUserByUsername (username : string) (st : t) : option User.t :=
  head (db_select (λ r, User.username r = username) (users st)).

Definition getUserByEmail (email : string) (st : t) : option User.t :=
  head (db_select (λ r, User.email r = email) (users st)).

Definition createUser (id : string) (now : Date) (insertUser : InsertUser.t) (st : t)
  : string + (User.t * t) :=
  plan ← text_not_null_default "free" (InsertUser.plan insertUser);
  language ← text_not_null_default "en" (InsertUser.language insertUser);
  let row :=
    User.mk id (InsertUser.username insertUser) (InsertUser.password insertUser)
      (InsertUser.email insertUser) None plan language now in
  _ ← check (id ∉ User.id <$> users st) unique_violation;
  _ ← check (InsertUser.username insertUser ∉ User.username <$> users st) unique_violation;
  _ ← check (InsertUser.email insertUser ∉ User.email <$> users st) unique_violation;
  let '(result, table) := db_insert row (users st) in
  mret (default row (head result), with_users st table).

(** [set(updates)]: the columns named by the update. *)
Definition set_user (updates : PartialUser.t) (r : User.t) : User.t :=
  User.mk (patch (User.id r) (PartialUser.id updates))
    (patch (User.username r) (PartialUser.username updates))
    (patch (User.password r) (PartialUser.password updates))
    (patch (User.email r) (PartialUser.email updates))
    (User.role r)
    (patch (User.plan r) (PartialUser.plan updates))
    (patch (User.language r) (PartialUser.language updates))
    (patch (User.createdAt r) (PartialUser.createdAt updates)).

(** Whether the update names a column of the table, and whether it names
    anything at all. *)
Definition sets_user_column (updates : PartialUser.t) : Prop :=
  is_Some (PartialUser.id updates) ∨ is_Some (PartialUser.username updates) ∨
  is_Some (PartialUser.password updates) ∨ is_Some (PartialUser.email updates) ∨
  is_Some (PartialUser.plan updates) ∨ is_Some (PartialUser.language updates) ∨
  is_Some (PartialUser.createdAt updates).

(** The rows of the five tables that reference [users.id]. *)
Definition references_user (id : string) (st : t) : Prop :=
  id ∈ (Material.userId <$> materials st) ++ (Conversation.userId <$> conversations st)
       ++ (MindMap.userId <$> mindMaps st) ++ (Quiz.userId <$> quizzes st)
       ++ (QuizAttempt.userId <$> quizAttempts st).

#[global] Instance references_user_dec id st : Decision (references_user id st).
Proof. unfold references_user. apply _. Defined.

(** [set] throws on an update without a value; one that names no column
    gives a statement with an empty SET list.  The key constraints are
    checked where a row is updated; the id of a user that a row of another
    table refers to cannot change. *)
Definition updateUser (id : string) (updates : PartialUser.t) (st : t)
  : string + (option User.t * t) :=
  _ ← check (sets_user_column updates ∨ is_Some (PartialUser.role updates))
        no_values_to_set;
  _ ← check (sets_user_column updates) syntax_error;
  let others := filter (λ r, User.id r ≠ id) (users st) in
  let '(result, table) := db_update (set_user updates) (λ r, User.id r = id) (users st) in
  _ ← check (length result = 0%nat ∨
             free (PartialUser.id updates) (User.id <$> others) ∧
             free (PartialUser.username updates) (User.username <$> others) ∧
             free (PartialUser.email updates) (User.email <$> others))
        unique_violation;
  _ ← check (length result = 0%nat ∨ PartialUser.id updates = None ∨
             PartialUser.id updates = Some id ∨ ¬ references_user id st)
        foreign_key_violation;
  mret (head result, with_users st table).

Definition getMaterial (id : string) (st : t) : option Material.t :=
  head (db_select (λ r, Material.id r = id) (materials st)).

Definition getMaterialsByUser (userId : string) (st : t) : list Material.t :=
  db_select (λ r, Material.userId r = userId) (materials st).

Definition createMaterial (id : string) (now : Date) (material : InsertMaterial.t) (st : t)
  : string + (Material.t * t) :=
  let row :=
    Material.mk id (InsertMaterial.userId material) (InsertMaterial.filename material)
      (InsertMaterial.type material) (InsertMaterial.content material)
      (jsonb_nullable (InsertMaterial.metadata material)) now in
  _ ← check (id ∉ Material.id <$> materials st) unique_violation;
  _ ← check (InsertMaterial.userId material ∈ User.id <$> users st) foreign_key_violation;
  let '(result, table) := db_insert row (materials st) in
  mret (default row (head result), with_materials st table).

Definition deleteMaterial (id : string) (st : t) : bool * t :=
  let '(result, table) := db_delete (λ r, Material.id r = id) (materials st) in
  (bool_decide (0 < length result)%nat, with_materials st table).

Definition getConversation (id : string) (st : t) : option Conversation.t :=
  head (db_select (λ r, Conversation.id r = id) (conversations st)).

Definition getConversationsByUser (userId : string) (st : t) : list Conversation.t :=
  db_select (λ r, Conversation.userId r = userId) (conversations st).

Definition createConversation (id : string) (now : Date)
    (conversation : InsertConversation.t) (st : t) : string + (Conversation.t * t) :=
  let row :=
    Conversation.mk id (InsertConversation.userId conversation)
      (InsertConversation.title conversation) now in
  _ ← check (id ∉ Conversation.id <$> conversations st) unique_violation;
  _ ← check (InsertConversation.userId conversation ∈ User.id <$> users st)
        foreign_key_violation;
  let '(result, table) := db_insert row (conversations st) in
  mret (default row (head result), with_conversations st table).

(** The messages go first, so the reference of [messages.conversationId]
    never stands in the way. *)
Definition deleteConversation (id : string) (st : t) : bool * t :=
  let '(_, msgs) := db_delete (λ r, Message.conversationId r = id) (messages st) in
  let '(result, convs) := db_delete (λ r, Conversation.id r = id) (conversations st) in
  (bool_decide (0 < length result)%nat,
   with_conversations (with_messages st msgs) convs).

Definition getMessage (id : string) (st : t) : option Message.t :=
  head (db_select (λ r, Message.id r = id) (messages st)).

(** [orderBy(asc(messages.timestamp))]. *)
Definition getMessagesByConversation (conversationId : string) (st : t) : list Message.t :=
  sort_by_timestamp
    (db_select (λ r, Message.conversationId r = conversationId) (messages st)).

Definition createMessage (id : string) (now : Date) (message : InsertMessage.t) (st : t)
  : string + (Message.t * t) :=
  let row :=
    Message.mk id (InsertMessage.conversationId message) (InsertMessage.role message)
      (InsertMessage.content message) (InsertMessage.audioUrl message)
      (jsonb_nullable (InsertMessage.materialIds message)) now in
  _ ← check (id ∉ Message.id <$> messages st) unique_violation;
  _ ← check (InsertMessage.conversationId message ∈ Conversation.id <$> conversations st)
        foreign_key_violation;
  let '(result, table) := db_insert row (messages st) in
  mret (default row (head result), with_messages st table).

Definition getMindMap (id : string) (st : t) : option MindMap.t :=
  head (db_select (λ r, MindMap.id r = id) (mindMaps st)).

Definition getMindMapsByUser (userId : string) (st : t) : list MindMap.t :=
  db_select (λ r, MindMap.userId r = userId) (mindMaps st).

Definition createMindMap (id : string) (now : Date) (mindMap : InsertMindMap.t) (st : t)
  : string + (MindMap.t * t) :=
  nodes ← jsonb_not_null (InsertMindMap.nodes mindMap);
  let row :=
    MindMap.mk id (InsertMindMap.userId mindMap) (InsertMindMap.title mindMap)
      nodes (jsonb_nullable (InsertMindMap.materialIds mindMap)) now now in
  _ ← check (id ∉ MindMap.id <$> mindMaps st) unique_violation;
  _ ← check (InsertMindMap.userId mindMap ∈ User.id <$> users st) foreign_key_violation;
  let '(result, table) := db_insert row (mindMaps st) in
  mret (default row (head result), with_mindMaps st table).

(** [set({ ...updates, updatedAt: new Date() })]. *)
Definition set_mindMap (now : Date) (updates : PartialMindMap.t) (r : MindMap.t)
  : MindMap.t :=
  MindMap.mk (patch (MindMap.id r) (PartialMindMap.id updates))
    (patch (MindMap.userId r) (PartialMindMap.userId updates))
    (patch (MindMap.title r) (PartialMindMap.title updates))
    (patch (MindMap.nodes r) (jsonb <$> PartialMindMap.nodes updates))
    (patch (MindMap.materialIds r) (jsonb_nullable <$> PartialMindMap.materialIds updates))
    (patch (MindMap.createdAt r) (PartialMindMap.createdAt updates))
    now.

(** The update the database accepts for the mind map [id]: it leaves
    [nodes] non-null, gives the row no id another row holds and no owner
    that is not a user. *)
Definition accepts_mindMap_update (id : string) (updates : PartialMindMap.t) (st : t)
  : Prop :=
  non_null (PartialMindMap.nodes updates) ∧
  free (PartialMindMap.id updates)
    (MindMap.id <$> filter (λ r, MindMap.id r ≠ id) (mindMaps st)) ∧
  refers (PartialMindMap.userId updates) (User.id <$> users st).

(** The constraints are checked where a row is updated. *)
Definition updateMindMap (id : string) (now : Date) (updates : PartialMindMap.t) (st : t)
  : string + (option MindMap.t * t) :=
  let '(result, table) :=
    db_update (set_mindMap now updates) (λ r, MindMap.id r = id) (mindMaps st) in
  _ ← check (length result = 0%nat ∨ non_null (PartialMindMap.nodes updates))
        not_null_violation;
  _ ← check (length result = 0%nat ∨
             free (PartialMindMap.id updates)
               (MindMap.id <$> filter (λ r, MindMap.id r ≠ id) (mindMaps st)))
        unique_violation;
  _ ← check (length result = 0%nat ∨
             refers (PartialMindMap.userId updates) (User.id <$> users st))
        foreign_key_violation;
  mret (head result, with_mindMaps st table).

Definition deleteMindMap (id : string) (st : t) : bool * t :=
  let '(result, table) := db_delete (λ r, MindMap.id r = id) (mindMaps st) in
  (bool_decide (0 < length result)%nat, with_mindMaps st table).

Definition getQuiz (id : string) (st : t) : option Quiz.t :=
  head (db_select (λ r, Quiz.id r = id) (quizzes st)).

Definition getQuizzesByUser (userId : string) (st : t) : list Quiz.t :=
  db_select (λ r, Quiz.userId r = userId) (quizzes st).

Definition createQuiz (id : string) (now : Date) (quiz : InsertQuiz.t) (st : t)
  : string + (Quiz.t * t) :=
  questions ← jsonb_not_null (InsertQuiz.questions quiz);
  let row :=
    Quiz.mk id (InsertQuiz.userId quiz) (InsertQuiz.title quiz)
      questions (jsonb_nullable (InsertQuiz.materialIds quiz))
      (text_default "medium" (InsertQuiz.difficulty quiz)) now in
  _ ← check (id ∉ Quiz.id <$> quizzes st) unique_violation;
  _ ← check (InsertQuiz.userId quiz ∈ User.id <$> users st) foreign_key_violation;
  let '(result, table) := db_insert row (quizzes st) in
  mret (default row (head result), with_quizzes st table).

(** A quiz that an attempt refers to cannot be deleted:
    [quiz_attempts.quiz_id] references it. *)
Definition deleteQuiz (id : string) (st : t) : string + (bool * t) :=
  let '(result, table) := db_delete (λ r, Quiz.id r = id) (quizzes st) in
  _ ← check (length result = 0%nat ∨ id ∉ QuizAttempt.quizId <$> quizAttempts st)
        foreign_key_violation;
  mret (bool_decide (0 < length result)%nat, with_quizzes st table).

Definition getQuizAttempt (id : string) (st : t) : option QuizAttempt.t :=
  head (db_select (λ r, QuizAttempt.id r = id) (quizAttempts st)).

Definition getQuizAttemptsByUser (userId : string) (st : t) : list QuizAttempt.t :=
  db_select (λ r, QuizAttempt.userId r = userId) (quizAttempts st).

Definition createQuizAttempt (id : string) (now : Date) (attempt : InsertQuizAttempt.t)
    (st : t) : string + (QuizAttempt.t * t) :=
  answers ← jsonb_not_null (InsertQuizAttempt.answers attempt);
  let row :=
    QuizAttempt.mk id (InsertQuizAttempt.userId attempt)
      (InsertQuizAttempt.quizId attempt) answers
      (InsertQuizAttempt.score attempt) (InsertQuizAttempt.totalQuestions attempt)
      now in
  _ ← check (id ∉ QuizAttempt.id <$> quizAttempts st) unique_violation;
  _ ← check (InsertQuizAttempt.userId attempt ∈ User.id <$> users st)
        foreign_key_violation;
  _ ← check (InsertQuizAttempt.quizId attempt ∈ Quiz.id <$> quizzes st)
        foreign_key_violation;
  let '(result, table) := db_insert row (quizAttempts st) in
  mret (default row (head result), with_quizAttempts st table).

(** The inserts the schema accepts: the id is new, every [notNull()]
    column gets a value, every unique column a new one, and every
    [references()] column the key of a row. *)
Definition accepts_user (id : string) (insertUser : InsertUser.t) (st : t) : Prop :=
  InsertUser.plan insertUser ≠ ONull ∧ InsertUser.language insertUser ≠ ONull ∧
  (id ∉ User.id <$> users st) ∧
  (InsertUser.username insertUser ∉ User.username <$> users st) ∧
  (InsertUser.email insertUser ∉ User.email <$> users st).

Definition accepts_material (id : string) (material : InsertMaterial.t) (st : t) : Prop :=
  (id ∉ Material.id <$> materials st) ∧
  (InsertMaterial.userId material ∈ User.id <$> users st).

Definition accepts_conversation (id : string) (conversation : InsertConversation.t) (st : t)
  : Prop :=
  (id ∉ Conversation.id <$> conversations st) ∧
  (InsertConversation.userId conversation ∈ User.id <$> users st).

Definition accepts_message (id : string) (message : InsertMessage.t) (st : t) : Prop :=
  (id ∉ Message.id <$> messages st) ∧
  (InsertMessage.conversationId message ∈ Conversation.id <$> conversations st).

Definition accepts_mindMap (id : string) (mindMap : InsertMindMap.t) (st : t) : Prop :=
  InsertMindMap.nodes mindMap ≠ JNull ∧
  (id ∉ MindMap.id <$> mindMaps st) ∧
  (InsertMindMap.userId mindMap ∈ User.id <$> users st).

Definition accepts_quiz (id : string) (quiz : InsertQuiz.t) (st : t) : Prop :=
  InsertQuiz.questions quiz ≠ JNull ∧
  (id ∉ Quiz.id <$> quizzes st) ∧
  (InsertQuiz.userId quiz ∈ User.id <$> users st).

Definition accepts_quizAttempt (id : string) (attempt : InsertQuizAttempt.t) (st : t)
  : Prop :=
  InsertQuizAttempt.answers attempt ≠ JNull ∧
  (id ∉ QuizAttempt.id <$> quizAttempts st) ∧
  (InsertQuizAttempt.userId attempt ∈ User.id <$> users st) ∧
  (InsertQuizAttempt.quizId attempt ∈ Quiz.id <$> quizzes st).

End DatabaseStorage.

(** ** The [IStorage] interface

    [storage] is whichever implementation storage.ts exports; the routes
    and the authentication handlers only go through this interface.  The
    methods that an implementation can make throw return [inl message] or
    the result and the new store; the in-memory implementation never
    throws. *)
Class IStorage (S : Type) := {
  getUser : string → S → option User.t;
  getUserByUsername : string → S → option User.t;
  getUserByEmail : string → S → option User.t;
  createUser : string → Date → InsertUser.t → S → string + (User.t * S);
  updateUser : string → PartialUser.t → S → string + (option User.t * S);
  getMaterial : string → S → option Material.t;
  getMaterialsByUser : string → S → list Material.t;
  createMaterial : string → Date → InsertMaterial.t → S → string + (Material.t * S);
  deleteMaterial : string → S → bool * S;
  getConversation : string → S → option Conversation.t;
  getConversationsByUser : string → S → list Conversation.t;
  createConversation :
    string → Date → InsertConversation.t → S → string + (Conversation.t * S);
  deleteConversation : string → S → bool * S;
  getMessage : string → S → option Message.t;
  getMessagesByConversation : string → S → list Message.t;
  createMessage : string → Date → InsertMessage.t → S → string + (Message.t * S);
  getMindMap : string → S → option MindMap.t;
  getMindMapsByUser : string → S → list MindMap.t;
  createMindMap : string → Date → InsertMindMap.t → S → string + (MindMap.t * S);
  updateMindMap : string → Date → PartialMindMap.t → S → string + (option MindMap.t * S);
  deleteMindMap : string → S → bool * S;
  getQuiz : string → S → option Quiz.t;
  getQuizzesByUser : string → S → list Quiz.t;
  createQuiz : string → Date → InsertQuiz.t → S → string + (Quiz.t * S);
  deleteQuiz : string → S → string + (bool * S);
  getQuizAttempt : string → S → option QuizAttempt.t;
  getQuizAttemptsByUser : string → S → list QuizAttempt.t;
  createQuizAttempt :
    string → Date → InsertQuizAttempt.t → S → string + (QuizAttempt.t * S) }.

#[export] Instance MemStorage_IStorage : IStorage MemStorage.t := {
  getUser := MemStorage.getUser;
  getUserByUsername := MemStorage.getUserByUsername;
  getUserByEmail := MemStorage.getUserByEmail;
  createUser := λ id now data st, inr (MemStorage.createUser id now data st);
  updateUser := λ id updates st, inr (MemStorage.updateUser id updates st);
  getMaterial := MemStorage.getMaterial;
  getMaterialsByUser := MemStorage.getMaterialsByUser;
  createMaterial := λ id now data st, inr (MemStorage.createMaterial id now data st);
  deleteMaterial := MemStorage.deleteMaterial;
  getConversation := MemStorage.getConversation;
  getConversationsByUser := MemStorage.getConversationsByUser;
  createConversation := λ id now data st, inr (MemStorage.createConversation id now data st);
  deleteConversation := MemStorage.deleteConversation;
  getMessage := MemStorage.getMessage;
  getMessagesByConversation := MemStorage.getMessagesByConversation;
  createMessage := λ id now data st, inr (MemStorage.createMessage id now data st);
  getMindMap := MemStorage.getMindMap;
  getMindMapsByUser := MemStorage.getMindMapsByUser;
  createMindMap := λ id now data st, inr (MemStorage.createMindMap id now data st);
  updateMindMap := λ id now updates st, inr (MemStorage.updateMindMap id now updates st);
  deleteMindMap := MemStorage.deleteMindMap;
  getQuiz := MemStorage.getQuiz;
  getQuizzesByUser := MemStorage.getQuizzesByUser;
  createQuiz := λ id now data st, inr (MemStorage.createQuiz id now data st);
  deleteQuiz := λ id st, inr (MemStorage.deleteQuiz id st);
  getQuizAttempt := MemStorage.getQuizAttempt;
  getQuizAttemptsByUser := MemStorage.getQuizAttemptsByUser;
  createQuizAttempt := λ id now data st, inr (MemStorage.createQuizAttempt id now data st) }.

#[export] Instance DatabaseStorage_IStorage : IStorage DatabaseStorage.t := {
  getUser := DatabaseStorage.getUser;
  getUserByUsername := DatabaseStorage.getUserByUsername;
  getUserByEmail := DatabaseStorage.getUserByEmail;
  createUser := DatabaseStorage.createUser;
  updateUser := DatabaseStorage.updateUser;
  getMaterial := DatabaseStorage.getMaterial;
  getMaterialsByUser := DatabaseStorage.getMaterialsByUser;
  createMaterial := DatabaseStorage.createMaterial;
  deleteMaterial := DatabaseStorage.deleteMaterial;
  getConversation := DatabaseStorage.getConversation;
  getConversationsByUser := DatabaseStorage.getConversationsByUser;
  createConversation := DatabaseStorage.createConversation;
  deleteConversation := DatabaseStorage.deleteConversation;
  getMessage := DatabaseStorage.getMessage;
  getMessagesByConversation := DatabaseStorage.getMessagesByConversation;
  createMessage := DatabaseStorage.createMessage;
  getMindMap := DatabaseStorage.getMindMap;
  getMindMapsByUser := DatabaseStorage.getMindMapsByUser;
  createMindMap := DatabaseStorage.createMindMap;
  updateMindMap := DatabaseStorage.updateMindMap;
  deleteMindMap := DatabaseStorage.deleteMindMap;
  getQuiz := DatabaseStorage.getQuiz;
  getQuizzesByUser := DatabaseStorage.getQuizzesByUser;
  createQuiz := DatabaseStorage.createQuiz;
  deleteQuiz := DatabaseStorage.deleteQuiz;
  getQuizAttempt := DatabaseStorage.getQuizAttempt;
  getQuizAttemptsByUser := DatabaseStorage.getQuizAttemptsByUser;
  createQuizAttempt := DatabaseStorage.createQuizAttempt }.

(** ** server/auth.ts *)

#[export] Instance byte_eq_dec : EqDecision byte := Byte.byte_eq_dec.

(** The primitives of [crypto] and [jsonwebtoken] the module calls:
    [scrypt(password, salt, keylen)] returns [keylen] bytes, and
    [jwt.sign({ userId }, JWT_SECRET, { expiresIn: '7d' })] at a given
    instant returns a token. *)
Class Crypto := {
  scrypt : string → string → nat → list byte;
  scrypt_length : ∀ password salt keylen, length (scrypt password salt keylen) = keylen;
  jwt_sign : string → Date → string }.

Definition hex_digit (n : N) : ascii :=
  match n with
  | 0%N => "0" | 1%N => "1" | 2%N => "2" | 3%N => "3" | 4%N => "4" | 5%N => "5"
  | 6%N => "6" | 7%N => "7" | 8%N => "8" | 9%N => "9" | 10%N => "a" | 11%N => "b"
  | 12%N => "c" | 13%N => "d" | 14%N => "e" | _ => "f"
  end%char.

Definition hex_value (c : ascii) : option N :=
  let n := N_of_ascii c in
  if ((48 <=? n) && (n <=? 57))%N then Some (n - 48)%N
  else if ((97 <=? n) && (n <=? 102))%N then Some (n - 87)%N
  else if ((65 <=? n) && (n <=? 70))%N then Some (n - 55)%N
  else None.

Definition hex_of_byte (b : byte) : string :=
  String (hex_digit (Byte.to_N b / 16)) (String (hex_digit (Byte.to_N b mod 16)) "").

(** [buf.toString("hex")]. *)
Definition toString_hex (buf : list byte) : string :=
  foldr (λ b acc, hex_of_byte b +:+ acc) "" buf.

(** [Buffer.from(s, "hex")]: pairs of hex digits, up to the first pair
    that is not one. *)
Fixpoint Buffer_from_hex (s : string) : list byte :=
  match s with
  | String c1 (String c2 rest) =>
      match hex_value c1, hex_value c2 with
      | Some h, Some l =>
          match Byte.of_N (16 * h + l) with
          | Some b => b :: Buffer_from_hex rest
          | None => []
          end
      | _, _ => []
      end
  | _ => []
  end.

(** [s.split(sep)] for a one-character separator. *)
Fixpoint split (sep : ascii) (s : string) : list string :=
  match s with
  | EmptyString => [""]
  | String c rest =>
      if decide (c = sep) then "" :: split sep rest
      else match split sep rest with
           | piece :: pieces => String c piece :: pieces
           | [] => [String c ""]
           end
  end.

(** [crypto.timingSafeEqual] throws on buffers of different lengths. *)
Definition timingSafeEqual (a b : list byte) : string + bool :=
  if decide (length a = length b) then inr (bool_decide (a = b))
  else inl "RangeError: Input buffers must have the same byte length".

Definition hashPassword `{Crypto} (saltBytes : list byte) (password : string) : string :=
  let salt := toString_hex saltBytes in
  let buf := scrypt password salt 64 in
  toString_hex buf +:+ "." +:+ salt.

(** [const [hashed, salt] = stored.split(".")]: with no dot in [stored],
    [salt] is [undefined] and [scrypt] throws. *)
Definition comparePasswords `{Crypto} (supplied stored : string) : string + bool :=
  let parts := split "." stored in
  let hashed := default "" (parts !! 0%nat) in
  let hashedBuf := Buffer_from_hex hashed in
  match parts !! 1%nat with
  | None => inl "TypeError: The salt argument must be of type string"
  | Some salt =>
      let suppliedBuf := scrypt supplied salt 64 in
      timingSafeEqual hashedBuf suppliedBuf
  end.

(** [const { password, ...userWithoutPassword } = user]. *)
Module UserWithoutPassword.
Record t := mk {
  id : string; username : string; email : string; role : option string; plan : string;
  language : string; createdAt : Date }.
End UserWithoutPassword.

Definition without_password (user : User.t) : UserWithoutPassword.t :=
  UserWithoutPassword.mk (User.id user) (User.username user) (User.email user)
    (User.role user) (User.plan user) (User.language user) (User.createdAt user).

(** One entry of the [results] array of a quiz attempt; [None] is a
    property that is [undefined]. *)
Module AttemptResult.
Record t := mk {
  questionId : option json; userAnswer : option Property; correctAnswer : option json;
  isCorrect : bool; explanation : option json }.
End AttemptResult.

(** ** Responses *)

Inductive Body :=
| BError (error : string)
| BUser (user : UserWithoutPassword.t) (token : option string)
| BMaterial (material : Material.t)
| BMessages (messages : list Message.t)
| BMessagePair (userMessage assistantMessage : Message.t)
| BMindMap (mindMap : option MindMap.t)
| BQuiz (quiz : Quiz.t)
| BAttempt (attempt : QuizAttempt.t) (results : list AttemptResult.t)
| BSuccess.

Record Response := mkResponse { status : Z; body : Body }.

(** A handler either sends a response or passes an error on with
    [next(error)]. *)
Inductive Outcome :=
| Sent (res : Response)
| Next (error : string).

Definition json_error (code : Z) (error : string) : Response :=
  mkResponse code (BError error).

Section Auth.
Context `{Crypto} {S : Type} `{IStorage S}.
Variable USE_JWT_AUTH : bool.

(** [POST /api/register].  In session mode [req.login] stores the user id
    in the session; the session is not part of the model.  What
    [createUser] throws goes to [next]. *)
Definition register (id : string) (now : Date) (saltBytes : list byte)
    (body : InsertUser.t) (st : S) : Outcome * S :=
  match getUserByUsername (InsertUser.username body) st with
  | Some _ => (Sent (json_error 400 "Username already exists"), st)
  | None =>
      match getUserByEmail (InsertUser.email body) st with
      | Some _ => (Sent (json_error 400 "Email already exists"), st)
      | None =>
          match
            createUser id now
              (InsertUser.mk (InsertUser.username body)
                 (hashPassword saltBytes (InsertUser.password body))
                 (InsertUser.email body) (InsertUser.role body)
                 (InsertUser.plan body) (InsertUser.language body)) st
          with
          | inl error => (Next error, st)
          | inr (user, st') =>
              let token :=
                if USE_JWT_AUTH then Some (jwt_sign (User.id user) now) else None in
              (Sent (mkResponse 201 (BUser (without_password user) token)), st')
          end
      end
  end.

(** [POST /api/login]. *)
Definition login (now : Date) (username password : string) (st : S) : Outcome :=
  match getUserByUsername username st with
  | None => Sent (json_error 401 "Invalid credentials")
  | Some user =>
      match comparePasswords password (User.password user) with
      | inl error => Next error
      | inr false => Sent (json_error 401 "Invalid credentials")
      | inr true =>
          let token :=
            if USE_JWT_AUTH then Some (jwt_sign (User.id user) now) else None in
          Sent (mkResponse 200 (BUser (without_password user) token))
      end
  end.

End Auth.

(** ** lib/openrouter.ts *)

Inductive ContentPart :=
| TextPart (text : string)
| ImageUrlPart (url : string).

Inductive MessageContent :=
| Text (content : string)
| Parts (content : list ContentPart).

Record ChatMessage := mkChatMessage { msg_role : string; msg_content : MessageContent }.

Record ChatCompletionRequest := mkChatCompletionRequest {
  model : string;
  messages : list ChatMessage;
  response_format_json : bool;
  max_tokens : Z }.

Definition OPENROUTER_MODELS_CHAT : string := "anthropic/claude-3.5-sonnet".
Definition OPENROUTER_MODELS_VISION : string := "anthropic/claude-3.5-sonnet".
Definition OPENROUTER_MODELS_REASONING : string := "anthropic/claude-3.5-sonnet".

(** The completion the gateway answers with: [choices[i].message.content]. *)
Record ChatCompletion := mkChatCompletion { choices : list (option string) }.

(** What [fetch] resolves to: the status, [response.text()] and
    [response.json()]. *)
Record FetchResponse := mkFetchResponse {
  fetch_status : Z;
  fetch_text : string;
  fetch_json : ChatCompletion }.

(** [response.ok]. *)
Definition fetch_ok (r : FetchResponse) : bool :=
  (200 <=? fetch_status r) && (fetch_status r <=? 299).

(** [OpenRouterClient.chat], given the answer of the gateway. *)
Definition chat (response : FetchResponse) : string + ChatCompletion :=
  if fetch_ok response then inr (fetch_json response)
  else inl ("OpenRouter API error: " +:+ pretty (fetch_status response) +:+ " - "
            +:+ fetch_text response).

(** [createOpenRouterClient]: the client is its API key. *)
Definition createOpenRouterClient (OPENROUTER_API_KEY : option string) : string + string :=
  match OPENROUTER_API_KEY with
  | Some apiKey =>
      if truthy_string apiKey then inr apiKey
      else inl "OPENROUTER_API_KEY environment variable is not set"
  | None => inl "OPENROUTER_API_KEY environment variable is not set"
  end.

(** [response.choices[0].message.content]. *)
Definition first_choice (c : ChatCompletion) : string + option string :=
  match choices c with
  | m :: _ => inr m
  | [] => inl "TypeError: Cannot read properties of undefined"
  end.

(** ** zod schemas of the request bodies

    [parse] returns the typed body or throws a [ZodError]; the text of the
    issue list it reports is not modelled.  Numbers are integers. *)
Definition ZodError : string := "ZodError".

Definition z_string (j : option json) : string + string :=
  match j with
  | Some (JStr s) => inr s
  | _ => inl ZodError
  end.

Definition z_array_string (j : option json) : string + list string :=
  match j with
  | Some (JArr items) => mapM (λ i, z_string (Some i)) items
  | _ => inl ZodError
  end.

Definition z_object (j : json) : string + list (string * json) :=
  match j with
  | JObj fields => inr fields
  | _ => inl ZodError
  end.

(** [z.record(z.string())]: every value is validated, and the result is
    an object literal that receives every pair except one under the key
    [__proto__]. *)
Definition z_record_string (j : option json) : string + gmap string string :=
  match j with
  | Some (JObj fields) =>
      kvs ← mapM (λ kv, v ← z_string (Some kv.2); mret (kv.1, v)) fields;
      mret (list_to_map (filter (λ kv, kv.1 ≠ "__proto__") kvs))
  | _ => inl ZodError
  end.

(** [z.enum(["easy", "medium", "hard"]).default("medium")]. *)
Definition z_difficulty (j : option json) : string + string :=
  match j with
  | None => inr "medium"
  | Some (JStr s) =>
      if bool_decide (s ∈ ["easy"; "medium"; "hard"]) then inr s else inl ZodError
  | Some _ => inl ZodError
  end.

(** [z.number().min(1).max(50).default(10)]. *)
Definition z_numQuestions (j : option json) : string + Z :=
  match j with
  | None => inr 10
  | Some (JNum n) => if (1 <=? n) && (n <=? 50) then inr n else inl ZodError
  | Some _ => inl ZodError
  end.

Record GenerateQuizBody := mkGenerateQuizBody {
  gq_materialIds : list string; gq_topic : string; gq_difficulty : string;
  gq_numQuestions : Z }.

Definition parse_generate_quiz (body : json) : string + GenerateQuizBody :=
  fields ← z_object body;
  materialIds ← z_array_string (obj_get "materialIds" fields);
  topic ← z_string (obj_get "topic" fields);
  difficulty ← z_difficulty (obj_get "difficulty" fields);
  numQuestions ← z_numQuestions (obj_get "numQuestions" fields);
  mret (mkGenerateQuizBody materialIds topic difficulty numQuestions).

Definition parse_generate_mindmap (body : json) : string + (list string * string) :=
  fields ← z_object body;
  materialIds ← z_array_string (obj_get "materialIds" fields);
  topic ← z_string (obj_get "topic" fields);
  mret (materialIds, topic).

Definition z_string_optional (j : option json) : string + option string :=
  match j with
  | None => inr None
  | Some j => t ← z_string (Some j); mret (Some t)
  end.

(** [{ language: z.string().optional(), plan: z.string().optional() }]. *)
Definition parse_profile_update (body : json) : string + PartialUser.t :=
  fields ← z_object body;
  language ← z_string_optional (obj_get "language" fields);
  plan ← z_string_optional (obj_get "plan" fields);
  mret (PartialUser.mk None None None None None plan language None).

(** [{ content: z.string(), materialIds: z.array(z.string()).optional() }]. *)
Definition parse_message (body : json) : string + (string * option (list string)) :=
  fields ← z_object body;
  content ← z_string (obj_get "content" fields);
  materialIds ← match obj_get "materialIds" fields with
                 | None => inr None
                 | Some j => ids ← z_array_string (Some j); mret (Some ids)
                 end;
  mret (content, materialIds).

Definition parse_attempt (body : json) : string + gmap string string :=
  fields ← z_object body;
  z_record_string (obj_get "answers" fields).

(** [{ title: z.string().optional(), nodes: z.any().optional() }]; keys
    the schema does not name are stripped. *)
Definition parse_mindmap_update (body : json) : string + PartialMindMap.t :=
  fields ← z_object body;
  title ← z_string_optional (obj_get "title" fields);
  mret (PartialMindMap.mk None None title (obj_get "nodes" fields) None None None).

(** ** server/routes.ts *)

(** The line feed of the template literals. *)
Definition nl : string := String "010"%char "".

(** [req.userId] as [requireAuth] leaves it; a handler that starts with
    [if (!req.userId)] answers 401 unless it is a non-empty string. *)
Definition authenticated (userId : option string) : option string :=
  match userId with
  | Some u => if truthy_string u then Some u else None
  | None => None
  end.

(** The template [`${m.filename}: ${m.content}`]. *)
Definition material_line (m : Material.t) : string :=
  Material.filename m +:+ ": " +:+ default "null" (Material.content m).

(** [req.file] of multer, with what [fs.readFileSync(path, enc)] reads
    from it in the two encodings and what [fs.unlinkSync(path)] throws, if
    it throws. *)
Record UploadedFile := mkUploadedFile {
  originalname : string; mimetype : string; size : Z; path : string;
  read_utf8 : string; read_base64 : string; unlink_error : option string }.

Definition vision_request (mimetype base64Image : string) : ChatCompletionRequest :=
  mkChatCompletionRequest OPENROUTER_MODELS_VISION
    [mkChatMessage "user"
       (Parts [TextPart "Analyze this image and extract any text, equations, diagrams, or educational content. Describe what you see in detail.";
               ImageUrlPart ("data:" +:+ mimetype +:+ ";base64," +:+ base64Image)])]
    false 2048.

(** The capture group of
    [/(?:youtube\.com\/watch\?v=|youtu\.be\/)([^&\n?#]+)/]. *)
Fixpoint strip_prefix (p s : string) : option string :=
  match p, s with
  | EmptyString, _ => Some s
  | String a p', String b s' => if decide (a = b) then strip_prefix p' s' else None
  | String _ _, EmptyString => None
  end.

Fixpoint take_id (s : string) : string :=
  match s with
  | EmptyString => ""
  | String c rest =>
      if bool_decide (c ∈ ["&"; "010"; "?"; "#"]%char) then ""
      else String c (take_id rest)
  end.

Definition video_id_at (s : string) : option string :=
  let capture rest :=
    let v := take_id rest in if truthy_string v then Some v else None in
  match strip_prefix "youtube.com/watch?v=" s ≫= capture with
  | Some v => Some v
  | None => strip_prefix "youtu.be/" s ≫= capture
  end.

Fixpoint match_video_id (url : string) : option string :=
  match video_id_at url with
  | Some v => Some v
  | None =>
      match url with
      | EmptyString => None
      | String _ rest => match_video_id rest
      end
  end.

(** One question of the quiz graded against the submitted answers:
    [userAnswer === q.correctAnswer].  [answers] is the object
    [z.record(z.string())] returns; a key it lacks reads what the
    prototype has under it, or [undefined].  A member of the prototype is
    identical to no value of the quiz. *)
Definition strict_equal (userAnswer : option Property) (correctAnswer : option json)
  : bool :=
  match userAnswer, correctAnswer with
  | None, None => true
  | Some (Own a), Some (JStr c) => bool_decide (a = c)
  | _, _ => false
  end.

Definition grade (answers : gmap string string) (q : json) : string + AttemptResult.t :=
  questionId ← get_prop "id" q;
  let userAnswer := object_get answers (to_property_key questionId) in
  correctAnswer ← get_prop "correctAnswer" q;
  let isCorrect := strict_equal userAnswer correctAnswer in
  explanation ← get_prop "explanation" q;
  mret (AttemptResult.mk questionId userAnswer correctAnswer isCorrect explanation).

(** [questions.map(...)] on the stored [jsonb] value. *)
Definition grade_all (answers : gmap string string) (questions : json)
  : string + list AttemptResult.t :=
  match questions with
  | JArr items => mapM (grade answers) items
  | JNull => inl "TypeError: Cannot read properties of null"
  | _ => inl "TypeError: questions.map is not a function"
  end.

(** [questions.length]. *)
Definition array_length (questions : json) : nat :=
  match questions with
  | JArr items => length items
  | _ => 0%nat
  end.

(** The value of the counter [correct] after the [map]. *)
Definition count_correct (results : list AttemptResult.t) : nat :=
  length (filter (λ r, AttemptResult.isCorrect r = true) results).

(** What a [jsonb] column or a JSON response keeps of [results]:
    properties that are [undefined] are left out. *)
Definition result_to_json (r : AttemptResult.t) : json :=
  let opt k v := match v with Some j => [(k, j)] | None => [] end in
  JObj (opt "questionId" (AttemptResult.questionId r)
        ++ opt "userAnswer" (AttemptResult.userAnswer r ≫= property_to_json)
        ++ opt "correctAnswer" (AttemptResult.correctAnswer r)
        ++ [("isCorrect", JBool (AttemptResult.isCorrect r))]
        ++ opt "explanation" (AttemptResult.explanation r)).

Section Routes.
Context {S : Type} `{IStorage S}.

(** The environment of a request: the API key of the process, the answer
    of the gateway to a completion request, [JSON.parse] ([None] when it
    throws a [SyntaxError]), the URL test of [z.string().url()], and the
    prompt templates (of the quiz, of the mind map, and the system prompt
    of the chat around the material context), whose fixed text plays no
    role below. *)
Variable OPENROUTER_API_KEY : option string.
Variable fetch : ChatCompletionRequest → FetchResponse.
Variable JSON_parse : string → option json.
Variable is_url : string → bool.
Variable quiz_prompt : Z → string → string → string → string.
Variable mindmap_prompt : string → string → string.
Variable system_prompt : string → string.

Definition parse_json (text : string) : string + json :=
  match JSON_parse text with
  | Some j => inr j
  | None => inl "SyntaxError: Unexpected token in JSON"
  end.

(** [PUT /api/users/profile]. *)
Definition put_users_profile (userId : option string) (body : json) (st : S)
  : Response * S :=
  match authenticated userId with
  | None => (json_error 401 "User ID missing", st)
  | Some uid =>
      match parse_profile_update body with
      | inl error => (json_error 400 error, st)
      | inr updates =>
          match updateUser uid updates st with
          | inl error => (json_error 400 error, st)
          | inr (Some user, st') =>
              (mkResponse 200 (BUser (without_password user) None), st')
          | inr (None, st') => (json_error 404 "User not found", st')
          end
      end
  end.

(** The content-type dispatch of [POST /api/materials/upload]: the
    extracted content and the type tag. *)
Definition extract_content (file : UploadedFile) : string + (string * string) :=
  if String.prefix "text/" (mimetype file) then inr (read_utf8 file, "text")
  else if decide (mimetype file = "application/pdf") then inr ("", "pdf")
  else if String.prefix "image/" (mimetype file) then
    _ ← createOpenRouterClient OPENROUTER_API_KEY;
    visionResponse ← chat (fetch (vision_request (mimetype file) (read_base64 file)));
    content ← first_choice visionResponse;
    mret (or_default content "", "image")
  else inr ("", "file").

(** [POST /api/materials/upload].  The uploaded file is unlinked after the
    material is stored and before the response: an error there is answered
    500 with the material in the store. *)
Definition post_materials_upload (userId : option string) (file : option UploadedFile)
    (id : string) (now : Date) (st : S) : Response * S :=
  match authenticated userId with
  | None => (json_error 401 "User ID missing", st)
  | Some uid =>
      match file with
      | None => (json_error 400 "No file uploaded", st)
      | Some f =>
          match extract_content f with
          | inl error => (json_error 500 error, st)
          | inr (content, type) =>
              let materialData :=
                InsertMaterial.mk (originalname f) type (Some content)
                  (Some (JObj [("size", JNum (size f)); ("mimetype", JStr (mimetype f))]))
                  uid in
              match createMaterial id now materialData st with
              | inl error => (json_error 500 error, st)
              | inr (material, st') =>
                  match unlink_error f with
                  | Some error => (json_error 500 error, st')
                  | None => (mkResponse 200 (BMaterial material), st')
                  end
              end
          end
      end
  end.

Definition post_materials_youtube (userId : option string) (body : json)
    (id : string) (now : Date) (st : S) : Response * S :=
  match authenticated userId with
  | None => (json_error 401 "User ID missing", st)
  | Some uid =>
      let parsed :=
        fields ← z_object body;
        url ← z_string (obj_get "url" fields);
        if is_url url then inr url else inl ZodError in
      match parsed with
      | inl error => (json_error 400 error, st)
      | inr url =>
          match match_video_id url with
          | None => (json_error 400 "Invalid YouTube URL", st)
          | Some videoId =>
              let content :=
                "YouTube video: " +:+ url +:+ nl +:+ "Video ID: " +:+ videoId +:+ nl
                +:+ "Transcript extraction would be implemented here." in
              let materialData :=
                InsertMaterial.mk ("YouTube Video - " +:+ videoId) "youtube" (Some content)
                  (Some (JObj [("url", JStr url); ("videoId", JStr videoId)])) uid in
              match createMaterial id now materialData st with
              | inl error => (json_error 400 error, st)
              | inr (material, st') => (mkResponse 200 (BMaterial material), st')
              end
          end
      end
  end.

Definition delete_material (userId : option string) (id : string) (st : S)
  : Response * S :=
  match getMaterial id st with
  | Some material =>
      if decide (Some (Material.userId material) = userId) then
        let '(_, st') := deleteMaterial id st in (mkResponse 200 BSuccess, st')
      else (json_error 404 "Material not found", st)
  | None => (json_error 404 "Material not found", st)
  end.

Definition get_conversation_messages (userId : option string) (id : string) (st : S)
  : Response :=
  match getConversation id st with
  | Some conversation =>
      if decide (Some (Conversation.userId conversation) = userId) then
        mkResponse 200 (BMessages (getMessagesByConversation id st))
      else json_error 404 "Conversation not found"
  | None => json_error 404 "Conversation not found"
  end.

Definition chat_request (systemPrompt content : string) : ChatCompletionRequest :=
  mkChatCompletionRequest OPENROUTER_MODELS_CHAT
    [mkChatMessage "system" (Text systemPrompt); mkChatMessage "user" (Text content)]
    false 2048.

(** [POST /api/conversations/:id/messages].  The user message is stored
    before the model is asked; a failure after that leaves it stored. *)
Definition post_conversation_message (userId : option string) (id : string) (body : json)
    (userMessageId assistantMessageId : string) (now later : Date) (st : S)
  : Response * S :=
  match parse_message body with
  | inl error => (json_error 400 error, st)
  | inr (content, materialIds) =>
      match getConversation id st with
      | Some conversation =>
          if decide (Some (Conversation.userId conversation) = userId) then
            let ids := (λ l, JArr (JStr <$> l)) <$> materialIds in
            match
              createMessage userMessageId now
                (InsertMessage.mk id "user" content None ids) st
            with
            | inl error => (json_error 400 error, st)
            | inr (userMessage, st1) =>
                let context :=
                  match materialIds with
                  | Some (i :: l) =>
                      join_with (nl +:+ nl)
                        (material_line <$> omap (λ id, getMaterial id st1) (i :: l))
                  | _ => ""
                  end in
                let answer :=
                  _ ← createOpenRouterClient OPENROUTER_API_KEY;
                  aiResponse ← chat (fetch (chat_request (system_prompt context) content));
                  first_choice aiResponse in
                match answer with
                | inl error => (json_error 400 error, st1)
                | inr text =>
                    match
                      createMessage assistantMessageId later
                        (InsertMessage.mk id "assistant"
                           (or_default text
                              "I apologize, but I couldn't generate a response.")
                           None ids) st1
                    with
                    | inl error => (json_error 400 error, st1)
                    | inr (assistantMessage, st2) =>
                        (mkResponse 200 (BMessagePair userMessage assistantMessage), st2)
                    end
                end
            end
          else (json_error 404 "Conversation not found", st)
      | None => (json_error 404 "Conversation not found", st)
      end
  end.

Definition put_mindmap (userId : option string) (id : string) (body : json)
    (now : Date) (st : S) : Response * S :=
  match parse_mindmap_update body with
  | inl error => (json_error 400 error, st)
  | inr updates =>
      match getMindMap id st with
      | Some mindMap =>
          if decide (Some (MindMap.userId mindMap) = userId) then
            match updateMindMap id now updates st with
            | inl error => (json_error 400 error, st)
            | inr (updatedMindMap, st') => (mkResponse 200 (BMindMap updatedMindMap), st')
            end
          else (json_error 404 "Mind map not found", st)
      | None => (json_error 404 "Mind map not found", st)
      end
  end.

(** The content handed to the model: the materials that exist, whoever
    owns them, one per paragraph. *)
Definition materials_content (materialIds : list string) (st : S) : string :=
  join_with (nl +:+ nl) (material_line <$> omap (λ id, getMaterial id st) materialIds).

Definition reasoning_request (prompt : string) : ChatCompletionRequest :=
  mkChatCompletionRequest OPENROUTER_MODELS_REASONING
    [mkChatMessage "user" (Text prompt)] true 2048.

(** The body of the [try] block of [POST /api/quizzes/generate] up to the
    storage write. *)
Definition generate_quiz_data (uid : string) (body : json) (st : S)
  : string + InsertQuiz.t :=
  b ← parse_generate_quiz body;
  let content := materials_content (gq_materialIds b) st in
  let prompt := quiz_prompt (gq_numQuestions b) (gq_difficulty b) (gq_topic b) content in
  _ ← createOpenRouterClient OPENROUTER_API_KEY;
  aiResponse ← chat (fetch (reasoning_request prompt));
  text ← first_choice aiResponse;
  quizData ← parse_json (or_default text "{}");
  questions ← get_prop "questions" quizData;
  mret (InsertQuiz.mk (gq_topic b +:+ " - Quiz")
          (default (JArr []) (or_null truthy questions))
          (Some (JArr (JStr <$> gq_materialIds b)))
          (OValue (gq_difficulty b)) uid).

Definition post_quizzes_generate (userId : option string) (body : json)
    (id : string) (now : Date) (st : S) : Response * S :=
  match authenticated userId with
  | None => (json_error 401 "User ID missing", st)
  | Some uid =>
      match generate_quiz_data uid body st with
      | inl error => (json_error 400 error, st)
      | inr quizData =>
          match createQuiz id now quizData st with
          | inl error => (json_error 400 error, st)
          | inr (quiz, st') => (mkResponse 200 (BQuiz quiz), st')
          end
      end
  end.

Definition generate_mindmap_data (uid : string) (body : json) (st : S)
  : string + InsertMindMap.t :=
  b ← parse_generate_mindmap body;
  let content := materials_content b.1 st in
  let prompt := mindmap_prompt b.2 content in
  _ ← createOpenRouterClient OPENROUTER_API_KEY;
  aiResponse ← chat (fetch (reasoning_request prompt));
  text ← first_choice aiResponse;
  mindMapStructure ← parse_json (or_default text "{}");
  mret (InsertMindMap.mk (b.2 +:+ " - Mind Map") mindMapStructure
          (Some (JArr (JStr <$> b.1))) uid).

Definition post_mindmaps_generate (userId : option string) (body : json)
    (id : string) (now : Date) (st : S) : Response * S :=
  match authenticated userId with
  | None => (json_error 401 "User ID missing", st)
  | Some uid =>
      match generate_mindmap_data uid body st with
      | inl error => (json_error 400 error, st)
      | inr mindMapData =>
          match createMindMap id now mindMapData st with
          | inl error => (json_error 400 error, st)
          | inr (mindMap, st') => (mkResponse 200 (BMindMap (Some mindMap)), st')
          end
      end
  end.

Definition post_quiz_attempt (userId : option string) (id : string) (body : json)
    (attemptId : string) (now : Date) (st : S) : Response * S :=
  match authenticated userId with
  | None => (json_error 401 "User ID missing", st)
  | Some uid =>
      match parse_attempt body with
      | inl error => (json_error 400 error, st)
      | inr answers =>
          match getQuiz id st with
          | None => (json_error 404 "Quiz not found", st)
          | Some quiz =>
              match grade_all answers (Quiz.questions quiz) with
              | inl error => (json_error 400 error, st)
              | inr results =>
                  let correct := count_correct results in
                  match
                    createQuizAttempt attemptId now
                      (InsertQuizAttempt.mk id (JArr (result_to_json <$> results))
                         correct (array_length (Quiz.questions quiz)) uid) st
                  with
                  | inl error => (json_error 400 error, st)
                  | inr (attempt, st') => (mkResponse 200 (BAttempt attempt results), st')
                  end
              end
          end
      end
  end.

End Routes.

(** ** Quiz questions as the application declares them

    [interface QuizQuestion] of the client (quiz-generator.tsx), which is
    also the shape the generation prompt asks the model for.  The server
    stores the questions as untyped [jsonb]; [question_to_json] is such a
    question as it sits in the column. *)
Module QuizQuestion.
Record t := mk {
  id : string; type : string; question : string; options : option (list string);
  correctAnswer : string; explanation : string }.
End QuizQuestion.

Definition question_to_json (q : QuizQuestion.t) : json :=
  JObj ([("id", JStr (QuizQuestion.id q)); ("type", JStr (QuizQuestion.type q));
         ("question", JStr (QuizQuestion.question q))]
        ++ match QuizQuestion.options q with
           | Some opts => [("options", JArr (JStr <$> opts))]
           | None => []
           end
        ++ [("correctAnswer", JStr (QuizQuestion.correctAnswer q));
            ("explanation", JStr (QuizQuestion.explanation q))]).

(** A stored question that reads as [q]: its [id] and its
    [correctAnswer] are the strings of [q], whatever the order of its keys
    and whatever else it holds. *)
Definition reads_as (j : json) (q : QuizQuestion.t) : Prop :=
  get_prop "id" j = inr (Some (JStr (QuizQuestion.id q))) ∧
  get_prop "correctAnswer" j = inr (Some (JStr (QuizQuestion.correctAnswer q))).

(** The number of questions answered with exactly the correct answer. *)
Definition correct_answers (answers : gmap string string) (qs : list QuizQuestion.t) : nat :=
  length (filter (λ q, answers !! QuizQuestion.id q = Some (QuizQuestion.correctAnswer q)) qs).

(** The same count without a question whose id is [__proto__]. *)
Definition correct_answers_but_proto (answers : gmap string string)
    (qs : list QuizQuestion.t) : nat :=
  length (filter (λ q, QuizQuestion.id q ≠ "__proto__" ∧
                       answers !! QuizQuestion.id q = Some (QuizQuestion.correctAnswer q))
            qs).

(** The request body [{ answers }] of an attempt, and the object the
    handler reads the answers from. *)
Definition attempt_body (answers : list (string * string)) : json :=
  JObj [("answers", JObj ((λ kv, (kv.1, JStr kv.2)) <$> answers))].

Definition parsed_answers (answers : list (string * string)) : gmap string string :=
  list_to_map (filter (λ kv, kv.1 ≠ "__proto__") answers).

(** The type tags the schema documents for a material. *)
Definition material_types : list string := ["pdf"; "image"; "video"; "youtube"; "text"].

Definition same_credentials (u u' : User.t) : Prop :=
  User.username u = User.username u' ∧ User.password u = User.password u'.

(** Every stored password has the form [hashPassword] gives it. *)
Definition users_hashed `{Crypto} {S} `{IStorage S} (st : S) : Prop :=
  ∀ username user, getUserByUsername username st = Some user →
    ∃ saltBytes password, User.password user = hashPassword saltBytes password.

(** Every row of the users table holds such a password. *)
Definition passwords_hashed `{Crypto} (users : list User.t) : Prop :=
  Forall (λ user, ∃ saltBytes password, User.password user = hashPassword saltBytes password)
    users.

(** A column after an update: the supplied value if the key was present,
    the stored one otherwise. *)
Definition applied {A} (upd : option A) (old new : A) : Prop :=
  match upd with
  | Some v => new = v
  | None => new = old
  end.

(** [new] is [old] with exactly the supplied fields replaced and
    [updatedAt] refreshed to [now]. *)
Definition mindMap_updated (now : Date) (updates : PartialMindMap.t)
    (old new : MindMap.t) : Prop :=
  MindMap.updatedAt new = now ∧
  applied (PartialMindMap.id updates) (MindMap.id old) (MindMap.id new) ∧
  applied (PartialMindMap.userId updates) (MindMap.userId old) (MindMap.userId new) ∧
  applied (PartialMindMap.title updates) (MindMap.title old) (MindMap.title new) ∧
  applied (PartialMindMap.nodes updates) (MindMap.nodes old) (MindMap.nodes new) ∧
  applied (PartialMindMap.materialIds updates) (MindMap.materialIds old)
    (MindMap.materialIds new) ∧
  applied (PartialMindMap.createdAt updates) (MindMap.createdAt old)
    (MindMap.createdAt new).

(** The update as the database holds it: JSON values in their [jsonb]
    form. *)
Definition as_stored (updates : PartialMindMap.t) : PartialMindMap.t :=
  PartialMindMap.mk (PartialMindMap.id updates) (PartialMindMap.userId updates)
    (PartialMindMap.title updates) (jsonb <$> PartialMindMap.nodes updates)
    (DatabaseStorage.jsonb_nullable <$> PartialMindMap.materialIds updates)
    (PartialMindMap.createdAt updates) (PartialMindMap.updatedAt updates).

(** The entry of [results] for a question that reads as [q]: it names
    the question and its correct answer, carries what [answers[q.id]] read,
    and is marked correct when the answers object holds the correct answer
    under the id. *)
Definition graded_as (answers : gmap string string) (q : QuizQuestion.t)
    (r : AttemptResult.t) : Prop :=
  AttemptResult.questionId r = Some (JStr (QuizQuestion.id q)) ∧
  AttemptResult.userAnswer r = object_get answers (QuizQuestion.id q) ∧
  AttemptResult.correctAnswer r = Some (JStr (QuizQuestion.correctAnswer q)) ∧
  AttemptResult.isCorrect r
  = bool_decide (answers !! QuizQuestion.id q = Some (QuizQuestion.correctAnswer q)).

(** What a successful attempt submission leaves behind: a 200 response
    carrying the results and the attempt, whose score counts the questions,
    other than one with the id [__proto__], that the submitted answers get
    right, whose total is the number of questions, and the same attempt in
    the store. *)
Definition attempt_recorded {S} `{IStorage S} (submitted : list (string * string))
    (qs : list QuizQuestion.t) (outcome : Response * S) : Prop :=
  ∃ attempt results,
    outcome.1 = mkResponse 200 (BAttempt attempt results) ∧
    Forall2 (graded_as (parsed_answers submitted)) qs results ∧
    QuizAttempt.score attempt = correct_answers_but_proto (list_to_map submitted) qs ∧
    QuizAttempt.totalQuestions attempt = length qs ∧
    getQuizAttempt (QuizAttempt.id attempt) outcome.2 = Some attempt ∧
    (Forall (λ q, (list_to_map submitted : gmap string string) !! QuizQuestion.id q
                  ≠ Some (QuizQuestion.correctAnswer q)) qs →
     QuizAttempt.score attempt = 0%nat).

(** ** Sample data

    A stand-in key derivation (the password and salt bytes, zero-padded
    to the key length) and small stores on which the statements below are
    run. *)
Definition sample_scrypt (password salt : string) (keylen : nat) : list byte :=
  take keylen (String.list_byte_of_string (password +:+ salt) ++ replicate keylen x00).

Definition sample_crypto : Crypto.
Proof.
  refine {| scrypt := sample_scrypt; jwt_sign := λ userId _, "token-" +:+ userId |}.
  intros password salt keylen. unfold sample_scrypt.
  rewrite length_take, length_app, length_replicate. lia.
Defined.

(** The store a write leaves: the new one, or the old one when it threw. *)
Definition store_after {A S : Type} (st : S) (outcome : string + (A * S)) : S :=
  match outcome with
  | inr (_, st') => st'
  | inl _ => st
  end.

Definition alice : InsertUser.t :=
  InsertUser.mk "alice" "s3cret" "alice@example.org" None OUndefined OUndefined.

Definition bob : InsertUser.t :=
  InsertUser.mk "bob" "hunter2" "bob@example.org" None OUndefined OUndefined.

(** Either store after alice and bob registered in session mode; their
    user ids are ["alice"] and ["bob"]. *)
Definition mem_people : MemStorage.t :=
  let st := (register (H:=sample_crypto) false "alice" 1000 [x3a; x07] alice
               MemStorage.empty).2 in
  (register (H:=sample_crypto) false "bob" 1001 [x5c; xe1] bob st).2.

Definition db_people : DatabaseStorage.t :=
  let st := (register (H:=sample_crypto) false "alice" 1000 [x3a; x07] alice
               DatabaseStorage.empty).2 in
  (register (H:=sample_crypto) false "bob" 1001 [x5c; xe1] bob st).2.

Definition q1 : QuizQuestion.t :=
  QuizQuestion.mk "q1" "multiple_choice" "Which organelle makes most of the ATP?"
    (Some ["A) Mitochondrion"; "B) Ribosome"; "C) Nucleus"; "D) Vacuole"]) "A"
    "Oxidative phosphorylation takes place in the mitochondrion.".

Definition q2 : QuizQuestion.t :=
  QuizQuestion.mk "q2" "multiple_choice" "Where does photosynthesis take place?"
    (Some ["A) Nucleus"; "B) Chloroplast"; "C) Cytosol"; "D) Golgi body"]) "B"
    "Chloroplasts hold the light-harvesting pigments.".

(** A quiz of two questions that belongs to alice, in either store. *)
Definition cells_quiz : InsertQuiz.t :=
  InsertQuiz.mk "Cells - Quiz" (JArr (question_to_json <$> [q1; q2])) None
    (OValue "medium") "alice".

Definition mem_with_quiz : MemStorage.t :=
  (MemStorage.createQuiz "quiz-1" 1000 cells_quiz mem_people).2.

Definition db_with_quiz : DatabaseStorage.t :=
  store_after db_people (DatabaseStorage.createQuiz "quiz-1" 1000 cells_quiz db_people).

Definition stored_cells_quiz : Quiz.t :=
  (MemStorage.createQuiz "quiz-1" 1000 cells_quiz mem_people).1.

Definition db_stored_cells_quiz : Quiz.t :=
  default stored_cells_quiz (getQuiz "quiz-1" db_with_quiz).

(** Answers that get [q1] right and [q2] wrong. *)
Definition one_right : list (string * string) := [("q1", "A"); ("q2", "C")].

(** A quiz of alice whose one question has the id [__proto__], and the
    submission that answers it as the quiz has it. *)
Definition proto_question : QuizQuestion.t :=
  QuizQuestion.mk "__proto__" "true_false" "Every object has a prototype." None "A"
    "Objects made with Object.create(null) have none.".

Definition proto_quiz : InsertQuiz.t :=
  InsertQuiz.mk "Prototypes - Quiz" (JArr [question_to_json proto_question]) None
    (OValue "medium") "alice".

Definition mem_with_proto_quiz : MemStorage.t :=
  (MemStorage.createQuiz "quiz-2" 1000 proto_quiz mem_people).2.

Definition proto_right : list (string * string) := [("__proto__", "A")].

(** A quiz of alice whose one question names no correct answer. *)
Definition bare_quiz : InsertQuiz.t :=
  InsertQuiz.mk "Bare - Quiz" (JArr [JObj [("id", JStr "q1")]]) None (OValue "medium")
    "alice".

Definition mem_with_bare_quiz : MemStorage.t :=
  (MemStorage.createQuiz "quiz-3" 1000 bare_quiz mem_people).2.

(** A gateway that is down, and one that answers with the given text. *)
Definition gateway_down (_ : ChatCompletionRequest) : FetchResponse :=
  mkFetchResponse 502 "Bad Gateway" (mkChatCompletion []).

Definition gateway_says (text : string) (_ : ChatCompletionRequest) : FetchResponse :=
  mkFetchResponse 200 "" (mkChatCompletion [Some text]).

(** A parser that knows the empty object only. *)
Definition sample_parse (text : string) : option json :=
  if decide (text = "{}") then Some (JObj []) else None.

Definition sample_quiz_prompt (numQuestions : Z) (difficulty topic content : string)
  : string :=
  "Generate " +:+ pretty numQuestions +:+ " " +:+ difficulty
  +:+ " level quiz questions about " +:+ topic +:+ nl +:+ content.

Definition sample_mindmap_prompt (topic content : string) : string :=
  "Create a mind map structure for the topic " +:+ topic +:+ nl +:+ content.

Definition generate_body : json :=
  JObj [("materialIds", JArr []); ("topic", JStr "cells")].

(** Uploads: a plain-text file, an empty PDF and a video. *)
Definition notes_txt : UploadedFile :=
  mkUploadedFile "notes.txt" "text/plain" 39 "/tmp/upload-1"
    "photosynthesis converts light to energy"
    "cGhvdG9zeW50aGVzaXMgY29udmVydHMgbGlnaHQgdG8gZW5lcmd5" None.

Definition scan_pdf : UploadedFile :=
  mkUploadedFile "scan.pdf" "application/pdf" 2048 "/tmp/upload-2" "%PDF-1.4" "JVBERi0xLjQ="
    None.

(** The same text in a file that cannot be removed. *)
Definition locked_txt : UploadedFile :=
  mkUploadedFile "notes.txt" "text/plain" 39 "/tmp/upload-1"
    "photosynthesis converts light to energy"
    "cGhvdG9zeW50aGVzaXMgY29udmVydHMgbGlnaHQgdG8gZW5lcmd5"
    (Some "EPERM: operation not permitted, unlink '/tmp/upload-1'").

Definition lecture_mp4 : UploadedFile :=
  mkUploadedFile "lecture.mp4" "video/mp4" 4096 "/tmp/upload-3" "" "AAAAIGZ0eXBpc29t" None.

(** A mind map of alice and an update of its title. *)
Definition cells_map : InsertMindMap.t :=
  InsertMindMap.mk "Cells - Mind Map" (JObj [("nodes", JArr []); ("connections", JArr [])])
    None "alice".

Definition mem_with_map : MemStorage.t :=
  (MemStorage.createMindMap "map-1" 1000 cells_map mem_people).2.

Definition db_with_map : DatabaseStorage.t :=
  store_after db_people (DatabaseStorage.createMindMap "map-1" 1000 cells_map db_people).

Definition stored_cells_map : MindMap.t :=
  (MemStorage.createMindMap "map-1" 1000 cells_map mem_people).1.

Definition retitle : PartialMindMap.t :=
  PartialMindMap.mk None None (Some "Cell biology") None None None None.

(** The update of the body [{ "nodes": null }]. *)
Definition null_nodes : PartialMindMap.t :=
  PartialMindMap.mk None None None (Some JNull) None None None.

(** What the upload handler hands to [createMaterial] for [scan_pdf]
    uploaded by alice. *)
Definition scan_pdf_data : InsertMaterial.t :=
  InsertMaterial.mk "scan.pdf" "pdf" (Some "")
    (Some (JObj [("size", JNum 2048); ("mimetype", JStr "application/pdf")])) "alice".

(** A store in which a password was written without [hashPassword]. *)
Definition store_with_plain_password : MemStorage.t :=
  (MemStorage.createUser "user-9" 1000
     (InsertUser.mk "eve" "letmein" "eve@example.org" None OUndefined OUndefined)
     MemStorage.empty).2.

(** ** Vocabulary of the further properties *)

(** No two stored users share a user name, or an e-mail address. *)
Definition usernames_unique (users : list User.t) : Prop :=
  NoDup (User.username <$> users).

Definition emails_unique (users : list User.t) : Prop :=
  NoDup (User.email <$> users).

(** Ascending timestamps. *)
Definition by_timestamp (a b : Message.t) : Prop :=
  Message.timestamp a ≤ Message.timestamp b.

(** An optional value on which [x || null] and the column default agree:
    absent, or present and truthy. *)
Definition plain_string (x : option string) : Prop := x ≠ Some "".

Definition plain_json (x : option json) : Prop :=
  match x with
  | Some j => truthy j = true
  | None => True
  end.

(** A property with a column default on which they agree: absent, or a
    non-empty string; not [null]. *)
Definition plain_optional (x : Optional string) : Prop :=
  match x with
  | OUndefined => True
  | ONull => False
  | OValue v => v ≠ ""
  end.

(** A JSON value that a [jsonb] column gives back as it was written. *)
Definition jsonb_form (j : json) : Prop := jsonb j = j.

Definition jsonb_forms (x : option json) : Prop :=
  match x with
  | Some j => jsonb_form j
  | None => True
  end.

(** A map in which every record sits under its own id, once. *)
Definition keyed {V} (id_of : V → string) (m : JsMap V) : Prop :=
  NoDup m.*1 ∧ ∀ k v, (k, v) ∈ m → id_of v = k.

Definition mem_consistent (st : MemStorage.t) : Prop :=
  keyed User.id (MemStorage.users st) ∧
  keyed Material.id (MemStorage.materials st) ∧
  keyed Conversation.id (MemStorage.conversations st) ∧
  keyed Message.id (MemStorage.messages st) ∧
  keyed MindMap.id (MemStorage.mindMaps st) ∧
  keyed Quiz.id (MemStorage.quizzes st) ∧
  keyed QuizAttempt.id (MemStorage.quizAttempts st).

(** Further sample data: a second registration under bob's name, and a
    third registrant. *)
Definition bob_again : InsertUser.t :=
  InsertUser.mk "bob" "again" "bob2@example.org" None OUndefined OUndefined.


Definition carol : InsertUser.t :=
  InsertUser.mk "carol" "correct horse" "carol@example.org" None OUndefined OUndefined.

(** A store with one material of alice, the PDF of [scan_pdf_data]. *)
Definition mem_with_scan : MemStorage.t :=
  (MemStorage.createMaterial "material-1" 1000 scan_pdf_data mem_people).2.

Definition db_with_scan : DatabaseStorage.t :=
  store_after db_people
    (DatabaseStorage.createMaterial "material-1" 1000 scan_pdf_data db_people).

Definition notes_data : InsertMaterial.t :=
  InsertMaterial.mk "notes.txt" "text" (Some "photosynthesis converts light to energy")
    (Some (JObj [("size", JNum 39); ("mimetype", JStr "text/plain")])) "bob".

(** ** server/auth.ts: the guards

    A guard sees the [Authorization] header and, in session mode, the user
    passport restored from the session ([req.isAuthenticated()] is that
    user being there).  It either answers itself or sets [req.userId] and
    calls [next()].  [verifyToken] is [jwt.verify] under the secret at the
    instant of the request: [None] when the token does not verify, else the
    [userId] of its payload, which is the string [generateToken] signed or
    [undefined] for a payload that carries none; the cast to
    [{ userId: string }] checks nothing. *)
Record GuardedRequest := mkGuardedRequest {
  authorization : option string;
  session_user : option User.t }.

Inductive Guard :=
| Answered (res : Response)
| Passed (userId : option string).

(** [s.substring(n)]. *)
Fixpoint substring_from (n : nat) (s : string) : string :=
  match n, s with
  | O, _ => s
  | Datatypes.S n', String _ rest => substring_from n' rest
  | Datatypes.S _, EmptyString => ""
  end.

Section Guards.
Context {S : Type} `{IStorage S}.
Variable USE_JWT_AUTH : bool.
Variable verifyToken : string → option (option string).

(** [!authHeader || !authHeader.startsWith('Bearer ')], then the token. *)
Definition bearer_token (req : GuardedRequest) : option string :=
  match authorization req with
  | Some authHeader =>
      if String.prefix "Bearer " authHeader then Some (substring_from 7 authHeader)
      else None
  | None => None
  end.

Definition requireAuth (req : GuardedRequest) : Guard :=
  if USE_JWT_AUTH then
    match bearer_token req with
    | None => Answered (json_error 401 "Authentication required")
    | Some token =>
        match verifyToken token with
        | None => Answered (json_error 401 "Invalid or expired token")
        | Some userId => Passed userId
        end
    end
  else
    match session_user req with
    | None => Answered (json_error 401 "Authentication required")
    | Some user => Passed (Some (User.id user))
    end.

(** [storage.getUser(undefined)] finds no user, in either store. *)
Definition requireRole (role : string) (req : GuardedRequest) (st : S) : Guard :=
  if USE_JWT_AUTH then
    match bearer_token req with
    | None => Answered (json_error 401 "Authentication required")
    | Some token =>
        match verifyToken token with
        | None => Answered (json_error 401 "Invalid or expired token")
        | Some userId =>
            match userId ≫= (λ uid, getUser uid st) with
            | None => Answered (json_error 401 "User not found")
            | Some user =>
                if decide (User.role user = Some role) then Passed (Some (User.id user))
                else Answered (json_error 403
                                 ("Access denied. " +:+ role +:+ " role required."))
            end
        end
    end
  else
    match session_user req with
    | None => Answered (json_error 401 "Authentication required")
    | Some user =>
        if decide (User.role user = Some role) then Passed (Some (User.id user))
        else Answered (json_error 403 ("Access denied. " +:+ role +:+ " role required."))
    end.

End Guards.

(** ** server/routes.ts: listing and creating without the model

    [res.status(code).json({ error })] or [res.json({ name: payload })]. *)
Record Reply (A : Type) := mkReply { reply_status : Z; reply_body : string + A }.
Arguments mkReply {A} _ _.
Arguments reply_status {A} _.
Arguments reply_body {A} _.

Section Listing.
Context {S : Type} `{IStorage S}.

Definition get_materials (userId : option string) (st : S) : Reply (list Material.t) :=
  match authenticated userId with
  | None => mkReply 401 (inl "User ID missing")
  | Some uid => mkReply 200 (inr (getMaterialsByUser uid st))
  end.

Definition get_conversations (userId : option string) (st : S)
  : Reply (list Conversation.t) :=
  match authenticated userId with
  | None => mkReply 401 (inl "User ID missing")
  | Some uid => mkReply 200 (inr (getConversationsByUser uid st))
  end.

Definition get_mindmaps (userId : option string) (st : S) : Reply (list MindMap.t) :=
  match authenticated userId with
  | None => mkReply 401 (inl "User ID missing")
  | Some uid => mkReply 200 (inr (getMindMapsByUser uid st))
  end.

Definition get_quizzes (userId : option string) (st : S) : Reply (list Quiz.t) :=
  match authenticated userId with
  | None => mkReply 401 (inl "User ID missing")
  | Some uid => mkReply 200 (inr (getQuizzesByUser uid st))
  end.

(** [POST /api/conversations]: [{ title: z.string().optional() }], and
    [title || "New Conversation"]. *)
Definition post_conversations (userId : option string) (body : json) (id : string)
    (now : Date) (st : S) : Reply Conversation.t * S :=
  match authenticated userId with
  | None => (mkReply 401 (inl "User ID missing"), st)
  | Some uid =>
      match (fields ← z_object body; z_string_optional (obj_get "title" fields)) with
      | inl error => (mkReply 400 (inl error), st)
      | inr title =>
          let conversationData :=
            InsertConversation.mk (Some (or_default title "New Conversation")) uid in
          match createConversation id now conversationData st with
          | inl error => (mkReply 400 (inl error), st)
          | inr (conversation, st') => (mkReply 200 (inr conversation), st')
          end
      end
  end.

End Listing.

(** Every record of a listing belongs to the requester. *)
Definition lists_only_own {A} (owner : A → string) (userId : option string)
    (reply : Reply (list A)) : Prop :=
  match reply_body reply with
  | inr records =>
      reply_status reply = 200 ∧ Forall (λ r, Some (owner r) = userId) records
  | inl _ => reply_status reply = 401
  end.

(** A request whose token the sample verifier accepts for bob. *)
Definition sample_verify (token : string) : option (option string) :=
  if decide (token = "token-bob") then Some (Some "bob")
  else if decide (token = "token-anonymous") then Some None
  else None.

Definition bob_request : GuardedRequest :=
  mkGuardedRequest (Some "Bearer token-bob") None.

(** A handler's outcome that either answers 200 or leaves the store as it
    found it. *)
Definition kept_unless_ok {S : Type} (st : S) (out : Response * S) : Prop :=
  status out.1 = 200 ∨ out.2 = st.

(** An upload whose material was stored and whose file could not be
    removed: the answer is 500 with the message of that error, and the
    store is the one [createMaterial] left. *)
Definition stored_but_not_unlinked {S : Type} `{IStorage S} (file : option UploadedFile)
    (id : string) (now : Date) (st : S) (out : Response * S) : Prop :=
  ∃ f error data material,
    file = Some f ∧ unlink_error f = Some error ∧
    createMaterial id now data st = inr (material, out.2) ∧
    out.1 = json_error 500 error.

(** A conversation of alice, in either store. *)
Definition mem_with_talk : MemStorage.t :=
  (MemStorage.createConversation "conv-1" 2000
     (InsertConversation.mk (Some "Biology") "alice") mem_people).2.

(** The database store after bob submitted an attempt on the quiz. *)
Definition db_with_attempt : DatabaseStorage.t :=
  (post_quiz_attempt (Some "bob") "quiz-1" (attempt_body one_right) "attempt-1" 2000
     db_with_quiz).2.

Definition db_with_talk : DatabaseStorage.t :=
  store_after db_people
    (DatabaseStorage.createConversation "conv-1" 2000
       (InsertConversation.mk (Some "Biology") "alice") db_people).

(** The two markers of the YouTube pattern and the characters that end a
    video id. *)
Definition video_markers : list string := ["youtube.com/watch?v="; "youtu.be/"].

Definition id_stops : list ascii := ["&"; "010"; "?"; "#"]%char.

(** The levels of [z.enum(["easy", "medium", "hard"])]. *)
Definition quiz_levels : list string := ["easy"; "medium"; "hard"].

(** [new] is [old] with at most the plan and the language replaced. *)
Definition profile_updated (updates : PartialUser.t) (old new : User.t) : Prop :=
  User.id new = User.id old ∧ User.username new = User.username old ∧
  User.password new = User.password old ∧ User.email new = User.email old ∧
  User.role new = User.role old ∧ User.createdAt new = User.createdAt old ∧
  applied (PartialUser.plan updates) (User.plan old) (User.plan new) ∧
  applied (PartialUser.language updates) (User.language old) (User.language new).

(** What [PUT /api/users/profile] does to a store in which the requester
    is [old]: a body that does not validate is answered 400 and changes
    nothing; one that validates is answered 200 with the updated user, who
    is then the stored one, and no other user changes. *)
Definition profile_put {S : Type} `{IStorage S} (uid : string) (body : json)
    (old : User.t) (st : S) (out : Response * S) : Prop :=
  match parse_profile_update body with
  | inl _ => status out.1 = 400 ∧ out.2 = st
  | inr updates =>
      ∃ new, out.1 = mkResponse 200 (BUser (without_password new) None) ∧
        getUser uid out.2 = Some new ∧ profile_updated updates old new ∧
        ∀ other, other ≠ uid → getUser other out.2 = getUser other st
  end.

(** The same on the database store, where an update that names neither
    the plan nor the language is no statement: it is answered 400 and
    changes nothing. *)
Definition db_profile_put (uid : string) (body : json) (old : User.t)
    (st : DatabaseStorage.t) (out : Response * DatabaseStorage.t) : Prop :=
  match parse_profile_update body with
  | inl _ => status out.1 = 400 ∧ out.2 = st
  | inr updates =>
      if decide (PartialUser.plan updates = None ∧ PartialUser.language updates = None)
      then out = (json_error 400 "No values to set", st)
      else
        ∃ new, out.1 = mkResponse 200 (BUser (without_password new) None) ∧
          getUser uid out.2 = Some new ∧ profile_updated updates old new ∧
          ∀ other, other ≠ uid → getUser other out.2 = getUser other st
  end.

(** What the upload handler hands to [createMaterial]. *)
Definition material_of_upload (uid : string) (f : UploadedFile) (content type : string)
  : InsertMaterial.t :=
  InsertMaterial.mk (originalname f) type (Some content)
    (Some (JObj [("size", JNum (size f)); ("mimetype", JStr (mimetype f))])) uid.

(** An image upload. *)
Definition diagram_png : UploadedFile :=
  mkUploadedFile "diagram.png" "image/png" 1024 "/tmp/upload-4" "" "iVBORw0KGgo=" None.

(** ** api/quizzes/generate.ts

    The serverless quiz generator.  It reads [req.body] without a schema:
    [None] is a request without a body, and a destructuring default applies
    to a property that is [undefined] only. *)
Record VercelRequest := mkVercelRequest { method : string; req_body : option json }.

Record GeneratedQuiz := mkGeneratedQuiz {
  gen_title : string; gen_questions : json; gen_difficulty : json;
  gen_materialIds : json }.

Inductive VercelReply :=
| VError (code : Z) (error : string)
| VQuiz (quiz : GeneratedQuiz).

(** [x || []]. *)
Definition or_empty_array (x : option json) : json :=
  match x with
  | Some j => if truthy j then j else JArr []
  | None => JArr []
  end.

Section Serverless.
Variable OPENROUTER_API_KEY : option string.
Variable fetch : ChatCompletionRequest → FetchResponse.
Variable JSON_parse : string → option json.

(** The prompt template, a function of [numQuestions], [difficulty],
    [topic] and [content]. *)
Variable generate_prompt : json → json → json → option json → string.

Definition serverless_request (prompt : string) : ChatCompletionRequest :=
  mkChatCompletionRequest OPENROUTER_MODELS_REASONING
    [mkChatMessage "user" (Text prompt)] true 3000.

Definition api_quizzes_generate (req : VercelRequest) : VercelReply :=
  if decide (method req = "POST") then
    let attempt : string + VercelReply :=
      body ← match req_body req with
              | Some b => inr b
              | None => inl "TypeError: Cannot destructure property of undefined"
              end;
      topic ← get_prop "topic" body;
      content ← get_prop "content" body;
      given_difficulty ← get_prop "difficulty" body;
      let difficulty := default (JStr "medium") given_difficulty in
      given_numQuestions ← get_prop "numQuestions" body;
      let numQuestions := default (JNum 10) given_numQuestions in
      materialIds ← get_prop "materialIds" body;
      match topic with
      | Some t =>
          if truthy t then
            _ ← createOpenRouterClient OPENROUTER_API_KEY;
            response ←
              chat (fetch (serverless_request
                             (generate_prompt numQuestions difficulty t content)));
            text ← first_choice response;
            quizData ← parse_json JSON_parse (or_default text "{}");
            questions ← get_prop "questions" quizData;
            mret (VQuiz (mkGeneratedQuiz (to_js_string t +:+ " - Quiz")
                           (or_empty_array questions) difficulty
                           (or_empty_array materialIds)))
          else inr (VError 400 "Topic is required")
      | None => inr (VError 400 "Topic is required")
      end in
    match attempt with
    | inl error => VError 500 error
    | inr reply => reply
    end
  else VError 405 "Method not allowed".

End Serverless.

(** A request to the serverless generator that names a topic only. *)
Definition cells_request : VercelRequest :=
  mkVercelRequest "POST" (Some (JObj [("topic", JStr "cells")])).

(** ** client/src/components/canvas/interactive-canvas.tsx: the history

    The undo stack of the canvas.  A snapshot is the pair of the node and
    connection arrays; [shown] is what the render that created the handlers
    holds in [nodes] and [connections], which is what [saveToHistory]
    pushes. *)
Module Canvas.
Section History.
Variable Snapshot : Type.

Record t := mk { shown : Snapshot; history : list Snapshot; historyIndex : Z }.

(** The state of the first render: [useState([])] and [useState(-1)]. *)
Definition initial (s : Snapshot) : t := mk s [] (-1).

(** [array.slice(0, end)]; a negative [end] counts from the end. *)
Definition slice0 (e : Z) (l : list Snapshot) : list Snapshot :=
  if e <? 0 then take (Z.to_nat (Z.of_nat (length l) + e)) l else take (Z.to_nat e) l.

(** [array[i]]: [undefined] outside the array. *)
Definition at_index (i : Z) (l : list Snapshot) : option Snapshot :=
  if i <? 0 then None else l !! Z.to_nat i.

Definition saveToHistory (c : t) : t :=
  let newHistory := slice0 (historyIndex c + 1) (history c) ++ [shown c] in
  mk (shown c) newHistory (Z.of_nat (length newHistory) - 1).

Definition undo (c : t) : string + t :=
  if 0 <? historyIndex c then
    match at_index (historyIndex c - 1) (history c) with
    | Some previousState => inr (mk previousState (history c) (historyIndex c - 1))
    | None => inl "TypeError: Cannot read properties of undefined"
    end
  else inr c.

Definition redo (c : t) : string + t :=
  if historyIndex c <? Z.of_nat (length (history c)) - 1 then
    match at_index (historyIndex c + 1) (history c) with
    | Some nextState => inr (mk nextState (history c) (historyIndex c + 1))
    | None => inl "TypeError: Cannot read properties of undefined"
    end
  else inr c.

(** The index points into the history, or is [-1] while it is empty or
    nothing was saved. *)
Definition valid (c : t) : Prop :=
  -1 ≤ historyIndex c < Z.of_nat (length (history c)).

End History.
End Canvas.

(** A canvas (its nodes by label) after two saves. *)
Definition two_saved : Canvas.t (list string) :=
  Canvas.mk (list string) ["Biology"; "Cells"] [["Biology"]; ["Biology"; "Cells"]] 1.

(** * Properties *)

(** ** The JavaScript [Map] *)

Section JsMapFacts.
Context {V : Type}.
Implicit Types (m : JsMap V) (k : string) (v : V).

Lemma map_get_set_eq m k v : map_get k (map_set k v m) = Some v.
Proof.
  induction m as [|[k' v'] m IH]; simpl.
  - by rewrite decide_True.
  - destruct (decide (k' = k)) as [->|Hne]; simpl.
    + by rewrite decide_True.
    + by rewrite decide_False.
Qed.

Lemma map_get_set_ne m k k' v : k ≠ k' → map_get k' (map_set k v m) = map_get k' m.
Proof.
  intros Hne. induction m as [|[k0 v0] m IH]; simpl.
  - by rewrite decide_False.
  - destruct (decide (k0 = k)) as [->|Hk0]; simpl.
    + by rewrite !decide_False.
    + by rewrite IH.
Qed.

Lemma map_get_Some_elem_of m k v : map_get k m = Some v → (k, v) ∈ m.
Proof.
  induction m as [|[k0 v0] m IH]; simpl; [done|].
  destruct (decide (k0 = k)) as [->|Hk0].
  - intros [= ->]. apply list_elem_of_here.
  - intros Hget. apply list_elem_of_further, IH, Hget.
Qed.

Lemma map_get_deleted m k : map_get k (map_delete k m).2 = None.
Proof.
  unfold map_delete; simpl. induction m as [|[k0 v0] m IH]; [done|].
  rewrite filter_cons. simpl. destruct (decide (k0 ≠ k)) as [Hne|Heq]; simpl.
  - by rewrite decide_False.
  - exact IH.
Qed.

Lemma map_get_delete_ne m k k' : k ≠ k' → map_get k' (map_delete k m).2 = map_get k' m.
Proof.
  intros Hne. unfold map_delete; simpl. induction m as [|[k0 v0] m IH]; [done|].
  rewrite filter_cons. simpl. destruct (decide (k0 ≠ k)) as [Hk0|Hk0]; simpl.
  - by rewrite IH.
  - apply dec_stable in Hk0. subst k0. by rewrite decide_False.
Qed.

(** Deleting a batch of entries one by one leaves only entries whose key
    is not in the batch. *)
Lemma elem_of_delete_all m (batch : list (string * V)) (kv : string * V) :
  kv ∈ foldl (λ m e, (map_delete e.1 m).2) m batch → kv ∈ m ∧ kv.1 ∉ batch.*1.
Proof.
  revert m. induction batch as [|e batch IH]; intros m; simpl.
  - intros Hin. split; [done|]. apply not_elem_of_nil.
  - intros Hin. apply IH in Hin as [Hin Hnot].
    apply list_elem_of_filter in Hin as [Hne Hin]. simpl in Hne.
    split; [done|]. by apply not_elem_of_cons.
Qed.

End JsMapFacts.

Lemma filter_none {A} (P : A → Prop) `{∀ x, Decision (P x)} (l : list A) :
  (∀ x, x ∈ l → ¬ P x) → filter P l = [].
Proof.
  induction l as [|x l IH]; intros Hall; [done|].
  rewrite filter_cons. rewrite decide_False.
  - apply IH. intros y Hy. apply Hall. by apply list_elem_of_further.
  - apply Hall. apply list_elem_of_here.
Qed.

Lemma filter_of_complement {A} (P : A → Prop) `{∀ x, Decision (P x)} (l : list A) :
  filter P (filter (λ x, ¬ P x) l) = [].
Proof.
  apply filter_none. intros x Hx. by apply list_elem_of_filter in Hx as [Hx _].
Qed.

(** ** Deleting a conversation *)

Lemma MemStorage_deleteConversation_messages (id : string) (st : MemStorage.t) :
  MemStorage.getMessagesByConversation id (MemStorage.deleteConversation id st).2 = [].
Proof.
  unfold MemStorage.deleteConversation, MemStorage.getMessagesByConversation.
  destruct (map_delete id (MemStorage.conversations st)) as [found convs]. simpl.
  rewrite filter_none; [done|].
  intros msg Hmsg Hconv. unfold map_values in Hmsg.
  apply list_elem_of_fmap in Hmsg as [[k msg'] [-> Hkv]]. simpl in Hconv.
  apply elem_of_delete_all in Hkv as [Hin Hnot]. apply Hnot.
  change k with ((k, msg').1). apply list_elem_of_fmap_2.
  apply list_elem_of_filter. by split.
Qed.

Lemma MemStorage_deleteConversation_gone (id : string) (st : MemStorage.t) :
  MemStorage.getConversation id (MemStorage.deleteConversation id st).2 = None.
Proof.
  unfold MemStorage.deleteConversation, MemStorage.getConversation.
  pose proof (map_get_deleted (MemStorage.conversations st) id) as Hgone.
  destruct (map_delete id (MemStorage.conversations st)) as [found convs]. exact Hgone.
Qed.

Lemma DatabaseStorage_deleteConversation_messages (id : string) (st : DatabaseStorage.t) :
  DatabaseStorage.getMessagesByConversation id
    (DatabaseStorage.deleteConversation id st).2 = [].
Proof.
  unfold DatabaseStorage.deleteConversation, DatabaseStorage.getMessagesByConversation,
    DatabaseStorage.db_delete, DatabaseStorage.db_select. simpl.
  by rewrite filter_of_complement.
Qed.

Lemma DatabaseStorage_deleteConversation_gone (id : string) (st : DatabaseStorage.t) :
  DatabaseStorage.getConversation id (DatabaseStorage.deleteConversation id st).2 = None.
Proof.
  unfold DatabaseStorage.deleteConversation, DatabaseStorage.getConversation,
    DatabaseStorage.db_delete, DatabaseStorage.db_select. simpl.
  by rewrite filter_of_complement.
Qed.

(** The messages of the other conversations stay. *)
Lemma DatabaseStorage_deleteConversation_others (id id' : string)
    (st : DatabaseStorage.t) :
  id' ≠ id →
  DatabaseStorage.getMessagesByConversation id'
    (DatabaseStorage.deleteConversation id st).2
  = DatabaseStorage.getMessagesByConversation id' st.
Proof.
  intros Hne.
  unfold DatabaseStorage.deleteConversation, DatabaseStorage.getMessagesByConversation,
    DatabaseStorage.db_delete, DatabaseStorage.db_select. simpl. f_equal.
  rewrite list_filter_filter. apply list_filter_iff. intros msg. split.
  - by intros [Hconv _].
  - intros Hconv. split; [done|]. congruence.
Qed.

(** C10.  In both storage implementations, once [deleteConversation id]
    has returned, [getMessagesByConversation id] returns the empty list
    and the conversation itself is gone: a conversation delete orphans no
    message. *)
Theorem deleteConversation_leaves_no_message (id : string) :
  (∀ st : MemStorage.t,
     let st' := (deleteConversation id st).2 in
     getMessagesByConversation id st' = [] ∧ getConversation id st' = None) ∧
  (∀ st : DatabaseStorage.t,
     let st' := (deleteConversation id st).2 in
     getMessagesByConversation id st' = [] ∧ getConversation id st' = None).
Proof.
  split; intros st; simpl; split.
  - apply MemStorage_deleteConversation_messages.
  - apply MemStorage_deleteConversation_gone.
  - apply DatabaseStorage_deleteConversation_messages.
  - apply DatabaseStorage_deleteConversation_gone.
Qed.

(** ** Updating a mind map *)

Lemma applied_patch {A} (upd : option A) (old : A) : applied upd old (patch old upd).
Proof. by destruct upd. Qed.

Lemma set_mindMap_updated now updates old :
  mindMap_updated now (as_stored updates) old (DatabaseStorage.set_mindMap now updates old).
Proof. unfold mindMap_updated; simpl. repeat split; apply applied_patch. Qed.

Lemma filter_fmap_compat {A} (c : A → Prop) `{∀ x, Decision (c x)} (g : A → A)
    (l : list A) :
  (∀ r, c (g r) ↔ c r) → filter c (g <$> l) = g <$> filter c l.
Proof.
  intros Hc. induction l as [|r l IH]; [done|].
  rewrite fmap_cons, !filter_cons.
  destruct (decide (c (g r))) as [Hg|Hg], (decide (c r)) as [Hr|Hr];
    rewrite ?fmap_cons, IH; try done.
  - exfalso. apply Hr, Hc, Hg.
  - exfalso. apply Hg, Hc, Hr.
Qed.

Lemma fmap_fixed {A} (g : A → A) (l : list A) :
  (∀ r, r ∈ l → g r = r) → g <$> l = l.
Proof.
  induction l as [|r l IH]; intros Hg; [done|].
  rewrite fmap_cons, Hg, IH; [done| |apply list_elem_of_here].
  intros r' Hr'. apply Hg. by apply list_elem_of_further.
Qed.

Lemma head_filter_holds {A} (c : A → Prop) `{∀ x, Decision (c x)} (l : list A) r :
  head (filter c l) = Some r → c r ∧ r ∈ l.
Proof.
  intros Hhead. apply head_Some_elem_of in Hhead.
  by apply list_elem_of_filter in Hhead.
Qed.

Lemma head_fmap_Some {A B} (f : A → B) (l : list A) :
  head (f <$> l) = f <$> head l.
Proof. by destruct l. Qed.

Lemma filter_all {A} (P : A → Prop) `{∀ x, Decision (P x)} (l : list A) :
  (∀ x, x ∈ l → P x) → filter P l = l.
Proof.
  induction l as [|x l IH]; intros Hall; [done|].
  rewrite filter_cons, decide_True by apply Hall, list_elem_of_here.
  f_equal. apply IH. intros y Hy. by apply Hall, list_elem_of_further.
Qed.

(** What a select by key finds after an update by another key: the rows
    the update left alone. *)
Lemma db_update_select_other {A} (c c' : A → Prop) `{∀ x, Decision (c x)}
    `{∀ x, Decision (c' x)} (set : A → A) (l : list A) :
  (∀ r, c' r → ¬ c r) → (∀ r, c r → ¬ c' (set r)) →
  filter c' (DatabaseStorage.db_update set c l).2 = filter c' l.
Proof.
  intros Hother Hset. unfold DatabaseStorage.db_update. simpl.
  rewrite filter_app, list_filter_filter.
  rewrite (filter_none c' (set <$> filter c l)), app_nil_r.
  - apply list_filter_iff. intros r. split; [by intros [? _]|]. intros Hr.
    split; [done|by apply Hother].
  - intros r [r0 [-> Hr0]]%list_elem_of_fmap. apply Hset.
    by apply list_elem_of_filter in Hr0 as [? _].
Qed.

(** What a select by the key of the update finds after it, when the
    update keeps the key: the updated rows. *)
Lemma db_update_select_same {A} (c : A → Prop) `{∀ x, Decision (c x)}
    (set : A → A) (l : list A) :
  (∀ r, c r → c (set r)) →
  filter c (DatabaseStorage.db_update set c l).2 = set <$> filter c l.
Proof.
  intros Hset. unfold DatabaseStorage.db_update. simpl.
  rewrite filter_app, filter_of_complement. simpl. apply filter_all.
  intros r [r0 [-> Hr0]]%list_elem_of_fmap. apply Hset.
  by apply list_elem_of_filter in Hr0 as [? _].
Qed.

Lemma db_update_none {A} (c : A → Prop) `{∀ x, Decision (c x)} (set : A → A)
    (l : list A) :
  filter c l = [] → DatabaseStorage.db_update set c l = ([], l).
Proof.
  intros Hnone. unfold DatabaseStorage.db_update. rewrite Hnone. simpl. f_equal.
  rewrite app_nil_r. apply filter_all. intros r Hr Hc.
  assert (r ∈ filter c l) as Hin by (by apply list_elem_of_filter).
  rewrite Hnone in Hin. by apply elem_of_nil in Hin.
Qed.

Lemma Forall_filter {A} (P Q : A → Prop) `{∀ x, Decision (Q x)} (l : list A) :
  Forall P l → Forall P (filter Q l).
Proof.
  rewrite !Forall_forall. intros Hall x Hx. apply Hall.
  by apply list_elem_of_filter in Hx as [_ ?].
Qed.

Lemma check_true (P : Prop) `{Decision P} (error : string) :
  P → DatabaseStorage.check P error = inr ().
Proof. intros HP. unfold DatabaseStorage.check. by rewrite decide_True. Qed.

Lemma check_false (P : Prop) `{Decision P} (error : string) :
  ¬ P → DatabaseStorage.check P error = inl error.
Proof. intros HP. unfold DatabaseStorage.check. by rewrite decide_False. Qed.

Lemma check_inr (P : Prop) `{Decision P} (error : string) (u : ()) :
  DatabaseStorage.check P error = inr u → P.
Proof. unfold DatabaseStorage.check. by destruct (decide P). Qed.

Lemma check_inl (P : Prop) `{Decision P} (error error' : string) :
  DatabaseStorage.check P error = inl error' → ¬ P.
Proof. unfold DatabaseStorage.check. by destruct (decide P). Qed.

Lemma jsonb_not_null_inr (j j' : json) :
  DatabaseStorage.jsonb_not_null j = inr j' ↔ j ≠ JNull ∧ j' = jsonb j.
Proof.
  unfold DatabaseStorage.jsonb_not_null.
  destruct j;
    (split; [intros [= <-]; by split|by intros [? ->]])
    || (split; [done|by intros [? _]]).
Qed.

(** Inversion of a [try] block that ran to its end. *)
Lemma exc_bind_inr {A B} (f : A → string + B) (x : string + A) (b : B) :
  x ≫= f = inr b → ∃ a, x = inr a ∧ f a = inr b.
Proof. destruct x as [e|a]; [done|]. intros Hf. by exists a. Qed.

Ltac exc_inv H :=
  repeat match type of H with
         | _ ≫= _ = inr _ =>
             let a := fresh "a" in
             let Ha := fresh "Ha" in
             apply exc_bind_inr in H as (a & Ha & H)
         end.

(** The checks of a statement that went through. *)
Ltac checks_inv :=
  repeat match goal with
         | H : DatabaseStorage.check _ _ = inr _ |- _ => apply check_inr in H
         | H : DatabaseStorage.jsonb_not_null _ = inr _ |- _ =>
             apply jsonb_not_null_inr in H as [? ->]
         end.

Section Inserts.
Variables (id : string) (now : Date) (st : DatabaseStorage.t).

Lemma DatabaseStorage_createUser_inr (data : InsertUser.t) (user : User.t)
    (st' : DatabaseStorage.t) :
  DatabaseStorage.createUser id now data st = inr (user, st') ↔
  DatabaseStorage.accepts_user id data st ∧
  user = User.mk id (InsertUser.username data) (InsertUser.password data)
           (InsertUser.email data) None
           (default "free" (to_option (InsertUser.plan data)))
           (default "en" (to_option (InsertUser.language data))) now ∧
  st' = DatabaseStorage.with_users st (DatabaseStorage.users st ++ [user]).
Proof.
  unfold DatabaseStorage.createUser, DatabaseStorage.accepts_user. split.
  - intros Hcreate. exc_inv Hcreate. checks_inv. simpl in Hcreate.
    injection Hcreate as <- <-.
    destruct (InsertUser.plan data), (InsertUser.language data); try done;
      simpl in *; by simplify_eq.
  - intros ((Hplan & Hlanguage & Hid & Hname & Hemail) & -> & ->).
    destruct (InsertUser.plan data), (InsertUser.language data); try done; simpl;
      by rewrite !check_true by done.
Qed.

Lemma DatabaseStorage_createMaterial_inr (data : InsertMaterial.t) (row : Material.t)
    (st' : DatabaseStorage.t) :
  DatabaseStorage.createMaterial id now data st = inr (row, st') ↔
  DatabaseStorage.accepts_material id data st ∧
  row = Material.mk id (InsertMaterial.userId data) (InsertMaterial.filename data)
          (InsertMaterial.type data) (InsertMaterial.content data)
          (DatabaseStorage.jsonb_nullable (InsertMaterial.metadata data)) now ∧
  st' = DatabaseStorage.with_materials st (DatabaseStorage.materials st ++ [row]).
Proof.
  unfold DatabaseStorage.createMaterial, DatabaseStorage.accepts_material. split.
  - intros Hcreate. cbv zeta in Hcreate. exc_inv Hcreate. checks_inv. simpl in Hcreate.
    by injection Hcreate as <- <-.
  - intros ((Hid & Huser) & -> & ->). cbv zeta. by rewrite !check_true by done.
Qed.

Lemma DatabaseStorage_createConversation_inr (data : InsertConversation.t)
    (row : Conversation.t) (st' : DatabaseStorage.t) :
  DatabaseStorage.createConversation id now data st = inr (row, st') ↔
  DatabaseStorage.accepts_conversation id data st ∧
  row = Conversation.mk id (InsertConversation.userId data) (InsertConversation.title data)
          now ∧
  st' = DatabaseStorage.with_conversations st (DatabaseStorage.conversations st ++ [row]).
Proof.
  unfold DatabaseStorage.createConversation, DatabaseStorage.accepts_conversation. split.
  - intros Hcreate. cbv zeta in Hcreate. exc_inv Hcreate. checks_inv. simpl in Hcreate.
    by injection Hcreate as <- <-.
  - intros ((Hid & Huser) & -> & ->). cbv zeta. by rewrite !check_true by done.
Qed.

Lemma DatabaseStorage_createMessage_inr (data : InsertMessage.t) (row : Message.t)
    (st' : DatabaseStorage.t) :
  DatabaseStorage.createMessage id now data st = inr (row, st') ↔
  DatabaseStorage.accepts_message id data st ∧
  row = Message.mk id (InsertMessage.conversationId data) (InsertMessage.role data)
          (InsertMessage.content data) (InsertMessage.audioUrl data)
          (DatabaseStorage.jsonb_nullable (InsertMessage.materialIds data)) now ∧
  st' = DatabaseStorage.with_messages st (DatabaseStorage.messages st ++ [row]).
Proof.
  unfold DatabaseStorage.createMessage, DatabaseStorage.accepts_message. split.
  - intros Hcreate. cbv zeta in Hcreate. exc_inv Hcreate. checks_inv. simpl in Hcreate.
    by injection Hcreate as <- <-.
  - intros ((Hid & Huser) & -> & ->). cbv zeta. by rewrite !check_true by done.
Qed.

Lemma DatabaseStorage_createMindMap_inr (data : InsertMindMap.t) (row : MindMap.t)
    (st' : DatabaseStorage.t) :
  DatabaseStorage.createMindMap id now data st = inr (row, st') ↔
  DatabaseStorage.accepts_mindMap id data st ∧
  row = MindMap.mk id (InsertMindMap.userId data) (InsertMindMap.title data)
          (jsonb (InsertMindMap.nodes data))
          (DatabaseStorage.jsonb_nullable (InsertMindMap.materialIds data)) now now ∧
  st' = DatabaseStorage.with_mindMaps st (DatabaseStorage.mindMaps st ++ [row]).
Proof.
  unfold DatabaseStorage.createMindMap, DatabaseStorage.accepts_mindMap. split.
  - intros Hcreate. exc_inv Hcreate. cbv zeta in Hcreate. exc_inv Hcreate. checks_inv.
    simpl in Hcreate. by injection Hcreate as <- <-.
  - intros ((Hnodes & Hid & Huser) & -> & ->).
    rewrite (proj2 (jsonb_not_null_inr _ _) (conj Hnodes eq_refl)). simpl.
    by rewrite !check_true by done.
Qed.

Lemma DatabaseStorage_createQuiz_inr (data : InsertQuiz.t) (row : Quiz.t)
    (st' : DatabaseStorage.t) :
  DatabaseStorage.createQuiz id now data st = inr (row, st') ↔
  DatabaseStorage.accepts_quiz id data st ∧
  row = Quiz.mk id (InsertQuiz.userId data) (InsertQuiz.title data)
          (jsonb (InsertQuiz.questions data))
          (DatabaseStorage.jsonb_nullable (InsertQuiz.materialIds data))
          (DatabaseStorage.text_default "medium" (InsertQuiz.difficulty data)) now ∧
  st' = DatabaseStorage.with_quizzes st (DatabaseStorage.quizzes st ++ [row]).
Proof.
  unfold DatabaseStorage.createQuiz, DatabaseStorage.accepts_quiz. split.
  - intros Hcreate. exc_inv Hcreate. cbv zeta in Hcreate. exc_inv Hcreate. checks_inv.
    simpl in Hcreate. by injection Hcreate as <- <-.
  - intros ((Hquestions & Hid & Huser) & -> & ->).
    rewrite (proj2 (jsonb_not_null_inr _ _) (conj Hquestions eq_refl)). simpl.
    by rewrite !check_true by done.
Qed.

Lemma DatabaseStorage_createQuizAttempt_inr (data : InsertQuizAttempt.t)
    (row : QuizAttempt.t) (st' : DatabaseStorage.t) :
  DatabaseStorage.createQuizAttempt id now data st = inr (row, st') ↔
  DatabaseStorage.accepts_quizAttempt id data st ∧
  row = QuizAttempt.mk id (InsertQuizAttempt.userId data) (InsertQuizAttempt.quizId data)
          (jsonb (InsertQuizAttempt.answers data)) (InsertQuizAttempt.score data)
          (InsertQuizAttempt.totalQuestions data) now ∧
  st' = DatabaseStorage.with_quizAttempts st (DatabaseStorage.quizAttempts st ++ [row]).
Proof.
  unfold DatabaseStorage.createQuizAttempt, DatabaseStorage.accepts_quizAttempt. split.
  - intros Hcreate. exc_inv Hcreate. cbv zeta in Hcreate. exc_inv Hcreate. checks_inv.
    simpl in Hcreate. by injection Hcreate as <- <-.
  - intros ((Hanswers & Hid & Huser & Hquiz) & -> & ->).
    rewrite (proj2 (jsonb_not_null_inr _ _) (conj Hanswers eq_refl)). simpl.
    by rewrite !check_true by done.
Qed.

End Inserts.

(** An insert the schema accepts goes through. *)
Ltac db_insert lemma Haccepts :=
  rewrite (proj2 (lemma _ _ _ _ _ _) (conj Haccepts (conj eq_refl eq_refl))).

(** A call that does not return has thrown. *)
Lemma not_inr_inl {A} (x : string + A) : (∀ a, x ≠ inr a) → ∃ error, x = inl error.
Proof. destruct x as [error|a]; [by exists error|]. intros Hno. by destruct (Hno a). Qed.

Section UpdateMindMap.
Variables (id : string) (now : Date) (updates : PartialMindMap.t).

Lemma MemStorage_updateMindMap_present (st : MemStorage.t) (old : MindMap.t) :
  MemStorage.getMindMap id st = Some old →
  ∃ new st', MemStorage.updateMindMap id now updates st = (Some new, st') ∧
    mindMap_updated now updates old new ∧
    MemStorage.getMindMap id st' = Some new ∧
    (∀ id', id' ≠ id → MemStorage.getMindMap id' st' = MemStorage.getMindMap id' st) ∧
    MemStorage.with_mindMaps st' (MemStorage.mindMaps st) = st.
Proof.
  unfold MemStorage.getMindMap, MemStorage.updateMindMap. intros ->.
  eexists _, _. split; [reflexivity|]. split; [|split; [|split]].
  - unfold mindMap_updated; simpl. repeat split; apply applied_patch.
  - simpl. apply map_get_set_eq.
  - intros id' Hne. simpl. by apply map_get_set_ne.
  - by destruct st.
Qed.

Lemma MemStorage_updateMindMap_absent (st : MemStorage.t) :
  MemStorage.getMindMap id st = None →
  MemStorage.updateMindMap id now updates st = (None, st).
Proof. unfold MemStorage.getMindMap, MemStorage.updateMindMap. by intros ->. Qed.

Let set := DatabaseStorage.set_mindMap now updates.

(** An update the database accepts runs the statement. *)
Lemma DatabaseStorage_updateMindMap_accepted (st : DatabaseStorage.t) :
  DatabaseStorage.accepts_mindMap_update id updates st →
  DatabaseStorage.updateMindMap id now updates st
  = let '(result, table) :=
      DatabaseStorage.db_update set (λ r, MindMap.id r = id) (DatabaseStorage.mindMaps st)
    in inr (head result, DatabaseStorage.with_mindMaps st table).
Proof.
  intros (Hnodes & Hid & Huser). unfold DatabaseStorage.updateMindMap.
  cbv zeta. unfold DatabaseStorage.db_update. cbv zeta.
  rewrite !check_true by (by right). reflexivity.
Qed.

(** One it rejects, for a mind map that is there, throws. *)
Lemma DatabaseStorage_updateMindMap_rejected (st : DatabaseStorage.t) (old : MindMap.t) :
  DatabaseStorage.getMindMap id st = Some old →
  ¬ DatabaseStorage.accepts_mindMap_update id updates st →
  ∃ error, DatabaseStorage.updateMindMap id now updates st = inl error.
Proof.
  unfold DatabaseStorage.getMindMap, DatabaseStorage.db_select. intros Hold Hno.
  unfold DatabaseStorage.updateMindMap, DatabaseStorage.db_update. cbv zeta.
  assert (length (set <$> filter (λ r, MindMap.id r = id) (DatabaseStorage.mindMaps st))
          ≠ 0%nat) as Hsome.
  { rewrite length_fmap. by destruct (filter _ _). }
  fold set.
  destruct (decide (DatabaseStorage.non_null (PartialMindMap.nodes updates))) as [Hnodes|Hnodes].
  2: { rewrite (check_false (_ ∨ DatabaseStorage.non_null _))
         by (intros [Hlen|?]; [exact (Hsome Hlen)|done]).
       eexists. reflexivity. }
  destruct (decide (DatabaseStorage.free (PartialMindMap.id updates)
                      (MindMap.id <$> filter (λ r, MindMap.id r ≠ id)
                                        (DatabaseStorage.mindMaps st)))) as [Hfree|Hfree].
  2: { rewrite (check_true (_ ∨ DatabaseStorage.non_null _)) by (by right). simpl.
       rewrite (check_false (_ ∨ DatabaseStorage.free _ _))
         by (intros [Hlen|?]; [exact (Hsome Hlen)|done]).
       eexists. reflexivity. }
  destruct (decide (DatabaseStorage.refers (PartialMindMap.userId updates)
                      (User.id <$> DatabaseStorage.users st))) as [Hrefers|Hrefers].
  2: { rewrite (check_true (_ ∨ DatabaseStorage.non_null _)) by (by right).
       rewrite (check_true (_ ∨ DatabaseStorage.free _ _)) by (by right). simpl.
       rewrite (check_false (_ ∨ DatabaseStorage.refers _ _))
         by (intros [Hlen|?]; [exact (Hsome Hlen)|done]).
       eexists. reflexivity. }
  exfalso. by apply Hno.
Qed.

Lemma DatabaseStorage_updateMindMap_present (st : DatabaseStorage.t) (old : MindMap.t) :
  DatabaseStorage.getMindMap id st = Some old →
  DatabaseStorage.accepts_mindMap_update id updates st →
  ∃ new st', DatabaseStorage.updateMindMap id now updates st = inr (Some new, st') ∧
    mindMap_updated now (as_stored updates) old new ∧
    (PartialMindMap.id updates = None → DatabaseStorage.getMindMap id st' = Some new) ∧
    (∀ id', id' ≠ id → PartialMindMap.id updates ≠ Some id' →
       DatabaseStorage.getMindMap id' st' = DatabaseStorage.getMindMap id' st) ∧
    DatabaseStorage.with_mindMaps st' (DatabaseStorage.mindMaps st) = st.
Proof.
  intros Hold Haccepts. rewrite DatabaseStorage_updateMindMap_accepted by done.
  unfold DatabaseStorage.getMindMap, DatabaseStorage.db_select in *.
  destruct (DatabaseStorage.db_update set _ _) as [result table] eqn:Hupdate.
  assert (result = set <$> filter (λ r, MindMap.id r = id) (DatabaseStorage.mindMaps st))
    as Hresult by (by injection Hupdate).
  assert (table = (DatabaseStorage.db_update set (λ r, MindMap.id r = id)
                     (DatabaseStorage.mindMaps st)).2) as Htable by (by rewrite Hupdate).
  exists (set old), (DatabaseStorage.with_mindMaps st table).
  split; [|split; [|split; [|split]]].
  - by rewrite Hresult, head_fmap_Some, Hold.
  - apply set_mindMap_updated.
  - intros Hid. simpl. rewrite Htable, db_update_select_same.
    + by rewrite head_fmap_Some, Hold.
    + intros r Hr. unfold set. simpl. by rewrite Hid.
  - intros id' Hne Hupd. simpl. rewrite Htable, db_update_select_other; [done| |].
    + intros r Hr. congruence.
    + intros r Hr. unfold set. simpl.
      destruct (PartialMindMap.id updates) as [x|]; simpl; congruence.
  - by destruct st.
Qed.

Lemma DatabaseStorage_updateMindMap_absent (st : DatabaseStorage.t) :
  DatabaseStorage.getMindMap id st = None →
  DatabaseStorage.updateMindMap id now updates st = inr (None, st).
Proof.
  unfold DatabaseStorage.getMindMap, DatabaseStorage.db_select. intros Hnone.
  apply head_None in Hnone.
  unfold DatabaseStorage.updateMindMap.
  rewrite (db_update_none _ _ _ Hnone).
  rewrite !check_true by (by left). simpl. by destruct st.
Qed.

End UpdateMindMap.

(** The update a [PUT /api/mindmaps/:id] body parses to names [title]
    and [nodes] only. *)
Lemma parse_mindmap_update_keys (body : json) (updates : PartialMindMap.t) :
  parse_mindmap_update body = inr updates →
  PartialMindMap.id updates = None ∧ PartialMindMap.userId updates = None ∧
  PartialMindMap.materialIds updates = None ∧ PartialMindMap.createdAt updates = None ∧
  PartialMindMap.updatedAt updates = None.
Proof.
  unfold parse_mindmap_update. intros Hparse. exc_inv Hparse.
  by injection Hparse as <-.
Qed.


(** ** Password hashes *)

Lemma append_String (c : ascii) (s t : string) : String c s +:+ t = String c (s +:+ t).
Proof. reflexivity. Qed.

Lemma append_empty (t : string) : "" +:+ t = t.
Proof. reflexivity. Qed.

Lemma string_length_append (s t : string) :
  String.length (s +:+ t) = (String.length s + String.length t)%nat.
Proof.
  induction s as [|c s IH]; [done|].
  rewrite append_String. simpl. by rewrite IH.
Qed.

Lemma hex_digit_not_dot (n : N) : hex_digit n ≠ "."%char.
Proof.
  unfold hex_digit.
  repeat match goal with
         | |- context [match ?x with _ => _ end] => destruct x
         end; discriminate.
Qed.

Lemma split_hex_dot (buf : list byte) (rest : string) :
  split "." (toString_hex buf +:+ "." +:+ rest) = toString_hex buf :: split "." rest.
Proof.
  induction buf as [|b buf IH]; [done|].
  change (toString_hex (b :: buf)) with (hex_of_byte b +:+ toString_hex buf).
  unfold hex_of_byte. rewrite ?append_String, ?append_empty in *.
  do 2 (cbn [split]; rewrite decide_False by apply hex_digit_not_dot).
  by rewrite IH.
Qed.

Lemma split_hex (buf : list byte) : split "." (toString_hex buf) = [toString_hex buf].
Proof.
  induction buf as [|b buf IH]; [done|].
  change (toString_hex (b :: buf)) with (hex_of_byte b +:+ toString_hex buf).
  unfold hex_of_byte. rewrite ?append_String, ?append_empty in *.
  do 2 (cbn [split]; rewrite decide_False by apply hex_digit_not_dot).
  by rewrite IH.
Qed.

Lemma Buffer_from_hex_byte (b : byte) (s : string) :
  Buffer_from_hex (hex_of_byte b +:+ s) = b :: Buffer_from_hex s.
Proof. destruct b; reflexivity. Qed.

Lemma Buffer_from_hex_toString (buf : list byte) :
  Buffer_from_hex (toString_hex buf) = buf.
Proof.
  induction buf as [|b buf IH]; [done|].
  cbn [toString_hex foldr]. fold (toString_hex buf).
  by rewrite Buffer_from_hex_byte, IH.
Qed.

Section Passwords.
Context `{Crypto}.

(** Against a hash made by [hashPassword], the comparison never throws:
    it tells whether the supplied password derives the same key under the
    stored salt. *)
Lemma comparePasswords_hashed (supplied password : string) (saltBytes : list byte) :
  comparePasswords supplied (hashPassword saltBytes password) =
  inr (bool_decide (scrypt password (toString_hex saltBytes) 64
                    = scrypt supplied (toString_hex saltBytes) 64)).
Proof.
  unfold comparePasswords, hashPassword.
  rewrite split_hex_dot, split_hex. simpl.
  rewrite Buffer_from_hex_toString. unfold timingSafeEqual.
  by rewrite decide_True by (by rewrite !scrypt_length).
Qed.

Lemma comparePasswords_same (password : string) (saltBytes : list byte) :
  comparePasswords password (hashPassword saltBytes password) = inr true.
Proof. rewrite comparePasswords_hashed. by rewrite bool_decide_true. Qed.

(** The stored form: 128 hex digits, a dot, and the hex salt. *)
Lemma toString_hex_length (buf : list byte) :
  String.length (toString_hex buf) = (2 * length buf)%nat.
Proof.
  induction buf as [|b buf IH]; [done|].
  change (toString_hex (b :: buf)) with (hex_of_byte b +:+ toString_hex buf).
  unfold hex_of_byte. rewrite !append_String, append_empty. simpl. rewrite IH. lia.
Qed.

Lemma hashPassword_length (password : string) (saltBytes : list byte) :
  String.length (hashPassword saltBytes password) = (129 + 2 * length saltBytes)%nat.
Proof.
  unfold hashPassword. rewrite !string_length_append, !toString_hex_length, scrypt_length.
  simpl. lia.
Qed.

End Passwords.

(** ** Login *)

Section Login.
Context `{Crypto} {S : Type} `{IStorage S}.
Variables (USE_JWT_AUTH : bool) (now : Date).


End Login.

(** ** Registration keeps the passwords hashed *)

Lemma snd_list_find_shift {A} (o : option (nat * A)) :
  snd <$> (prod_map Datatypes.S id <$> o) = snd <$> o.
Proof. by destruct o as [[i x]|]. Qed.

Lemma array_find_snoc {A} (P : A → Prop) `{∀ x, Decision (P x)} (l : list A) (x : A) :
  array_find P (l ++ [x]) =
  match array_find P l with
  | Some y => Some y
  | None => if decide (P x) then Some x else None
  end.
Proof.
  unfold array_find. induction l as [|a l IH]; simpl.
  - by destruct (decide (P x)).
  - destruct (decide (P a)); simpl; [done|]. by rewrite !snd_list_find_shift.
Qed.

Lemma head_filter_snoc {A} (P : A → Prop) `{∀ x, Decision (P x)} (l : list A) (x : A) :
  head (filter P (l ++ [x])) =
  match head (filter P l) with
  | Some y => Some y
  | None => if decide (P x) then Some x else None
  end.
Proof.
  rewrite filter_app. destruct (filter P l) as [|y l'] eqn:Hl; simpl.
  - rewrite filter_cons, filter_nil. by destruct (decide (P x)).
  - done.
Qed.

Lemma map_set_fresh {V} (m : JsMap V) (k : string) (v : V) :
  map_get k m = None → map_set k v m = m ++ [(k, v)].
Proof.
  induction m as [|[k0 v0] m IH]; simpl; [done|].
  destruct (decide (k0 = k)); [done|]. intros Hget. by rewrite IH.
Qed.

Section Register.
Context `{Crypto}.
Variables (USE_JWT_AUTH : bool) (id : string) (now : Date) (saltBytes : list byte)
  (body : InsertUser.t).

Lemma MemStorage_empty_hashed : users_hashed MemStorage.empty.
Proof. intros username user. discriminate. Qed.

Lemma MemStorage_register_hashed (st : MemStorage.t) :
  getUser id st = None → users_hashed st →
  users_hashed (register USE_JWT_AUTH id now saltBytes body st).2.
Proof.
  intros Hfresh Hhashed. unfold register.
  destruct (getUserByUsername _ st); [done|].
  destruct (getUserByEmail _ st); [done|].
  intros username user. simpl.
  unfold MemStorage.getUserByUsername, map_values. simpl.
  rewrite map_set_fresh by exact Hfresh.
  rewrite fmap_app. simpl. rewrite array_find_snoc.
  destruct (array_find _ (MemStorage.users st).*2) as [old|] eqn:Hold.
  - intros [= <-]. by apply (Hhashed username).
  - destruct (decide _); [|done]. intros [= <-]. simpl. by eexists _, _.
Qed.

Lemma DatabaseStorage_passwords_hashed (st : DatabaseStorage.t) :
  passwords_hashed (DatabaseStorage.users st) → users_hashed st.
Proof.
  intros Hall username user Hfound.
  apply (proj1 (Forall_forall _ _) Hall).
  apply head_Some_elem_of in Hfound. by apply list_elem_of_filter in Hfound as [_ ?].
Qed.

Lemma DatabaseStorage_register_hashed (st : DatabaseStorage.t) :
  passwords_hashed (DatabaseStorage.users st) →
  passwords_hashed (DatabaseStorage.users (register USE_JWT_AUTH id now saltBytes body st).2).
Proof.
  intros Hhashed. unfold register.
  destruct (getUserByUsername _ st); [done|].
  destruct (getUserByEmail _ st); [done|].
  destruct (createUser _ _ _ st) as [error|[created st']] eqn:Hcreate; [done|].
  apply DatabaseStorage_createUser_inr in Hcreate as (_ & Hcreated & ->). simpl.
  apply Forall_app. split; [done|]. apply Forall_singleton.
  rewrite Hcreated. simpl. by eexists _, _.
Qed.

End Register.

(** A profile update leaves names and passwords as they are. *)

Lemma array_find_Forall2 {A} (R : A → A → Prop) (P : A → Prop) `{∀ x, Decision (P x)}
    (l l' : list A) :
  Forall2 R l l' → (∀ x y, R x y → (P x ↔ P y)) →
  ∀ y, array_find P l' = Some y → ∃ x, array_find P l = Some x ∧ R x y.
Proof.
  intros Hall HP. unfold array_find.
  induction Hall as [|x y l l' Hxy Hall IH]; simpl; [done|].
  intros y'. destruct (decide (P y)) as [Hy|Hy], (decide (P x)) as [Hx|Hx]; simpl.
  - intros [= <-]. by exists x.
  - exfalso. by apply Hx, (HP x y).
  - exfalso. by apply Hy, (HP x y).
  - rewrite !snd_list_find_shift. apply IH.
Qed.

Lemma head_filter_Forall2 {A} (R : A → A → Prop) (P : A → Prop) `{∀ x, Decision (P x)}
    (l l' : list A) :
  Forall2 R l l' → (∀ x y, R x y → (P x ↔ P y)) →
  ∀ y, head (filter P l') = Some y → ∃ x, head (filter P l) = Some x ∧ R x y.
Proof.
  intros Hall HP.
  induction Hall as [|x y l l' Hxy Hall IH]; [done|].
  intros y'. rewrite !filter_cons.
  destruct (decide (P y)) as [Hy|Hy], (decide (P x)) as [Hx|Hx]; simpl.
  - intros [= <-]. by exists x.
  - exfalso. by apply Hx, (HP x y).
  - exfalso. by apply Hy, (HP x y).
  - apply IH.
Qed.

Lemma Forall2_same {A} (R : A → A → Prop) (l : list A) :
  (∀ x, R x x) → Forall2 R l l.
Proof. intros Hrefl. induction l; by constructor. Qed.

Lemma map_set_present_Forall2 {V} (R : V → V → Prop) (m : JsMap V) (k : string)
    (v v' : V) :
  (∀ x, R x x) → map_get k m = Some v → R v v' →
  Forall2 R (map_values m) (map_values (map_set k v' m)).
Proof.
  intros Hrefl. unfold map_values. induction m as [|[k0 v0] m IH]; simpl; [done|].
  destruct (decide (k0 = k)) as [->|Hne]; simpl.
  - intros [= ->] Hv. constructor; [done|]. by apply Forall2_same.
  - intros Hget Hv. constructor; [done|]. by apply IH.
Qed.

Lemma same_credentials_refl (u : User.t) : same_credentials u u.
Proof. done. Qed.

Lemma parse_profile_update_keys (body : json) (updates : PartialUser.t) :
  parse_profile_update body = inr updates →
  PartialUser.username updates = None ∧ PartialUser.password updates = None.
Proof.
  unfold parse_profile_update. intros Hparse. exc_inv Hparse.
  by injection Hparse as <-.
Qed.

Section Profile.
Context `{Crypto}.
Variables (userId : option string) (body : json).

Lemma MemStorage_put_users_profile_hashed (st : MemStorage.t) :
  users_hashed st → users_hashed (put_users_profile userId body st).2.
Proof.
  intros Hhashed. unfold put_users_profile.
  destruct (authenticated userId) as [uid|]; [|done].
  destruct (parse_profile_update body) as [error|updates] eqn:Hparse; [done|].
  apply parse_profile_update_keys in Hparse as [Hname Hpw].
  simpl. unfold MemStorage.updateUser.
  destruct (map_get uid (MemStorage.users st)) as [user|] eqn:Huser; [|done].
  intros username found. simpl. unfold MemStorage.getUserByUsername. simpl.
  intros Hfound.
  eapply (array_find_Forall2 same_credentials) in Hfound as (old & Hold & _ & Hsame).
  - destruct (Hhashed username old Hold) as (saltBytes & password & Hstored).
    exists saltBytes, password. by rewrite <- Hsame.
  - eapply map_set_present_Forall2; [apply same_credentials_refl|done|].
    split; simpl; [by rewrite Hname|by rewrite Hpw].
  - intros x y [Hxy _]. by rewrite Hxy.
Qed.

Lemma DatabaseStorage_updateUser_inr (id : string) (updates : PartialUser.t)
    (st st' : DatabaseStorage.t) (result : option User.t) :
  DatabaseStorage.updateUser id updates st = inr (result, st') →
  DatabaseStorage.sets_user_column updates ∧
  result = head (DatabaseStorage.set_user updates
                 <$> filter (λ r, User.id r = id) (DatabaseStorage.users st)) ∧
  st' = DatabaseStorage.with_users st
          (DatabaseStorage.db_update (DatabaseStorage.set_user updates)
             (λ r, User.id r = id) (DatabaseStorage.users st)).2.
Proof.
  unfold DatabaseStorage.updateUser, DatabaseStorage.db_update. cbv zeta.
  intros Hupdate. exc_inv Hupdate. checks_inv. by injection Hupdate as <- <-.
Qed.

Lemma DatabaseStorage_put_users_profile_hashed (st : DatabaseStorage.t) :
  passwords_hashed (DatabaseStorage.users st) →
  passwords_hashed (DatabaseStorage.users (put_users_profile userId body st).2).
Proof.
  intros Hhashed. unfold put_users_profile.
  destruct (authenticated userId) as [uid|]; [|done].
  destruct (parse_profile_update body) as [error|updates] eqn:Hparse; [done|].
  apply parse_profile_update_keys in Hparse as [Hname Hpw].
  destruct (updateUser uid updates st) as [error|[result st']] eqn:Hupdate; [done|].
  apply DatabaseStorage_updateUser_inr in Hupdate as (_ & _ & ->).
  assert (passwords_hashed (DatabaseStorage.db_update (DatabaseStorage.set_user updates)
                              (λ r, User.id r = uid) (DatabaseStorage.users st)).2) as Hnew.
  { unfold DatabaseStorage.db_update. simpl. apply Forall_app. split.
    - by apply Forall_filter.
    - apply Forall_fmap. apply Forall_filter.
      eapply Forall_impl; [exact Hhashed|].
      intros user (salt & password & Hstored). exists salt, password. simpl.
      by rewrite Hpw. }
  by destruct result.
Qed.

End Profile.

Lemma mem_people_hashed : users_hashed (H:=sample_crypto) mem_people.
Proof.
  apply (MemStorage_register_hashed (H:=sample_crypto)); [reflexivity|].
  apply (MemStorage_register_hashed (H:=sample_crypto)); [reflexivity|].
  apply MemStorage_empty_hashed.
Qed.

Example login_of_alice :
  (∃ user, login (H:=sample_crypto) false 2000 "alice" "s3cret" mem_people
           = Sent (mkResponse 200 (BUser user None)) ∧
           UserWithoutPassword.username user = "alice") ∧
  login (H:=sample_crypto) false 2000 "alice" "S3cret" mem_people
  = Sent (json_error 401 "Invalid credentials") ∧
  login (H:=sample_crypto) false 2000 "carol" "s3cret" mem_people
  = Sent (json_error 401 "Invalid credentials").
Proof. split; [eexists; split; reflexivity|]. split; reflexivity. Qed.

(** Why the statement is about hashed stores: on a password stored as it
    came, [comparePasswords] throws and the handler calls [next]. *)
Example login_on_plain_password :
  login (H:=sample_crypto) false 2000 "eve" "letmein" store_with_plain_password
  = Next "TypeError: The salt argument must be of type string".
Proof. reflexivity. Qed.


(** ** Scoring a quiz attempt *)

(** Where a select by key finds a row, and where it finds none. *)
Lemma head_filter_key_None {A} (key : A → string) (k : string) (l : list A) :
  head (filter (λ r, key r = k) l) = None → k ∉ key <$> l.
Proof.
  intros Hnone [r [-> Hr]]%list_elem_of_fmap. apply head_None in Hnone.
  assert (r ∈ filter (λ r', key r' = key r) l) as Hin by (by apply list_elem_of_filter).
  rewrite Hnone in Hin. by apply elem_of_nil in Hin.
Qed.

Lemma head_filter_key_Some {A} (key : A → string) (k : string) (l : list A) (r : A) :
  head (filter (λ r, key r = k) l) = Some r → k ∈ key <$> l.
Proof.
  intros Hsome%head_Some_elem_of. apply list_elem_of_filter in Hsome as [<- Hr].
  by apply list_elem_of_fmap_2.
Qed.

(** The answers object for a body that holds strings: what was
    submitted, without the key [__proto__]. *)
Lemma z_record_pairs (submitted : list (string * string)) :
  mapM (λ kv : string * json, v ← z_string (Some kv.2); mret (kv.1, v))
    ((λ kv : string * string, (kv.1, JStr kv.2)) <$> submitted)
  = inr submitted.
Proof.
  induction submitted as [|[k v] submitted IH]; [done|].
  rewrite fmap_cons. cbn [mapM]. rewrite IH. reflexivity.
Qed.

Lemma parse_attempt_body (submitted : list (string * string)) :
  parse_attempt (attempt_body submitted) = inr (parsed_answers submitted).
Proof.
  unfold parse_attempt, attempt_body. simpl.
  change (mapM _ _) with
    (mapM (λ kv : string * json, v ← z_string (Some kv.2); mret (kv.1, v))
       ((λ kv : string * string, (kv.1, JStr kv.2)) <$> submitted)).
  by rewrite z_record_pairs.
Qed.

Lemma parsed_answers_lookup (submitted : list (string * string)) (k : string) :
  parsed_answers submitted !! k
  = if decide (k = "__proto__") then None
    else (list_to_map submitted : gmap string string) !! k.
Proof.
  unfold parsed_answers. induction submitted as [|[k0 v0] submitted IH].
  - simpl. rewrite lookup_empty. by destruct (decide _).
  - rewrite filter_cons. simpl. destruct (decide (k0 ≠ "__proto__")) as [Hk0|Hk0].
    + simpl. destruct (decide (k0 = k)) as [->|Hne].
      * rewrite !lookup_insert_eq. by rewrite decide_False.
      * rewrite !lookup_insert_ne by done. exact IH.
    + apply dec_stable in Hk0 as ->. rewrite IH.
      destruct (decide (k = "__proto__")) as [->|Hne]; [done|].
      by rewrite lookup_insert_ne.
Qed.

Lemma grade_question (answers : gmap string string) (j : json) (q : QuizQuestion.t) :
  reads_as j q → ∃ r, grade answers j = inr r ∧ graded_as answers q r.
Proof.
  intros (Hid & Hcorrect). unfold grade. rewrite Hid, Hcorrect. simpl.
  destruct j as [| | | | |fields]; try discriminate. simpl.
  eexists. split; [reflexivity|]. unfold graded_as. simpl.
  split; [done|]. split; [done|]. split; [done|]. unfold object_get.
  destruct (answers !! QuizQuestion.id q) as [a|]; simpl.
  - apply bool_decide_ext. split; congruence.
  - by destruct (bool_decide (_ ∈ Object_prototype)).
Qed.

Lemma grade_all_questions (answers : gmap string string) (items : list json)
    (qs : list QuizQuestion.t) :
  Forall2 reads_as items qs →
  ∃ results, grade_all answers (JArr items) = inr results ∧
    Forall2 (graded_as answers) qs results.
Proof.
  simpl. induction 1 as [|j q items qs Hq Hall (results & IH & Hresults)].
  - by exists [].
  - destruct (grade_question answers j q Hq) as (r & Hr & Hgraded).
    exists (r :: results). cbn [mapM]. rewrite Hr, IH. split; [done|]. by constructor.
Qed.

Lemma count_correct_graded (answers : gmap string string) (qs : list QuizQuestion.t)
    (results : list AttemptResult.t) :
  Forall2 (graded_as answers) qs results →
  count_correct results = correct_answers answers qs.
Proof.
  unfold count_correct, correct_answers.
  induction 1 as [|q r qs results (_ & _ & _ & Hr) Hall IH]; [done|].
  rewrite !filter_cons, Hr.
  destruct (decide (answers !! QuizQuestion.id q = Some (QuizQuestion.correctAnswer q)))
    as [Heq|Hne].
  - rewrite bool_decide_true by done. rewrite decide_True by done. simpl. by rewrite IH.
  - rewrite bool_decide_false by done. rewrite decide_False by done. exact IH.
Qed.

(** Counted on the answers object, the key [__proto__] is out. *)
Lemma correct_answers_parsed (submitted : list (string * string))
    (qs : list QuizQuestion.t) :
  correct_answers (parsed_answers submitted) qs
  = correct_answers_but_proto (list_to_map submitted) qs.
Proof.
  unfold correct_answers, correct_answers_but_proto. f_equal.
  apply list_filter_iff. intros q. rewrite parsed_answers_lookup.
  destruct (decide (QuizQuestion.id q = "__proto__")) as [Hproto|Hproto].
  - split; [done|]. by intros [? _].
  - split; [done|]. by intros [_ ?].
Qed.

Lemma correct_answers_but_proto_all_wrong (answers : gmap string string)
    (qs : list QuizQuestion.t) :
  Forall (λ q, answers !! QuizQuestion.id q ≠ Some (QuizQuestion.correctAnswer q)) qs →
  correct_answers_but_proto answers qs = 0%nat.
Proof.
  unfold correct_answers_but_proto. intros Hwrong. rewrite filter_none; [done|].
  intros q Hq [_ Hright]. by apply (proj1 (Forall_forall _ _) Hwrong q).
Qed.

Section Attempt.
Context {S : Type} `{IStorage S}.
Variables (userId : option string) (uid id : string) (submitted : list (string * string))
  (items : list json) (qs : list QuizQuestion.t) (attemptId : string) (now : Date).

(** Up to the storage write, the handler is the same on every storage. *)
Lemma post_quiz_attempt_graded (st : S) (quiz : Quiz.t) :
  authenticated userId = Some uid →
  getQuiz id st = Some quiz →
  Quiz.questions quiz = JArr items →
  Forall2 reads_as items qs →
  ∃ results,
    Forall2 (graded_as (parsed_answers submitted)) qs results ∧
    post_quiz_attempt userId id (attempt_body submitted) attemptId now st =
    match
      createQuizAttempt attemptId now
        (InsertQuizAttempt.mk id (JArr (result_to_json <$> results))
           (correct_answers_but_proto (list_to_map submitted) qs) (length qs) uid) st
    with
    | inl error => (json_error 400 error, st)
    | inr (attempt, st') => (mkResponse 200 (BAttempt attempt results), st')
    end.
Proof.
  intros Hauth Hquiz Hitems Hqs. unfold post_quiz_attempt.
  destruct (grade_all_questions (parsed_answers submitted) _ _ Hqs)
    as (results & Hgrade & Hresults).
  exists results. split; [done|].
  rewrite Hauth, parse_attempt_body, Hquiz, Hitems, Hgrade.
  rewrite (count_correct_graded _ _ _ Hresults), correct_answers_parsed. simpl.
  by rewrite (Forall2_length _ _ _ Hqs).
Qed.

End Attempt.




(** Why the questions are taken to name a correct answer: where there is
    none, a question left unanswered counts as correct, [undefined] being
    identical to [undefined]. *)
Example unanswered_question_without_answer_scores :
  ∃ attempt results,
    (post_quiz_attempt (Some "bob") "quiz-3" (attempt_body []) "attempt-1" 2000
       mem_with_bare_quiz).1 = mkResponse 200 (BAttempt attempt results) ∧
    QuizAttempt.score attempt = 1%nat.
Proof. eexists _, _. vm_compute. repeat split. Qed.

Example one_right_scores_one_of_two :
  ∃ attempt results,
    (post_quiz_attempt (Some "bob") "quiz-1" (attempt_body one_right) "attempt-1" 2000
       mem_with_quiz).1 = mkResponse 200 (BAttempt attempt results) ∧
    QuizAttempt.score attempt = 1%nat ∧ QuizAttempt.totalQuestions attempt = 2%nat ∧
    AttemptResult.isCorrect <$> results = [true; false].
Proof. eexists _, _. vm_compute. repeat split. Qed.



(** ** Ownership checks *)

Section Ownership.
Context {S : Type} `{IStorage S}.
Variables (userId : option string) (id : string) (st : S).

(** The handlers that compare the owner with the requester answer 404 to
    anyone else and leave the store alone. *)
Lemma delete_material_not_owner (material : Material.t) :
  getMaterial id st = Some material → userId ≠ Some (Material.userId material) →
  delete_material userId id st = (json_error 404 "Material not found", st).
Proof.
  intros Hget Hother. unfold delete_material. rewrite Hget.
  by rewrite decide_False by congruence.
Qed.

Lemma get_conversation_messages_not_owner (conversation : Conversation.t) :
  getConversation id st = Some conversation →
  userId ≠ Some (Conversation.userId conversation) →
  get_conversation_messages userId id st = json_error 404 "Conversation not found".
Proof.
  intros Hget Hother. unfold get_conversation_messages. rewrite Hget.
  by rewrite decide_False by congruence.
Qed.

Lemma post_conversation_message_not_owner (conversation : Conversation.t)
    (key : option string) (fetch : ChatCompletionRequest → FetchResponse)
    (system_prompt : string → string) (body : json) (parsed : string * option (list string))
    (userMessageId assistantMessageId : string) (now later : Date) :
  parse_message body = inr parsed →
  getConversation id st = Some conversation →
  userId ≠ Some (Conversation.userId conversation) →
  post_conversation_message key fetch system_prompt userId id body userMessageId
    assistantMessageId now later st
  = (json_error 404 "Conversation not found", st).
Proof.
  intros Hparse Hget Hother. unfold post_conversation_message.
  rewrite Hparse, Hget. destruct parsed as [content materialIds].
  by rewrite decide_False by congruence.
Qed.

Lemma put_mindmap_not_owner (mindMap : MindMap.t) (body : json) (now : Date)
    (updates : PartialMindMap.t) :
  parse_mindmap_update body = inr updates →
  getMindMap id st = Some mindMap → userId ≠ Some (MindMap.userId mindMap) →
  put_mindmap userId id body now st = (json_error 404 "Mind map not found", st).
Proof.
  intros Hparse Hget Hother. unfold put_mindmap. rewrite Hparse, Hget.
  by rewrite decide_False by congruence.
Qed.

End Ownership.

(** C1.  [POST /api/quizzes/:id/attempt] does not compare the owner of the
    quiz with the requester.  The quiz ["quiz-1"] belongs to alice; bob,
    authenticated, submits an attempt against it and is answered 200, not
    404: the response carries the correct answer of every question of
    alice's quiz, and an attempt referring to her quiz is written to the
    store.  The same happens on the database store. *)
Theorem attempt_on_foreign_quiz_is_accepted :
  Quiz.userId <$> getQuiz "quiz-1" mem_with_quiz = Some "alice" ∧
  (let '(res, st') :=
     post_quiz_attempt (Some "bob") "quiz-1" (attempt_body [("q1", "D")]) "attempt-1" 2000
       mem_with_quiz in
   status res = 200 ∧
   (∃ attempt results, body res = BAttempt attempt results ∧
      AttemptResult.correctAnswer <$> results = [Some (JStr "A"); Some (JStr "B")]) ∧
   QuizAttempt.quizId <$> getQuizAttemptsByUser "bob" st' = ["quiz-1"]) ∧
  (let '(res, st') :=
     post_quiz_attempt (Some "bob") "quiz-1" (attempt_body [("q1", "D")]) "attempt-1" 2000
       db_with_quiz in
   status res = 200 ∧
   QuizAttempt.quizId <$> getQuizAttemptsByUser "bob" st' = ["quiz-1"]).
Proof.
  split; [reflexivity|]. split.
  - vm_compute. split; [reflexivity|]. split; [|reflexivity].
    eexists _, _. split; reflexivity.
  - vm_compute. split; reflexivity.
Qed.

(** ** Gateway failures *)

Section GatewayFailure.
Context {S : Type} `{IStorage S}.
Variables (OPENROUTER_API_KEY : option string)
  (fetch : ChatCompletionRequest → FetchResponse)
  (JSON_parse : string → option json)
  (quiz_prompt : Z → string → string → string → string)
  (userId : option string) (uid : string) (body : json) (id : string) (now : Date) (st : S).

(** Whatever the request, a gateway answer outside 2xx ends
    [POST /api/quizzes/generate] in its [catch] clause, which answers 400
    with the message of the error. *)
Lemma post_quizzes_generate_gateway_error (b : GenerateQuizBody) (client : string) :
  authenticated userId = Some uid →
  parse_generate_quiz body = inr b →
  createOpenRouterClient OPENROUTER_API_KEY = inr client →
  (∀ request, fetch_ok (fetch request) = false) →
  ∃ request,
    post_quizzes_generate OPENROUTER_API_KEY fetch JSON_parse quiz_prompt userId body id
      now st
    = (json_error 400
         ("OpenRouter API error: " +:+ pretty (fetch_status (fetch request)) +:+ " - "
          +:+ fetch_text (fetch request)), st).
Proof.
  intros Hauth Hparse Hclient Hdown. eexists.
  unfold post_quizzes_generate, generate_quiz_data.
  rewrite Hauth, Hparse, Hclient. simpl. unfold chat. rewrite Hdown. reflexivity.
Qed.

End GatewayFailure.

(** C4.  With the gateway answering 502, [POST /api/quizzes/generate] and
    [POST /api/mindmaps/generate] answer 400, the status of a validation
    error, with the text of the upstream error; neither answers 500. *)
Theorem generation_reports_gateway_failure_as_400 :
  post_quizzes_generate (Some "sk-or-key") gateway_down sample_parse sample_quiz_prompt
    (Some "alice") generate_body "quiz-2" 2000 mem_people
  = (json_error 400 "OpenRouter API error: 502 - Bad Gateway", mem_people) ∧
  post_mindmaps_generate (Some "sk-or-key") gateway_down sample_parse sample_mindmap_prompt
    (Some "alice") generate_body "map-2" 2000 mem_people
  = (json_error 400 "OpenRouter API error: 502 - Bad Gateway", mem_people).
Proof. split; reflexivity. Qed.

Example upload_reports_gateway_failure_as_500 :
  post_materials_upload (Some "sk-or-key") gateway_down (Some "alice")
    (Some (mkUploadedFile "board.png" "image/png" 512 "/tmp/upload-4" "" "iVBORw0KGgo="
             None))
    "material-1" 1000 mem_people
  = (json_error 500 "OpenRouter API error: 502 - Bad Gateway", mem_people).
Proof. reflexivity. Qed.

(** ** Materials *)

(** What [MemStorage.createMaterial] returns is what [getMaterial] finds
    under the returned id; file name and type are the submitted ones, the
    content is the submitted one unless that is empty. *)
Lemma MemStorage_createMaterial_getMaterial (id : string) (now : Date)
    (material : InsertMaterial.t) (st : MemStorage.t) :
  let '(created, st') := MemStorage.createMaterial id now material st in
  MemStorage.getMaterial (Material.id created) st' = Some created ∧
  Material.filename created = InsertMaterial.filename material ∧
  Material.type created = InsertMaterial.type material ∧
  Material.content created = or_null truthy_string (InsertMaterial.content material).
Proof.
  simpl. split; [|done]. unfold MemStorage.getMaterial. simpl. apply map_get_set_eq.
Qed.

Lemma or_null_nonempty (text : string) :
  text ≠ "" → or_null truthy_string (Some text) = Some text.
Proof.
  intros Hne. unfold or_null, truthy_string.
  destruct (String.eqb_spec text ""); [done|done].
Qed.

(** A text upload with something in it is stored and found again with its
    name, the type ["text"] and its text. *)
Lemma upload_text_roundtrip (key : option string)
    (fetch : ChatCompletionRequest → FetchResponse) (uid id : string) (now : Date)
    (file : UploadedFile) (st : MemStorage.t) :
  truthy_string uid = true →
  String.prefix "text/" (mimetype file) = true → read_utf8 file ≠ "" →
  unlink_error file = None →
  ∃ material st',
    post_materials_upload key fetch (Some uid) (Some file) id now st
    = (mkResponse 200 (BMaterial material), st') ∧
    getMaterial (Material.id material) st' = Some material ∧
    Material.filename material = originalname file ∧
    Material.type material = "text" ∧
    Material.content material = Some (read_utf8 file).
Proof.
  intros Huid Htext Hne Hunlink. unfold post_materials_upload, extract_content. simpl.
  rewrite Huid, Htext, Hunlink. simpl. eexists _, _. split; [reflexivity|]. simpl.
  assert (truthy_string (read_utf8 file) = true) as ->.
  { unfold truthy_string. by destruct (String.eqb_spec (read_utf8 file) ""). }
  split; [|done].
  unfold MemStorage.getMaterial. simpl. apply map_get_set_eq.
Qed.

Example upload_notes_txt :
  ∃ material st',
    post_materials_upload None gateway_down (Some "alice") (Some notes_txt)
      "material-1" 1000 mem_people
    = (mkResponse 200 (BMaterial material), st') ∧
    getMaterial (Material.id material) st' = Some material ∧
    Material.filename material = "notes.txt" ∧
    Material.type material = "text" ∧
    Material.content material = Some "photosynthesis converts light to energy".
Proof. by apply upload_text_roundtrip. Qed.

(** C5.  The round trip loses an empty content.  For every PDF the upload
    handler submits the content [""]; [MemStorage.createMaterial] stores
    [null] in its place, so the record fetched back by the returned id has
    a content different from the submitted one. *)
Theorem createMaterial_drops_empty_content :
  let '(created, st') :=
    MemStorage.createMaterial "material-1" 1000 scan_pdf_data mem_people in
  post_materials_upload None gateway_down (Some "alice") (Some scan_pdf)
    "material-1" 1000 mem_people = (mkResponse 200 (BMaterial created), st') ∧
  MemStorage.getMaterial (Material.id created) st' = Some created ∧
  InsertMaterial.content scan_pdf_data = Some "" ∧
  Material.content created = None.
Proof. vm_compute. repeat split. Qed.

(** The type tag the upload handler stores is one of four. *)
Lemma extract_content_type (key : option string)
    (fetch : ChatCompletionRequest → FetchResponse) (file : UploadedFile)
    (content type : string) :
  extract_content key fetch file = inr (content, type) →
  type ∈ ["text"; "pdf"; "image"; "file"].
Proof.
  unfold extract_content.
  destruct (String.prefix "text/" (mimetype file)).
  { intros [= _ <-]. set_solver. }
  destruct (decide (mimetype file = "application/pdf")).
  { intros [= _ <-]. set_solver. }
  destruct (String.prefix "image/" (mimetype file)).
  - intros Himage. exc_inv Himage. injection Himage as _ <-. set_solver.
  - intros [= _ <-]. set_solver.
Qed.

(** C6.  A video upload is stored with the type tag ["file"], which is
    none of pdf, image, video, youtube, text. *)
Theorem upload_stores_type_outside_the_documented_set :
  ∃ material st',
    post_materials_upload None gateway_down (Some "alice") (Some lecture_mp4)
      "material-1" 1000 mem_people
    = (mkResponse 200 (BMaterial material), st') ∧
    getMaterial "material-1" st' = Some material ∧
    Material.type material = "file" ∧
    Material.type material ∉ material_types.
Proof.
  eexists _, _. split; [reflexivity|]. split; [reflexivity|]. split; [reflexivity|].
  simpl. unfold material_types. rewrite !not_elem_of_cons.
  repeat split; try discriminate. apply not_elem_of_nil.
Qed.

(** C9.  The same [createMaterial] call, with the same id and instant,
    returns different records in the two implementations: for the payload
    of a PDF upload [MemStorage] answers and stores the content [null],
    [DatabaseStorage] the content [""]. *)
Theorem storages_differ_on_empty_content :
  ∃ mem db,
    createMaterial "material-1" 1000 scan_pdf_data mem_people = inr mem ∧
    createMaterial "material-1" 1000 scan_pdf_data db_people = inr db ∧
    Material.content mem.1 = None ∧
    Material.content db.1 = Some "" ∧
    (Material.content <$> getMaterial "material-1" mem.2) = Some None ∧
    (Material.content <$> getMaterial "material-1" db.2) = Some (Some "") ∧
    mem.1 ≠ db.1.
Proof. eexists _, _. vm_compute. repeat split. discriminate. Qed.

Example Number_toString_examples :
  Number_toString 51 = "51" ∧ Number_toString (-42) = "-42" ∧
  Number_toString (2 ^ 53 + 1) = "9007199254740992" ∧
  Number_toString (2 ^ 64) = "18446744073709552000" ∧
  Number_toString 999999999999999999999 = "1e+21" ∧
  Number_toString (2 ^ 70) = "1.1805916207174113e+21" ∧
  Number_toString (10 ^ 23) = "1e+23".
Proof. vm_compute. repeat split. Qed.

Example match_video_id_examples :
  match_video_id "https://www.youtube.com/watch?v=dQw4w9WgXcQ&t=42" = Some "dQw4w9WgXcQ" ∧
  match_video_id "https://youtu.be/9bZkp7q19f0?si=abc" = Some "9bZkp7q19f0" ∧
  match_video_id "https://www.youtube.com/watch?v=" = None ∧
  match_video_id "https://example.org/watch?v=1" = None.
Proof. repeat split; reflexivity. Qed.

(** A material made from a YouTube link always carries the tag
    ["youtube"]. *)
Lemma post_materials_youtube_type {S} `{IStorage S} (is_url : string → bool)
    (userId : option string) (body : json) (id : string) (now : Date) (st st' : S)
    (material : Material.t) :
  (∀ id now data st created st',
     createMaterial id now data st = inr (created, st') →
     Material.type created = InsertMaterial.type data) →
  post_materials_youtube is_url userId body id now st
  = (mkResponse 200 (BMaterial material), st') →
  Material.type material = "youtube".
Proof.
  intros Hcreate. unfold post_materials_youtube.
  destruct (authenticated userId) as [uid|]; [|done].
  destruct (_ ≫= _) as [error|url]; [done|].
  destruct (match_video_id url) as [videoId|]; [|done].
  match goal with
  | |- context [createMaterial id now ?data st] =>
      specialize (Hcreate id now data st);
      destruct (createMaterial id now data st) as [error|[created st'']]; [done|]
  end.
  intros [= <- _]. by apply (Hcreate created st'').
Qed.

(** ** The stored password *)

Section StoredPassword.
Context `{Crypto}.
Variables (USE_JWT_AUTH : bool) (id : string) (now : Date) (saltBytes : list byte)
  (body : InsertUser.t).

(** When [POST /api/register] creates a user, the password it stores is
    [hashPassword] of the submitted one: the hex of the 64-byte scrypt key,
    a dot, and the hex of the salt. *)
Lemma MemStorage_register_stores_hash (st st' : MemStorage.t)
    (user : UserWithoutPassword.t) (token : option string) :
  register USE_JWT_AUTH id now saltBytes body st
  = (Sent (mkResponse 201 (BUser user token)), st') →
  ∃ stored, getUser id st' = Some stored ∧ without_password stored = user ∧
    User.password stored
    = toString_hex (scrypt (InsertUser.password body) (toString_hex saltBytes) 64)
      +:+ "." +:+ toString_hex saltBytes.
Proof.
  unfold register.
  destruct (getUserByUsername _ st); [done|].
  destruct (getUserByEmail _ st); [done|].
  simpl. intros [= <- _ <-]. eexists. split; [|done].
  unfold MemStorage.getUser. simpl. apply map_get_set_eq.
Qed.

(** With the 16 salt bytes of [randomBytes(16)] the stored password has
    161 characters, so it differs from any plaintext of another length. *)
Lemma hashPassword_differs_by_length :
  length saltBytes = 16%nat → String.length (InsertUser.password body) ≠ 161%nat →
  hashPassword saltBytes (InsertUser.password body) ≠ InsertUser.password body.
Proof.
  intros Hsalt Hlen Heq. apply Hlen. rewrite <- Heq at 1.
  rewrite hashPassword_length, Hsalt. reflexivity.
Qed.

(** Whatever the plaintext, at most one salt can make the stored
    password equal to it. *)
Lemma hashPassword_equals_plaintext_for_one_salt (password : string)
    (salt1 salt2 : list byte) :
  hashPassword salt1 password = password → hashPassword salt2 password = password →
  salt1 = salt2.
Proof.
  intros H1 H2.
  assert (split "." (hashPassword salt1 password)
          = split "." (hashPassword salt2 password)) as Hsplit by congruence.
  unfold hashPassword in Hsplit. rewrite !split_hex_dot, !split_hex in Hsplit.
  injection Hsplit as _ Hsalt.
  rewrite <- (Buffer_from_hex_toString salt1), <- (Buffer_from_hex_toString salt2).
  by rewrite Hsalt.
Qed.

End StoredPassword.

(** * Further properties of the code *)

(** ** Password hashing *)

(** X1.  [comparePasswords] never throws on a string made by
    [hashPassword]: it returns [true] for the password that was hashed,
    and for any other password it returns whether scrypt derives the same
    64-byte key under the stored salt. *)
Theorem comparePasswords_accepts_what_hashPassword_made `{Crypto}
    (password supplied : string) (saltBytes : list byte) :
  comparePasswords password (hashPassword saltBytes password) = inr true ∧
  ∃ same, comparePasswords supplied (hashPassword saltBytes password) = inr same ∧
    (same = true ↔
     scrypt password (toString_hex saltBytes) 64
     = scrypt supplied (toString_hex saltBytes) 64).
Proof.
  split; [apply comparePasswords_same|].
  eexists. split; [apply comparePasswords_hashed|]. apply bool_decide_eq_true.
Qed.

Lemma split_without_separator (sep : ascii) (s : string) :
  sep ∉ String.list_ascii_of_string s → split sep s = [s].
Proof.
  induction s as [|c s IH]; [done|]. simpl. intros Hnot.
  apply not_elem_of_cons in Hnot as [Hc Hs].
  rewrite decide_False by congruence. by rewrite IH.
Qed.

Lemma split_nonempty (sep : ascii) (s : string) : ∃ piece pieces, split sep s = piece :: pieces.
Proof.
  induction s as [|c s (piece & pieces & IH)]; simpl; [by eexists _, _|].
  destruct (decide (c = sep)); [by eexists _, _|]. rewrite IH. by eexists _, _.
Qed.

(** X2.  [comparePasswords] throws on a stored value that [hashPassword]
    cannot have made: with no dot in it the salt is [undefined] and scrypt
    raises a [TypeError]; with a hex part before the first dot that does
    not decode to 64 bytes, [timingSafeEqual] raises a [RangeError]. *)
Theorem comparePasswords_throws_on_malformed_hash `{Crypto}
    (supplied stored rest : string) (buf : list byte) :
  ("."%char ∉ String.list_ascii_of_string stored →
   comparePasswords supplied stored
   = inl "TypeError: The salt argument must be of type string") ∧
  (length buf ≠ 64%nat →
   comparePasswords supplied (toString_hex buf +:+ "." +:+ rest)
   = inl "RangeError: Input buffers must have the same byte length").
Proof.
  split.
  - intros Hnodot. unfold comparePasswords. by rewrite split_without_separator.
  - intros Hlen. unfold comparePasswords. rewrite split_hex_dot.
    destruct (split_nonempty "." rest) as (salt & pieces & ->). simpl.
    rewrite Buffer_from_hex_toString. unfold timingSafeEqual.
    by rewrite decide_False by (by rewrite scrypt_length).
Qed.

Lemma comparePasswords_throws_on_malformed_hash_witness :
  comparePasswords (H:=sample_crypto) "letmein" "letmein"
  = inl "TypeError: The salt argument must be of type string" ∧
  comparePasswords (H:=sample_crypto) "letmein" (toString_hex [x01; x02] +:+ "." +:+ "00ff")
  = inl "RangeError: Input buffers must have the same byte length".
Proof.
  destruct (comparePasswords_throws_on_malformed_hash (H:=sample_crypto)
              "letmein" "letmein" "00ff" [x01; x02]) as [Hdot Hlen].
  split.
  - apply Hdot. simpl. rewrite !not_elem_of_cons. repeat split; try discriminate.
    apply not_elem_of_nil.
  - apply Hlen. simpl. lia.
Defined.

(** ** Registration *)

Lemma array_find_None {A} (P : A → Prop) `{∀ x, Decision (P x)} (l : list A) :
  array_find P l = None → ∀ x, x ∈ l → ¬ P x.
Proof.
  unfold array_find. intros Hnone x Hx.
  apply fmap_None, list_find_None in Hnone.
  by apply (proj1 (Forall_forall _ _) Hnone).
Qed.

Lemma head_filter_None {A} (P : A → Prop) `{∀ x, Decision (P x)} (l : list A) :
  head (filter P l) = None → ∀ x, x ∈ l → ¬ P x.
Proof.
  intros Hnone x Hx HP. apply head_None in Hnone.
  assert (x ∈ filter P l) as Hin by (by apply list_elem_of_filter).
  rewrite Hnone in Hin. by apply elem_of_nil in Hin.
Qed.

Lemma NoDup_snoc_fresh {A B} (f : A → B) (l : list A) (x : A) :
  NoDup (f <$> l) → (∀ y, y ∈ l → f y ≠ f x) → NoDup (f <$> (l ++ [x])).
Proof.
  intros Hnodup Hfresh. rewrite fmap_app. apply NoDup_app. split; [done|]. split.
  - intros b Hb Hx. apply list_elem_of_fmap in Hb as (y & -> & Hy).
    simpl in Hx. apply list_elem_of_singleton in Hx. by apply (Hfresh y).
  - simpl. apply NoDup_singleton.
Qed.

Section RegisterMore.
Context `{Crypto}.
Variables (USE_JWT_AUTH : bool) (id : string) (now later : Date)
  (saltBytes : list byte) (body : InsertUser.t).

Let token : option string :=
  if USE_JWT_AUTH then Some (jwt_sign id now) else None.
Let token' : option string :=
  if USE_JWT_AUTH then Some (jwt_sign id later) else None.

Lemma MemStorage_register_then_login (st : MemStorage.t) :
  getUser id st = None →
  getUserByUsername (InsertUser.username body) st = None →
  getUserByEmail (InsertUser.email body) st = None →
  ∃ user st',
    register USE_JWT_AUTH id now saltBytes body st
    = (Sent (mkResponse 201 (BUser user token)), st') ∧
    UserWithoutPassword.id user = id ∧
    login USE_JWT_AUTH later (InsertUser.username body) (InsertUser.password body) st'
    = Sent (mkResponse 200 (BUser user token')).
Proof.
  intros Hfresh Hname Hmail. unfold register. rewrite Hname, Hmail. simpl.
  eexists _, _. split; [reflexivity|]. split; [reflexivity|].
  unfold login. simpl. unfold MemStorage.getUserByUsername, map_values. simpl.
  rewrite map_set_fresh by exact Hfresh. rewrite fmap_app. simpl.
  rewrite array_find_snoc. simpl in Hname.
  unfold MemStorage.getUserByUsername, map_values in Hname. rewrite Hname. simpl.
  rewrite decide_True by done. simpl. by rewrite comparePasswords_same.
Qed.

Lemma DatabaseStorage_register_then_login (st : DatabaseStorage.t) :
  getUser id st = None →
  InsertUser.plan body ≠ ONull → InsertUser.language body ≠ ONull →
  getUserByUsername (InsertUser.username body) st = None →
  getUserByEmail (InsertUser.email body) st = None →
  ∃ user st',
    register USE_JWT_AUTH id now saltBytes body st
    = (Sent (mkResponse 201 (BUser user token)), st') ∧
    UserWithoutPassword.id user = id ∧
    login USE_JWT_AUTH later (InsertUser.username body) (InsertUser.password body) st'
    = Sent (mkResponse 200 (BUser user token')).
Proof.
  intros Hfresh Hplan Hlanguage Hname Hmail. unfold register. rewrite Hname, Hmail.
  match goal with
  | |- context [createUser _ _ ?data _] =>
      assert (DatabaseStorage.accepts_user id data st) as Haccepts
  end.
  { split; [done|]. split; [done|].
    split; [by apply head_filter_key_None|].
    split; by apply head_filter_key_None. }
  cbn [createUser DatabaseStorage_IStorage].
  db_insert DatabaseStorage_createUser_inr Haccepts. simpl.
  eexists _, _. split; [reflexivity|]. split; [reflexivity|].
  unfold login. simpl.
  unfold DatabaseStorage.getUserByUsername, DatabaseStorage.db_select. simpl.
  rewrite head_filter_snoc. simpl in Hname.
  unfold DatabaseStorage.getUserByUsername, DatabaseStorage.db_select in Hname.
  rewrite Hname. simpl. rewrite decide_True by done. simpl.
  by rewrite comparePasswords_same.
Qed.

Lemma MemStorage_register_unique (st : MemStorage.t) :
  getUser id st = None →
  usernames_unique (map_values (MemStorage.users st)) →
  emails_unique (map_values (MemStorage.users st)) →
  let st' := (register USE_JWT_AUTH id now saltBytes body st).2 in
  usernames_unique (map_values (MemStorage.users st')) ∧
  emails_unique (map_values (MemStorage.users st')).
Proof.
  intros Hfresh Hnames Hmails. unfold register.
  destruct (getUserByUsername _ st) eqn:Hname; [done|].
  destruct (getUserByEmail _ st) eqn:Hmail; [done|].
  simpl. unfold map_values. rewrite map_set_fresh by exact Hfresh. rewrite fmap_app.
  simpl in Hname, Hmail.
  split; apply NoDup_snoc_fresh; try done; intros y Hy; simpl.
  - by apply (array_find_None _ _ Hname).
  - by apply (array_find_None _ _ Hmail).
Qed.

Lemma DatabaseStorage_register_unique (st : DatabaseStorage.t) :
  usernames_unique (DatabaseStorage.users st) →
  emails_unique (DatabaseStorage.users st) →
  let st' := (register USE_JWT_AUTH id now saltBytes body st).2 in
  usernames_unique (DatabaseStorage.users st') ∧
  emails_unique (DatabaseStorage.users st').
Proof.
  intros Hnames Hmails. unfold register.
  destruct (getUserByUsername _ st) eqn:Hname; [done|].
  destruct (getUserByEmail _ st) eqn:Hmail; [done|].
  destruct (createUser _ _ _ st) as [error|[created st']] eqn:Hcreate; [done|].
  apply DatabaseStorage_createUser_inr in Hcreate as (_ & -> & ->).
  simpl. simpl in Hname, Hmail.
  split; apply NoDup_snoc_fresh; try done; intros y Hy; simpl.
  - by apply (head_filter_None _ _ Hname).
  - by apply (head_filter_None _ _ Hmail).
Qed.

End RegisterMore.



(** X4.  Registration keeps user names and e-mail addresses unique: if no
    two stored users share a user name or an e-mail address before
    [POST /api/register] runs, none do afterwards, whatever the request
    (in the in-memory store, for a new id). *)
Theorem register_keeps_names_unique `{Crypto} (USE_JWT_AUTH : bool) (id : string)
    (now : Date) (saltBytes : list byte) (body : InsertUser.t) :
  (∀ st : MemStorage.t,
     getUser id st = None →
     usernames_unique (map_values (MemStorage.users st)) →
     emails_unique (map_values (MemStorage.users st)) →
     let st' := (register USE_JWT_AUTH id now saltBytes body st).2 in
     usernames_unique (map_values (MemStorage.users st')) ∧
     emails_unique (map_values (MemStorage.users st'))) ∧
  (∀ st : DatabaseStorage.t,
     usernames_unique (DatabaseStorage.users st) →
     emails_unique (DatabaseStorage.users st) →
     let st' := (register USE_JWT_AUTH id now saltBytes body st).2 in
     usernames_unique (DatabaseStorage.users st') ∧
     emails_unique (DatabaseStorage.users st')).
Proof.
  split.
  - intros st. apply MemStorage_register_unique.
  - intros st. apply DatabaseStorage_register_unique.
Qed.

Lemma register_keeps_names_unique_witness :
  (usernames_unique
     (map_values (MemStorage.users
        (register (H:=sample_crypto) false "carol" 3000 [x11; x22] carol mem_people).2)) ∧
   emails_unique
     (map_values (MemStorage.users
        (register (H:=sample_crypto) false "carol" 3000 [x11; x22] carol mem_people).2))) ∧
  (usernames_unique
     (DatabaseStorage.users
        (register (H:=sample_crypto) false "bob2" 3000 [x11; x22]
           bob_again db_people).2) ∧
   emails_unique
     (DatabaseStorage.users
        (register (H:=sample_crypto) false "bob2" 3000 [x11; x22]
           bob_again db_people).2)).
Proof.
  split.
  - apply (proj1 (register_keeps_names_unique (H:=sample_crypto) false "carol" 3000
                    [x11; x22] carol)); [reflexivity| |];
      apply (bool_decide_unpack _); vm_compute; exact I.
  - apply (proj2 (register_keeps_names_unique (H:=sample_crypto) false "bob2" 3000
                    [x11; x22]
                    bob_again));
      apply (bool_decide_unpack _); vm_compute; exact I.
Defined.

(** ** Listing messages *)

Lemma insert_by_timestamp_perm (m : Message.t) (l : list Message.t) :
  insert_by_timestamp m l ≡ₚ m :: l.
Proof.
  induction l as [|h l IH]; simpl; [done|].
  destruct (Message.timestamp m <=? Message.timestamp h); [done|].
  rewrite IH. apply Permutation_swap.
Qed.

Lemma sort_by_timestamp_perm (l : list Message.t) : sort_by_timestamp l ≡ₚ l.
Proof.
  induction l as [|m l IH]; simpl; [done|].
  by rewrite insert_by_timestamp_perm, IH.
Qed.

Lemma insert_by_timestamp_sorted (m : Message.t) (l : list Message.t) :
  Sorted by_timestamp l → Sorted by_timestamp (insert_by_timestamp m l).
Proof.
  induction l as [|h l IH]; intros Hsorted; simpl.
  - by repeat constructor.
  - destruct (Z.leb_spec (Message.timestamp m) (Message.timestamp h)) as [Hle|Hgt].
    + constructor; [done|]. constructor. exact Hle.
    + apply Sorted_inv in Hsorted as [Hl Hhd]. constructor; [by apply IH|].
      destruct l as [|h' l]; simpl.
      * constructor. unfold by_timestamp. lia.
      * apply HdRel_inv in Hhd.
        destruct (Message.timestamp m <=? Message.timestamp h'); constructor;
          [unfold by_timestamp; lia|done].
Qed.

Lemma sort_by_timestamp_sorted (l : list Message.t) :
  StronglySorted by_timestamp (sort_by_timestamp l).
Proof.
  apply Sorted_StronglySorted.
  - intros a b c. unfold by_timestamp. lia.
  - induction l as [|m l IH]; simpl; [constructor|].
    by apply insert_by_timestamp_sorted.
Qed.

(** X5.  In both storage implementations [getMessagesByConversation]
    returns exactly the stored messages of the conversation, each as often
    as it is stored, in ascending order of timestamp. *)
Theorem getMessagesByConversation_sorted_and_complete (conversationId : string) :
  (∀ st : MemStorage.t,
     StronglySorted by_timestamp (getMessagesByConversation conversationId st) ∧
     getMessagesByConversation conversationId st
     ≡ₚ filter (λ m, Message.conversationId m = conversationId)
          (map_values (MemStorage.messages st))) ∧
  (∀ st : DatabaseStorage.t,
     StronglySorted by_timestamp (getMessagesByConversation conversationId st) ∧
     getMessagesByConversation conversationId st
     ≡ₚ filter (λ m, Message.conversationId m = conversationId)
          (DatabaseStorage.messages st)).
Proof.
  split; intros st; simpl; split;
    first [apply sort_by_timestamp_sorted | apply sort_by_timestamp_perm].
Qed.

Lemma filter_snoc {A} (P : A → Prop) `{∀ x, Decision (P x)} (l : list A) (x : A) :
  filter P (l ++ [x]) = filter P l ++ (if decide (P x) then [x] else []).
Proof.
  rewrite filter_app, filter_cons, filter_nil. by destruct (decide (P x)).
Qed.

Lemma map_values_set_fresh {V} (m : JsMap V) (k : string) (v : V) :
  map_get k m = None → map_values (map_set k v m) = map_values m ++ [v].
Proof. intros Hfresh. unfold map_values. by rewrite map_set_fresh, fmap_app. Qed.



(** ** Deleting *)

Lemma map_delete_found {V} (m : JsMap V) (k : string) :
  (map_delete k m).1 = true ↔ is_Some (map_get k m).
Proof. unfold map_delete, map_has. simpl. apply bool_decide_eq_true. Qed.

Lemma db_delete_found {A} (c : A → Prop) `{∀ r, Decision (c r)} (table : list A) :
  bool_decide (0 < length (DatabaseStorage.db_delete c table).1)%nat = true
  ↔ is_Some (head (DatabaseStorage.db_select c table)).
Proof.
  unfold DatabaseStorage.db_delete, DatabaseStorage.db_select. simpl.
  rewrite bool_decide_eq_true. destruct (filter c table); simpl.
  - split; [lia|]. by intros [? ?].
  - split; [by eexists|lia].
Qed.

Lemma head_filter_deleted {A} (key : A → string) (table : list A) (id id' : string) :
  id' ≠ id →
  head (filter (λ r, key r = id') (filter (λ r, ¬ key r = id) table))
  = head (filter (λ r, key r = id') table).
Proof.
  intros Hne. f_equal. rewrite list_filter_filter. apply list_filter_iff.
  intros r. split; [by intros [? _]|]. intros Hr. split; [done|congruence].
Qed.

(** X7.  [deleteMaterial], [deleteMindMap] and [deleteQuiz], in both
    implementations: the result is [true] exactly when a record with that
    id was stored; afterwards none is, and every other id reads as
    before.  The database store deletes a quiz so when no attempt refers
    to it; a stored quiz that an attempt refers to it does not delete, it
    throws. *)
Theorem delete_removes_exactly_that_record (id : string) :
  (∀ st : MemStorage.t,
     let '(found, st') := deleteMaterial id st in
     (found = true ↔ is_Some (getMaterial id st)) ∧ getMaterial id st' = None ∧
     ∀ id', id' ≠ id → getMaterial id' st' = getMaterial id' st) ∧
  (∀ st : MemStorage.t,
     let '(found, st') := deleteMindMap id st in
     (found = true ↔ is_Some (getMindMap id st)) ∧ getMindMap id st' = None ∧
     ∀ id', id' ≠ id → getMindMap id' st' = getMindMap id' st) ∧
  (∀ st : MemStorage.t,
     ∃ found st', deleteQuiz id st = inr (found, st') ∧
       (found = true ↔ is_Some (getQuiz id st)) ∧ getQuiz id st' = None ∧
       ∀ id', id' ≠ id → getQuiz id' st' = getQuiz id' st) ∧
  (∀ st : DatabaseStorage.t,
     let '(found, st') := deleteMaterial id st in
     (found = true ↔ is_Some (getMaterial id st)) ∧ getMaterial id st' = None ∧
     ∀ id', id' ≠ id → getMaterial id' st' = getMaterial id' st) ∧
  (∀ st : DatabaseStorage.t,
     let '(found, st') := deleteMindMap id st in
     (found = true ↔ is_Some (getMindMap id st)) ∧ getMindMap id st' = None ∧
     ∀ id', id' ≠ id → getMindMap id' st' = getMindMap id' st) ∧
  (∀ st : DatabaseStorage.t,
     (getQuiz id st = None ∨ (id ∉ QuizAttempt.quizId <$> DatabaseStorage.quizAttempts st) →
      ∃ found st', deleteQuiz id st = inr (found, st') ∧
        (found = true ↔ is_Some (getQuiz id st)) ∧ getQuiz id st' = None ∧
        ∀ id', id' ≠ id → getQuiz id' st' = getQuiz id' st) ∧
     (is_Some (getQuiz id st) →
      (id ∈ QuizAttempt.quizId <$> DatabaseStorage.quizAttempts st) →
      ∃ error, deleteQuiz id st = inl error)).
Proof.
  split; [|split; [|split; [|split; [|split]]]]; intros st; simpl.
  1, 2, 4, 5: split; [|split].
  all: try first
    [ apply map_delete_found
    | apply db_delete_found
    | apply (map_get_deleted _ id)
    | intros id' Hne; by apply map_get_delete_ne
    | unfold DatabaseStorage.getMaterial, DatabaseStorage.getMindMap,
        DatabaseStorage.db_select; simpl;
      by rewrite filter_of_complement
    | intros id' Hne;
      unfold DatabaseStorage.getMaterial, DatabaseStorage.getMindMap,
        DatabaseStorage.db_select; simpl;
      by apply head_filter_deleted ].
  - eexists _, _. split; [reflexivity|]. simpl. split; [|split].
    + apply map_delete_found.
    + apply (map_get_deleted _ id).
    + intros id' Hne. by apply map_get_delete_ne.
  - unfold DatabaseStorage.deleteQuiz, DatabaseStorage.getQuiz, DatabaseStorage.db_select,
      DatabaseStorage.db_delete.
    split.
    + intros Hfree. rewrite check_true.
      2: { destruct Hfree as [Hnone|Hfree]; [left|by right].
           apply head_None in Hnone. by rewrite Hnone. }
      eexists _, _. split; [reflexivity|]. simpl. split; [|split].
      * apply (db_delete_found (λ r, Quiz.id r = id)).
      * by rewrite filter_of_complement.
      * intros id' Hne. by apply head_filter_deleted.
    + intros [quiz Hquiz] Hreferred. rewrite check_false; [by eexists|].
      intros [Hlen|Hfree]; [|done].
      destruct (filter _ (DatabaseStorage.quizzes st)); [done|]. simpl in Hlen. lia.
Qed.

Lemma delete_removes_exactly_that_record_witness :
  (let '(found, st') := deleteMaterial "material-1" mem_with_scan in
   (found = true ↔ is_Some (getMaterial "material-1" mem_with_scan)) ∧
   getMaterial "material-1" st' = None ∧
   getMaterial "material-2" st' = getMaterial "material-2" mem_with_scan) ∧
  (let '(found, st') := deleteMaterial "material-1" db_with_scan in
   (found = true ↔ is_Some (getMaterial "material-1" db_with_scan)) ∧
   getMaterial "material-1" st' = None ∧
   getMaterial "material-2" st' = getMaterial "material-2" db_with_scan) ∧
  (∃ found st', deleteQuiz "quiz-1" db_with_quiz = inr (found, st') ∧
     (found = true ↔ is_Some (getQuiz "quiz-1" db_with_quiz)) ∧
     getQuiz "quiz-1" st' = None) ∧
  (∃ error, deleteQuiz "quiz-1" db_with_attempt = inl error).
Proof.
  destruct (delete_removes_exactly_that_record "material-1")
    as (Hmem & _ & _ & Hdb & _).
  destruct (delete_removes_exactly_that_record "quiz-1")
    as (_ & _ & _ & _ & _ & Hquiz).
  split; [|split; [|split]].
  - specialize (Hmem mem_with_scan). simpl in Hmem. destruct Hmem as (H1 & H2 & H3).
    split; [exact H1|]. split; [exact H2|]. by apply H3.
  - specialize (Hdb db_with_scan). simpl in Hdb. destruct Hdb as (H1 & H2 & H3).
    split; [exact H1|]. split; [exact H2|]. by apply H3.
  - destruct (proj1 (Hquiz db_with_quiz)) as (found & st' & H1 & H2 & H3 & _).
    + right. vm_compute. apply not_elem_of_nil.
    + by exists found, st'.
  - apply (proj2 (Hquiz db_with_attempt)).
    + by eexists.
    + vm_compute. apply list_elem_of_here.
Defined.

(** ** Creating and listing *)



(** ** Records and their ids in the in-memory store *)

Section Keyed.
Context {V : Type} (id_of : V → string).
Implicit Types (m : JsMap V) (k : string) (v : V).

Lemma keyed_empty : keyed id_of [].
Proof. split; [constructor|]. intros k v Hin. by apply elem_of_nil in Hin. Qed.

Lemma elem_of_map_set m k v (kv : string * V) :
  kv ∈ map_set k v m → kv = (k, v) ∨ kv ∈ m.
Proof.
  induction m as [|[k0 v0] m IH]; simpl.
  - intros Hin. left. by apply list_elem_of_singleton in Hin.
  - destruct (decide (k0 = k)) as [->|Hne]; intros Hin;
      apply elem_of_cons in Hin as [->|Hin]; auto using list_elem_of_here,
        list_elem_of_further.
    destruct (IH Hin); auto using list_elem_of_further.
Qed.

Lemma map_set_keys m k v :
  (map_set k v m).*1 = if decide (k ∈ m.*1) then m.*1 else m.*1 ++ [k].
Proof.
  induction m as [|[k0 v0] m IH].
  - destruct (decide (k ∈ ([] : JsMap V).*1)) as [Hin|_]; [|done].
    by apply elem_of_nil in Hin.
  - cbn [map_set]. destruct (decide (k0 = k)) as [->|Hne].
    + rewrite !fmap_cons. cbn [fst]. rewrite decide_True; [done|apply list_elem_of_here].
    + rewrite !fmap_cons. cbn [fst]. rewrite IH.
      destruct (decide (k ∈ m.*1)) as [Hin|Hnot].
      * rewrite decide_True; [done|by apply list_elem_of_further].
      * rewrite decide_False; [done|]. apply not_elem_of_cons. split; [congruence|done].
Qed.

Lemma keyed_set m k v : keyed id_of m → id_of v = k → keyed id_of (map_set k v m).
Proof.
  intros [Hnodup Hids] Hv. split.
  - rewrite map_set_keys. destruct (decide (k ∈ m.*1)); [done|].
    apply NoDup_app. split; [done|]. split; [|apply NoDup_singleton].
    intros k' Hk' Hk. apply list_elem_of_singleton in Hk. by subst.
  - intros k' v' Hin. apply elem_of_map_set in Hin as [[= -> ->]|Hin]; [done|].
    by apply Hids.
Qed.

Lemma keyed_filter m (P : string * V → Prop) `{∀ kv, Decision (P kv)} :
  keyed id_of m → keyed id_of (filter P m).
Proof.
  intros [Hnodup Hids]. split.
  - clear Hids. induction m as [|[k0 v0] m IH]; [constructor|].
    apply NoDup_cons in Hnodup as [Hk0 Hnodup]. rewrite filter_cons.
    destruct (decide (P (k0, v0))); [|by apply IH].
    simpl. apply NoDup_cons. split; [|by apply IH].
    intros Hin. apply Hk0. apply list_elem_of_fmap in Hin as ([k1 v1] & -> & Hin).
    apply list_elem_of_filter in Hin as [_ Hin]. simpl.
    by apply (list_elem_of_fmap_2 fst) in Hin.
  - intros k v Hin. apply list_elem_of_filter in Hin as [_ Hin]. by apply Hids.
Qed.

Lemma keyed_delete m k : keyed id_of m → keyed id_of (map_delete k m).2.
Proof. apply keyed_filter. Qed.

Lemma keyed_delete_all m (batch : list (string * V)) :
  keyed id_of m → keyed id_of (foldl (λ m e, (map_delete e.1 m).2) m batch).
Proof.
  revert m. induction batch as [|e batch IH]; intros m Hm; [done|].
  simpl. apply IH. by apply keyed_filter.
Qed.

Lemma keyed_get m k v : keyed id_of m → map_get k m = Some v → id_of v = k.
Proof. intros [_ Hids] Hget. by apply Hids, map_get_Some_elem_of. Qed.

End Keyed.

Lemma MemStorage_empty_consistent : mem_consistent MemStorage.empty.
Proof. repeat split; try constructor; intros k v Hin; by apply elem_of_nil in Hin. Qed.

Ltac keyed_step :=
  first [ assumption
        | apply keyed_set; [assumption|reflexivity]
        | apply keyed_delete; assumption
        | apply keyed_delete_all; assumption ].

Ltac consistent :=
  unfold mem_consistent; simpl;
  refine (conj _ (conj _ (conj _ (conj _ (conj _ (conj _ _)))))); keyed_step.

(** X9.  The in-memory store keeps every record under its own id, once.
    If that holds of a store, then every [get] by id returns a record with
    the id asked for, and it still holds after each of the thirteen
    writing methods; for the two updates, provided the update does not name
    the [id] field. *)
Theorem MemStorage_keeps_records_under_their_ids (st : MemStorage.t) (id : string)
    (now : Date) :
  mem_consistent st →
  ((∀ r, MemStorage.getUser id st = Some r → User.id r = id) ∧
   (∀ r, MemStorage.getMaterial id st = Some r → Material.id r = id) ∧
   (∀ r, MemStorage.getConversation id st = Some r → Conversation.id r = id) ∧
   (∀ r, MemStorage.getMessage id st = Some r → Message.id r = id) ∧
   (∀ r, MemStorage.getMindMap id st = Some r → MindMap.id r = id) ∧
   (∀ r, MemStorage.getQuiz id st = Some r → Quiz.id r = id) ∧
   (∀ r, MemStorage.getQuizAttempt id st = Some r → QuizAttempt.id r = id)) ∧
  ((∀ data, mem_consistent (MemStorage.createUser id now data st).2) ∧
   (∀ data, mem_consistent (MemStorage.createMaterial id now data st).2) ∧
   (∀ data, mem_consistent (MemStorage.createConversation id now data st).2) ∧
   (∀ data, mem_consistent (MemStorage.createMessage id now data st).2) ∧
   (∀ data, mem_consistent (MemStorage.createMindMap id now data st).2) ∧
   (∀ data, mem_consistent (MemStorage.createQuiz id now data st).2) ∧
   (∀ data, mem_consistent (MemStorage.createQuizAttempt id now data st).2)) ∧
  (mem_consistent (MemStorage.deleteMaterial id st).2 ∧
   mem_consistent (MemStorage.deleteConversation id st).2 ∧
   mem_consistent (MemStorage.deleteMindMap id st).2 ∧
   mem_consistent (MemStorage.deleteQuiz id st).2) ∧
  ((∀ updates, PartialUser.id updates = None →
      mem_consistent (MemStorage.updateUser id updates st).2) ∧
   (∀ updates, PartialMindMap.id updates = None →
      mem_consistent (MemStorage.updateMindMap id now updates st).2)).
Proof.
  intros (Husers & Hmaterials & Hconversations & Hmessages & HmindMaps & Hquizzes
          & Hattempts).
  split; [|split; [|split]].
  - repeat split; intros r Hget; eapply keyed_get; eauto.
  - repeat match goal with |- (∀ _, mem_consistent _) ∧ _ => split end;
      intros data; consistent.
  - repeat match goal with |- mem_consistent _ ∧ _ => split end; consistent.
  - split; intros updates Hid.
    + unfold MemStorage.updateUser.
      destruct (map_get id (MemStorage.users st)) as [user|] eqn:Huser;
        [|consistent].
      unfold mem_consistent; simpl.
      refine (conj _ (conj _ (conj _ (conj _ (conj _ (conj _ _)))))); try assumption.
      apply keyed_set; [assumption|]. simpl. rewrite Hid. simpl. by eapply keyed_get.
    + unfold MemStorage.updateMindMap.
      destruct (map_get id (MemStorage.mindMaps st)) as [mindMap|] eqn:Hmap;
        [|consistent].
      unfold mem_consistent; simpl.
      refine (conj _ (conj _ (conj _ (conj _ (conj _ (conj _ _)))))); try assumption.
      apply keyed_set; [assumption|]. simpl. rewrite Hid. simpl. by eapply keyed_get.
Qed.

Lemma MemStorage_keeps_records_under_their_ids_witness :
  mem_consistent (MemStorage.createMindMap "map-1" 1000 cells_map MemStorage.empty).2 ∧
  (∀ r, MemStorage.getMindMap "map-1"
          (MemStorage.createMindMap "map-1" 1000 cells_map MemStorage.empty).2 = Some r →
        MindMap.id r = "map-1") ∧
  mem_consistent
    (MemStorage.deleteMindMap "map-1"
       (MemStorage.createMindMap "map-1" 1000 cells_map MemStorage.empty).2).2.
Proof.
  pose proof (MemStorage_keeps_records_under_their_ids MemStorage.empty "map-1" 1000
                MemStorage_empty_consistent) as (_ & (_ & _ & _ & _ & Hcreate & _) & _).
  specialize (Hcreate cells_map).
  pose proof (MemStorage_keeps_records_under_their_ids _ "map-1" 1000 Hcreate)
    as ((_ & _ & _ & _ & Hread & _) & _ & (_ & _ & Hdelete & _) & _).
  split; [exact Hcreate|]. split; [exact Hread|exact Hdelete].
Defined.

(** ** Where the two implementations agree *)

Lemma or_null_plain_string (x : option string) :
  plain_string x → or_null truthy_string x = x.
Proof.
  unfold plain_string, or_null, truthy_string. destruct x as [text|]; [|done].
  intros Hne. destruct (String.eqb_spec text ""); [congruence|done].
Qed.

Lemma or_null_plain_json (x : option json) : plain_json x → or_null truthy x = x.
Proof. unfold plain_json, or_null. destruct x as [j|]; [|done]. by intros ->. Qed.

Lemma or_default_plain (x : option string) (d : string) :
  plain_string x → or_default x d = default d x.
Proof.
  unfold plain_string, or_default, truthy_string. destruct x as [text|]; [|done].
  intros Hne. simpl. destruct (String.eqb_spec text ""); [congruence|done].
Qed.

Lemma jsonb_nullable_plain (x : option json) :
  plain_json x → jsonb_forms x → DatabaseStorage.jsonb_nullable x = x.
Proof.
  unfold plain_json, jsonb_forms, jsonb_form, DatabaseStorage.jsonb_nullable.
  destruct x as [j|]; [|done]. intros Htruthy Hform. rewrite Hform. by destruct j.
Qed.

Lemma text_default_plain (x : Optional string) (d : string) :
  plain_optional x →
  DatabaseStorage.text_default d x = Some (or_default (to_option x) d).
Proof.
  unfold plain_optional, DatabaseStorage.text_default, or_default, truthy_string.
  destruct x as [| |v]; [done|done|]. intros Hne. simpl.
  by destruct (String.eqb_spec v "").
Qed.



(** ** The guards *)

Lemma prefix_split (p s : string) :
  String.prefix p s = true → s = p +:+ substring_from (String.length p) s.
Proof.
  revert s. induction p as [|a p IH]; intros s; [done|].
  destruct s as [|b s]; simpl; [done|].
  destruct (Ascii.ascii_dec a b) as [->|]; [|done].
  intros Hp. rewrite append_String. f_equal. by apply IH.
Qed.

Lemma prefix_append (p s : string) : String.prefix p (p +:+ s) = true.
Proof.
  induction p as [|a p IH]; [by destruct s|].
  rewrite append_String. simpl. by destruct (Ascii.ascii_dec a a).
Qed.

Lemma substring_from_append (p s : string) :
  substring_from (String.length p) (p +:+ s) = s.
Proof. induction p as [|a p IH]; [by destruct s|]. by rewrite append_String. Qed.

Lemma bearer_token_Some (req : GuardedRequest) (token : string) :
  bearer_token req = Some token ↔ authorization req = Some ("Bearer " +:+ token).
Proof.
  unfold bearer_token. destruct (authorization req) as [authHeader|]; [|done].
  destruct (String.prefix "Bearer " authHeader) eqn:Hprefix; split.
  - intros [= <-]. f_equal; by apply (prefix_split "Bearer ").
  - intros [= ->]. f_equal; apply (substring_from_append "Bearer ").
  - done.
  - intros [= ->]. by rewrite (prefix_append "Bearer ") in Hprefix.
Qed.

(** X11.  [requireAuth] lets a request through in token mode exactly when
    the header is ["Bearer "] followed by a token that [verifyToken]
    accepts, and then [req.userId] is the [userId] of the token's payload,
    [undefined] when the payload has none; in session mode exactly when the
    session holds a user, and then [req.userId] is that user's id.
    Whatever it answers itself has status 401. *)
Theorem requireAuth_passes_only_checked_identities
    (verifyToken : string → option (option string)) (req : GuardedRequest) :
  (∀ userId, requireAuth true verifyToken req = Passed userId ↔
     ∃ token, authorization req = Some ("Bearer " +:+ token) ∧
              verifyToken token = Some userId) ∧
  (∀ userId, requireAuth false verifyToken req = Passed userId ↔
     ∃ user, session_user req = Some user ∧ userId = Some (User.id user)) ∧
  (∀ mode res, requireAuth mode verifyToken req = Answered res → status res = 401).
Proof.
  split; [|split].
  - intros userId. unfold requireAuth. split.
    + destruct (bearer_token req) as [token|] eqn:Htoken; [|done].
      destruct (verifyToken token) as [uid|] eqn:Hverify; [|done].
      intros [= <-]. exists token. split; [by apply bearer_token_Some|done].
    + intros (token & Hheader & Hverify). apply bearer_token_Some in Hheader.
      by rewrite Hheader, Hverify.
  - intros userId. unfold requireAuth. split.
    + destruct (session_user req) as [user|]; [|done]. intros [= <-]. by exists user.
    + intros (user & -> & ->). done.
  - intros mode res. unfold requireAuth. destruct mode.
    + destruct (bearer_token req) as [token|]; [|by intros [= <-]].
      destruct (verifyToken token); [done|by intros [= <-]].
    + destruct (session_user req); [done|by intros [= <-]].
Qed.

Example requireAuth_passes_a_payload_without_user :
  requireAuth true sample_verify (mkGuardedRequest (Some "Bearer token-anonymous") None)
  = Passed None.
Proof. reflexivity. Qed.

(** X12.  [requireRole] never lets through a user of another role: when
    it passes, the id it sets is that of a user whose role is the required
    one (in token mode the stored user of the verified token, in session
    mode the session user); what it answers itself has status 401 or
    403. *)
Theorem requireRole_passes_only_the_role {S} `{IStorage S} (USE_JWT_AUTH : bool)
    (verifyToken : string → option (option string)) (role : string) (req : GuardedRequest)
    (st : S) :
  (∀ userId, requireRole USE_JWT_AUTH verifyToken role req st = Passed userId →
     ∃ user, userId = Some (User.id user) ∧ User.role user = Some role ∧
       if USE_JWT_AUTH
       then ∃ token tokenUser, authorization req = Some ("Bearer " +:+ token) ∧
              verifyToken token = Some (Some tokenUser) ∧
              getUser tokenUser st = Some user
       else session_user req = Some user) ∧
  (∀ res, requireRole USE_JWT_AUTH verifyToken role req st = Answered res →
     status res = 401 ∨ status res = 403).
Proof.
  unfold requireRole. split.
  - intros userId. destruct USE_JWT_AUTH.
    + destruct (bearer_token req) as [token|] eqn:Htoken; [|done].
      destruct (verifyToken token) as [[tokenUser|]|] eqn:Hverify; [|done|done].
      simpl. destruct (getUser tokenUser st) as [user|] eqn:Huser; [|done].
      destruct (decide (User.role user = Some role)) as [Hrole|]; [|done].
      intros [= <-]. exists user. split; [done|]. split; [done|].
      exists token, tokenUser. split; [by apply bearer_token_Some|done].
    + destruct (session_user req) as [user|]; [|done].
      destruct (decide (User.role user = Some role)) as [Hrole|]; [|done].
      intros [= <-]. by exists user.
  - intros res. destruct USE_JWT_AUTH.
    + destruct (bearer_token req) as [token|]; [|intros [= <-]; by left].
      destruct (verifyToken token) as [[tokenUser|]|]; simpl;
        [|intros [= <-]; by left|intros [= <-]; by left].
      destruct (getUser tokenUser st) as [user|]; [|intros [= <-]; by left].
      destruct (decide (User.role user = Some role)); [done|intros [= <-]; by right].
    + destruct (session_user req) as [user|]; [|intros [= <-]; by left].
      destruct (decide (User.role user = Some role)); [done|intros [= <-]; by right].
Qed.

Lemma requireRole_passes_only_the_role_witness :
  (∃ user, Some "bob" = Some (User.id user) ∧ User.role user = Some "student" ∧
     ∃ token tokenUser, authorization bob_request = Some ("Bearer " +:+ token) ∧
       sample_verify token = Some (Some tokenUser) ∧
       getUser tokenUser mem_people = Some user) ∧
  (status (json_error 403 "Access denied. teacher role required.") = 401 ∨
   status (json_error 403 "Access denied. teacher role required.") = 403).
Proof.
  split.
  - apply (proj1 (requireRole_passes_only_the_role true sample_verify "student"
                    bob_request mem_people) (Some "bob")). reflexivity.
  - apply (proj2 (requireRole_passes_only_the_role true sample_verify "teacher"
                    bob_request mem_people)). reflexivity.
Defined.

(** ** Listing *)

Lemma authenticated_Some (userId : option string) (uid : string) :
  authenticated userId = Some uid → userId = Some uid.
Proof.
  unfold authenticated. destruct userId as [u|]; [|done].
  destruct (truthy_string u); [|done]. by intros [= ->].
Qed.

Lemma filter_all_owned {A} (owner : A → string) (uid : string) (l : list A) :
  Forall (λ r, Some (owner r) = Some uid) (filter (λ r, owner r = uid) l).
Proof.
  apply Forall_forall. intros r Hr. apply list_elem_of_filter in Hr as [-> _]. done.
Qed.

(** X13.  The listing routes never show another user's records: on both
    stores an answer of [GET /api/materials], [/api/conversations],
    [/api/mindmaps] or [/api/quizzes] that carries records has status 200
    and every record in it belongs to the requester; any other answer has
    status 401. *)
Theorem listings_show_only_own_records (userId : option string) :
  (∀ st : MemStorage.t,
     lists_only_own Material.userId userId (get_materials userId st) ∧
     lists_only_own Conversation.userId userId (get_conversations userId st) ∧
     lists_only_own MindMap.userId userId (get_mindmaps userId st) ∧
     lists_only_own Quiz.userId userId (get_quizzes userId st)) ∧
  (∀ st : DatabaseStorage.t,
     lists_only_own Material.userId userId (get_materials userId st) ∧
     lists_only_own Conversation.userId userId (get_conversations userId st) ∧
     lists_only_own MindMap.userId userId (get_mindmaps userId st) ∧
     lists_only_own Quiz.userId userId (get_quizzes userId st)).
Proof.
  split; intros st;
    unfold lists_only_own, get_materials, get_conversations, get_mindmaps, get_quizzes;
    destruct (authenticated userId) as [uid|] eqn:Hauth; simpl; try done;
    apply authenticated_Some in Hauth as ->;
    repeat split; apply filter_all_owned.
Qed.

(** ** Creating a conversation *)

Lemma or_default_nonempty (x : option string) (d : string) :
  d ≠ "" → or_default x d ≠ "".
Proof.
  intros Hd. unfold or_default, truthy_string. destruct x as [text|]; [|done].
  by destruct (String.eqb_spec text "").
Qed.

(** X14.  [POST /api/conversations] never stores an untitled
    conversation: for an authenticated user, on both stores, an answer
    that carries a conversation has status 200, and the conversation is the
    requester's and has a title that is not empty: the submitted one
    whenever a non-empty title was submitted.  Any other answer has status
    400 and leaves the store as it was. *)
Theorem post_conversations_always_titles (userId : option string) (uid : string)
    (body : json) (id : string) (now : Date) :
  authenticated userId = Some uid →
  (∀ st : MemStorage.t,
     let '(reply, st') := post_conversations userId body id now st in
     match reply_body reply with
     | inr conversation =>
         reply_status reply = 200 ∧ Conversation.userId conversation = uid ∧
         getConversation id st' = Some conversation ∧
         ∃ title, Conversation.title conversation = Some title ∧ title ≠ "" ∧
           ∀ fields submitted, body = JObj fields →
             obj_get "title" fields = Some (JStr submitted) → submitted ≠ "" →
             title = submitted
     | inl _ => reply_status reply = 400 ∧ st' = st
     end) ∧
  (∀ st : DatabaseStorage.t,
     let '(reply, st') := post_conversations userId body id now st in
     match reply_body reply with
     | inr conversation =>
         reply_status reply = 200 ∧ Conversation.userId conversation = uid ∧
         ∃ title, Conversation.title conversation = Some title ∧ title ≠ "" ∧
           ∀ fields submitted, body = JObj fields →
             obj_get "title" fields = Some (JStr submitted) → submitted ≠ "" →
             title = submitted
     | inl _ => reply_status reply = 400 ∧ st' = st
     end).
Proof.
  intros Hauth.
  assert (∀ title fields submitted,
            (fields' ← z_object body; z_string_optional (obj_get "title" fields'))
            = inr title →
            body = JObj fields → obj_get "title" fields = Some (JStr submitted) →
            submitted ≠ "" → or_default title "New Conversation" = submitted) as Htitle.
  { intros title fields submitted Hparse -> Hget Hne. simpl in Hparse.
    rewrite Hget in Hparse. simpl in Hparse. injection Hparse as <-.
    unfold or_default, truthy_string. by destruct (String.eqb_spec submitted ""). }
  split; intros st; unfold post_conversations; rewrite Hauth;
    destruct (_ ≫= _) as [error|title] eqn:Hparse; simpl; try done.
  - split; [done|]. split; [done|]. split.
    + unfold MemStorage.getConversation. simpl. apply map_get_set_eq.
    + assert (or_default title "New Conversation" ≠ "") as Hne
        by (by apply or_default_nonempty).
      exists (or_default title "New Conversation").
      split; [by apply (or_null_nonempty _ Hne)|].
      split; [done|]. intros fields submitted. by apply Htitle.
  - destruct (DatabaseStorage.createConversation _ _ _ st) as [error|[created st']]
      eqn:Hcreate; [done|].
    apply DatabaseStorage_createConversation_inr in Hcreate as (_ & -> & _). simpl.
    split; [done|]. split; [done|].
    exists (or_default title "New Conversation"). split; [done|].
    split; [by apply or_default_nonempty|]. intros fields submitted. by apply Htitle.
Qed.

Lemma post_conversations_always_titles_witness :
  (let '(reply, st') :=
     post_conversations (Some "alice") (JObj [("title", JStr "")]) "conv-1" 2000
       mem_people in
   match reply_body reply with
   | inr conversation =>
       reply_status reply = 200 ∧ Conversation.userId conversation = "alice" ∧
       getConversation "conv-1" st' = Some conversation ∧
       Conversation.title conversation = Some "New Conversation"
   | inl _ => reply_status reply = 400 ∧ st' = mem_people
   end) ∧
  (let '(reply, st') :=
     post_conversations (Some "alice") (JObj [("title", JStr "Biology")]) "conv-1" 2000
       db_people in
   match reply_body reply with
   | inr conversation =>
       reply_status reply = 200 ∧ Conversation.userId conversation = "alice" ∧
       Conversation.title conversation = Some "Biology"
   | inl _ => reply_status reply = 400 ∧ st' = db_people
   end).
Proof.
  split.
  - pose proof (proj1 (post_conversations_always_titles (Some "alice") "alice"
                         (JObj [("title", JStr "")]) "conv-1" 2000 eq_refl) mem_people)
      as Hmem.
    simpl in Hmem. destruct Hmem as (H1 & H2 & H3 & _). simpl. by repeat split.
  - pose proof (proj2 (post_conversations_always_titles (Some "alice") "alice"
                         (JObj [("title", JStr "Biology")]) "conv-1" 2000 eq_refl)
                  db_people) as Hdb.
    simpl in Hdb. destruct Hdb as (H1 & H2 & title & Htitle & _ & Hsub).
    simpl. split; [done|]. split; [done|].
    by rewrite <- (Hsub [("title", JStr "Biology")] "Biology" eq_refl eq_refl).
Defined.

(** ** What a failed request leaves behind *)

(** X15.  Whatever the store implementation, the YouTube, delete,
    mind-map update, quiz generation, mind-map generation and quiz attempt
    handlers write nothing unless they answer 200: on every error path the
    store is the one the request found.  So does the upload handler, with
    one exception: when the material is stored and removing the uploaded
    file then fails, it answers 500 and the material stays in the store. *)
Theorem handlers_write_only_on_success {S : Type} `{IStorage S}
    (OPENROUTER_API_KEY : option string) (fetch : ChatCompletionRequest → FetchResponse)
    (JSON_parse : string → option json) (is_url : string → bool)
    (quiz_prompt : Z → string → string → string → string)
    (mindmap_prompt : string → string → string)
    (userId : option string) (id : string) (now : Date) (st : S) :
  (∀ file,
     let out := post_materials_upload OPENROUTER_API_KEY fetch userId file id now st in
     (kept_unless_ok st out ∨ stored_but_not_unlinked file id now st out) ∧
     ((∀ f, file = Some f → unlink_error f = None) → kept_unless_ok st out)) ∧
  (∀ body, kept_unless_ok st (post_materials_youtube is_url userId body id now st)) ∧
  kept_unless_ok st (delete_material userId id st) ∧
  (∀ body, kept_unless_ok st (put_mindmap userId id body now st)) ∧
  (∀ body, kept_unless_ok st
     (post_quizzes_generate OPENROUTER_API_KEY fetch JSON_parse quiz_prompt
        userId body id now st)) ∧
  (∀ body, kept_unless_ok st
     (post_mindmaps_generate OPENROUTER_API_KEY fetch JSON_parse mindmap_prompt
        userId body id now st)) ∧
  (∀ quizId body, kept_unless_ok st (post_quiz_attempt userId quizId body id now st)).
Proof.
  split.
  - intros file. cbv zeta. unfold post_materials_upload, kept_unless_ok.
    destruct (authenticated userId) as [uid|]; [|split; [left|]; by right].
    destruct file as [f|]; [|split; [left|]; by right].
    destruct (extract_content _ _ f) as [error|[content type]];
      [split; [left|]; by right|].
    destruct (createMaterial id now _ st) as [error|[material st']] eqn:Hcreate;
      [split; [left|]; by right|].
    destruct (unlink_error f) as [error|] eqn:Hunlink; [|split; [left|]; by left].
    split.
    + right. exists f, error. eexists _, material. by repeat split.
    + intros Hclean. by rewrite (Hclean f eq_refl) in Hunlink.
  - unfold kept_unless_ok, post_materials_youtube, delete_material,
      put_mindmap, post_quizzes_generate, post_mindmaps_generate, post_quiz_attempt.
    repeat split; intros; repeat case_match; simpl; first [by right | by left].
Qed.

Lemma handlers_write_only_on_success_witness :
  kept_unless_ok mem_people
    (post_materials_upload None gateway_down (Some "alice") (Some notes_txt)
       "material-1" 1000 mem_people) ∧
  stored_but_not_unlinked (Some locked_txt) "material-1" 1000 mem_people
    (post_materials_upload None gateway_down (Some "alice") (Some locked_txt)
       "material-1" 1000 mem_people).
Proof.
  split.
  - apply (proj1 (handlers_write_only_on_success None gateway_down sample_parse
                    (λ _, true) sample_quiz_prompt sample_mindmap_prompt
                    (Some "alice") "material-1" 1000 mem_people) (Some notes_txt)).
    by intros f [= <-].
  - destruct (proj1 (proj1 (handlers_write_only_on_success None gateway_down sample_parse
                    (λ _, true) sample_quiz_prompt sample_mindmap_prompt
                    (Some "alice") "material-1" 1000 mem_people) (Some locked_txt)))
      as [[Hok|Hkept]|Hstored]; [discriminate Hok|discriminate Hkept|exact Hstored].
Defined.

(** X16.  [POST /api/conversations/:id/messages] is the exception: it
    stores the user's message before it asks the model.  When the body
    validates and the conversation is the requester's, but the API key is
    missing or the gateway answers with an error status, the handler
    answers 400 and the store is the one [createMessage] left after storing
    the user message (the store the request found, had [createMessage]
    thrown); no assistant message is stored. *)
Theorem failed_answer_keeps_the_question {S : Type} `{IStorage S}
    (OPENROUTER_API_KEY : option string) (fetch : ChatCompletionRequest → FetchResponse)
    (system_prompt : string → string) (userId : option string) (id : string)
    (body : json) (userMessageId assistantMessageId : string) (now later : Date) (st : S)
    (content : string) (materialIds : option (list string))
    (conversation : Conversation.t) :
  parse_message body = inr (content, materialIds) →
  getConversation id st = Some conversation →
  Some (Conversation.userId conversation) = userId →
  (∃ error, createOpenRouterClient OPENROUTER_API_KEY = inl error) ∨
  (∀ request, fetch_ok (fetch request) = false) →
  let asked :=
    InsertMessage.mk id "user" content None ((λ l, JArr (JStr <$> l)) <$> materialIds) in
  let out :=
    post_conversation_message OPENROUTER_API_KEY fetch system_prompt userId id body
      userMessageId assistantMessageId now later st in
  status out.1 = 400 ∧ out.2 = store_after st (createMessage userMessageId now asked st).
Proof.
  intros Hparse Hconversation Howner Hfails asked out. subst out asked.
  unfold post_conversation_message. rewrite Hparse, Hconversation.
  rewrite decide_True by exact Howner.
  destruct (createMessage userMessageId now _ st) as [error|[userMessage st1]] eqn:Hstored;
    [done|].
  destruct Hfails as [[error Hkey]|Hdown].
  - rewrite Hkey. by simpl.
  - destruct (createOpenRouterClient OPENROUTER_API_KEY) as [error|apiKey]; [by simpl|].
    simpl. unfold chat. rewrite Hdown. by simpl.
Qed.

Lemma failed_answer_keeps_the_question_witness :
  let out :=
    post_conversation_message (Some "sk-or-1") gateway_down (λ context, context)
      (Some "alice") "conv-1" (JObj [("content", JStr "What is a cell?")])
      "msg-1" "msg-2" 3000 3001 mem_with_talk in
  status out.1 = 400 ∧
  (Message.content <$> getMessagesByConversation "conv-1" out.2) = ["What is a cell?"].
Proof.
  pose proof (failed_answer_keeps_the_question (Some "sk-or-1") gateway_down
                (λ context, context) (Some "alice") "conv-1"
                (JObj [("content", JStr "What is a cell?")]) "msg-1" "msg-2" 3000 3001
                mem_with_talk "What is a cell?" None
                (MemStorage.createConversation "conv-1" 2000
                   (InsertConversation.mk (Some "Biology") "alice") mem_people).1
                eq_refl eq_refl eq_refl (or_intror (λ _, eq_refl))) as [Hstatus Hstore].
  split; [exact Hstatus|]. rewrite Hstore. reflexivity.
Defined.

(** ** Validation of the request bodies *)

Lemma strip_prefix_Some (p s r : string) : strip_prefix p s = Some r ↔ s = p +:+ r.
Proof.
  revert s. induction p as [|a p IH]; intros s.
  - rewrite append_empty. simpl. split; congruence.
  - rewrite append_String. destruct s as [|b s]; simpl; [done|].
    destruct (decide (a = b)) as [->|Hne].
    + rewrite IH. split; congruence.
    + split; [done|]. congruence.
Qed.

Lemma take_id_split (s : string) : ∃ after, s = take_id s +:+ after.
Proof.
  induction s as [|c s [after IH]]; [by exists ""|]. simpl.
  case_bool_decide.
  - by exists (String c s).
  - exists after. rewrite append_String. by f_equal.
Qed.

Lemma take_id_clean (s : string) (c : ascii) :
  c ∈ String.list_ascii_of_string (take_id s) → c ∉ id_stops.
Proof.
  induction s as [|d s IH]; simpl; [by intros ?%elem_of_nil|].
  case_bool_decide as Hd; simpl; [by intros ?%elem_of_nil|].
  intros [->|Hc]%elem_of_cons; [exact Hd|by apply IH].
Qed.

Lemma truthy_string_nonempty (s : string) : truthy_string s = true ↔ s ≠ "".
Proof. unfold truthy_string. by destruct (String.eqb_spec s ""). Qed.

Lemma video_id_at_Some (s v : string) :
  video_id_at s = Some v →
  v ≠ "" ∧ (∀ c, c ∈ String.list_ascii_of_string v → c ∉ id_stops) ∧
  ∃ marker after, marker ∈ video_markers ∧ s = marker +:+ v +:+ after.
Proof.
  assert (∀ marker, marker ∈ video_markers →
            (strip_prefix marker s
             ≫= (λ rest, let v := take_id rest in
                         if truthy_string v then Some v else None)) = Some v →
            v ≠ "" ∧ (∀ c, c ∈ String.list_ascii_of_string v → c ∉ id_stops) ∧
            ∃ marker after, marker ∈ video_markers ∧ s = marker +:+ v +:+ after)
    as Hone.
  { intros marker Hmarker Hcapture.
    destruct (strip_prefix marker s) as [rest|] eqn:Hstrip; [|done]. simpl in Hcapture.
    destruct (truthy_string (take_id rest)) eqn:Htruthy; [|done].
    injection Hcapture as <-. apply truthy_string_nonempty in Htruthy.
    split; [done|]. split; [intros c; apply take_id_clean|].
    destruct (take_id_split rest) as [after Hrest]. exists marker, after.
    split; [done|]. apply strip_prefix_Some in Hstrip. by rewrite <- Hrest. }
  unfold video_id_at.
  destruct (strip_prefix "youtube.com/watch?v=" s ≫= _) as [v1|] eqn:Hfirst.
  - intros [= <-]. apply (Hone "youtube.com/watch?v="); [|exact Hfirst].
    unfold video_markers. apply elem_of_cons. by left.
  - intros Hsecond. apply (Hone "youtu.be/"); [|exact Hsecond].
    unfold video_markers. apply elem_of_cons. right. apply elem_of_cons. by left.
Qed.

Lemma video_id_at_marker (marker : string) (c : ascii) (rest : string) :
  marker ∈ video_markers → c ∉ id_stops →
  video_id_at (marker +:+ String c rest) ≠ None.
Proof.
  intros Hmarker Hc.
  assert (∀ m, (strip_prefix m (m +:+ String c rest)
                ≫= (λ rest, let v := take_id rest in
                            if truthy_string v then Some v else None))
               = Some (String c (take_id rest))) as Hcapture.
  { intros m. rewrite (proj2 (strip_prefix_Some m _ (String c rest)) eq_refl).
    simpl. by rewrite bool_decide_eq_false_2 by exact Hc. }
  unfold video_id_at, video_markers in *.
  apply elem_of_cons in Hmarker as [->|Hmarker].
  - by rewrite Hcapture.
  - apply elem_of_cons in Hmarker as [->|Hmarker]; [|by apply elem_of_nil in Hmarker].
    rewrite Hcapture. by case_match.
Qed.

Lemma match_video_id_Some (url v : string) :
  match_video_id url = Some v →
  v ≠ "" ∧ (∀ c, c ∈ String.list_ascii_of_string v → c ∉ id_stops) ∧
  ∃ before marker after,
    marker ∈ video_markers ∧ url = before +:+ marker +:+ v +:+ after.
Proof.
  assert (∀ s, video_id_at s = Some v →
            v ≠ "" ∧ (∀ c, c ∈ String.list_ascii_of_string v → c ∉ id_stops) ∧
            ∃ before marker after,
              marker ∈ video_markers ∧ s = before +:+ marker +:+ v +:+ after) as Hhere.
  { intros s Hat.
    destruct (video_id_at_Some _ _ Hat) as (Hne & Hclean & marker & after & Hm & Hs).
    split; [done|]. split; [done|]. by exists "", marker, after. }
  induction url as [|a url IH]; cbn [match_video_id].
  - destruct (video_id_at "") as [v'|] eqn:Hat; [|done].
    intros [= <-]. by apply Hhere.
  - destruct (video_id_at (String a url)) as [v'|] eqn:Hat.
    + intros [= <-]. by apply Hhere.
    + intros Hrest.
      destruct (IH Hrest) as (Hne & Hclean & before & marker & after & Hm & Hs).
      split; [done|]. split; [done|]. exists (String a before), marker, after.
      split; [done|]. rewrite append_String. by f_equal.
Qed.

(** X17.  [POST /api/materials/youtube] takes a video id exactly from
    the URLs that hold one of the two markers followed by a character that
    can start an id.  The id it takes is not empty, holds none of the
    characters [&], line feed, [?] and [#], and stands in the URL right after
    a marker. *)
Theorem match_video_id_takes_a_marked_segment (url : string) :
  (∀ v, match_video_id url = Some v →
        v ≠ "" ∧ (∀ c, c ∈ String.list_ascii_of_string v → c ∉ id_stops) ∧
        ∃ before marker after,
          marker ∈ video_markers ∧ url = before +:+ marker +:+ v +:+ after) ∧
  (match_video_id url ≠ None ↔
   ∃ before marker c rest,
     marker ∈ video_markers ∧ (c ∉ id_stops) ∧
     url = before +:+ marker +:+ String c rest).
Proof.
  split; [intros v; apply match_video_id_Some|]. split.
  - intros Hsome. destruct (match_video_id url) as [v|] eqn:Hmatch; [|done].
    destruct (match_video_id_Some _ _ Hmatch)
      as (Hne & Hclean & before & marker & after & Hm & Hs).
    destruct v as [|c v]; [done|]. exists before, marker, c, (v +:+ after).
    split; [done|]. split; [|by rewrite Hs, append_String].
    apply Hclean. simpl. apply elem_of_cons. by left.
  - intros (before & marker & c & rest & Hm & Hc & ->).
    induction before as [|a before IH].
    + rewrite append_empty. pose proof (video_id_at_marker marker c rest Hm Hc) as Hat.
      destruct (marker +:+ String c rest); cbn [match_video_id]; by case_match.
    + rewrite append_String. cbn [match_video_id]. by case_match.
Qed.

Lemma match_video_id_takes_a_marked_segment_witness :
  match_video_id "https://youtu.be/dQw4w9WgXcQ?t=42" ≠ None ∧
  match_video_id "https://youtu.be/?t=42" = None.
Proof.
  split; [|reflexivity].
  apply (proj2 (proj2 (match_video_id_takes_a_marked_segment _))).
  exists "https://", "youtu.be/", "d"%char, "Qw4w9WgXcQ?t=42".
  split; [|split; [|reflexivity]].
  - unfold video_markers. apply elem_of_cons. right. apply elem_of_cons. by left.
  - unfold id_stops. rewrite !not_elem_of_cons.
    repeat split; try discriminate. apply not_elem_of_nil.
Defined.

(** X18.  [POST /api/quizzes/generate] validates its body before it
    does anything else.  A body that validates gives between 1 and 50
    questions (10 when none is named) and one of the three levels (medium
    when none is named); a body whose [numQuestions] is outside 1..50 is
    answered 400 whatever the gateway would say, and nothing is stored. *)
Theorem quiz_generation_validates_first {S : Type} `{IStorage S}
    (OPENROUTER_API_KEY : option string) (fetch : ChatCompletionRequest → FetchResponse)
    (JSON_parse : string → option json)
    (quiz_prompt : Z → string → string → string → string)
    (userId : option string) (uid : string) (fields : JsMap json)
    (id : string) (now : Date) (st : S) :
  authenticated userId = Some uid →
  (∀ b, parse_generate_quiz (JObj fields) = inr b →
     (1 ≤ gq_numQuestions b ≤ 50)%Z ∧ gq_difficulty b ∈ quiz_levels ∧
     (obj_get "numQuestions" fields = None → gq_numQuestions b = 10%Z) ∧
     (obj_get "difficulty" fields = None → gq_difficulty b = "medium")) ∧
  (∀ n, obj_get "numQuestions" fields = Some (JNum n) → (n < 1 ∨ 50 < n)%Z →
     let out :=
       post_quizzes_generate OPENROUTER_API_KEY fetch JSON_parse quiz_prompt userId
         (JObj fields) id now st in
     status out.1 = 400 ∧ out.2 = st).
Proof.
  intros Hauth. split.
  - intros b Hparse. unfold parse_generate_quiz in Hparse. exc_inv Hparse.
    injection Hparse as <-. simpl.
    match goal with
    | Hd : z_difficulty _ = inr ?d, Hn : z_numQuestions _ = inr ?n |- _ =>
        unfold z_difficulty in Hd; unfold z_numQuestions in Hn
    end.
    match goal with Hobj : z_object _ = inr _ |- _ => injection Hobj as <- end.
    repeat split.
    + repeat case_match; simplify_eq; lia.
    + repeat case_match; simplify_eq; lia.
    + repeat case_match; simplify_eq; unfold quiz_levels;
        first [by case_bool_decide | set_solver].
    + intros Hnone. rewrite Hnone in *. by simplify_eq.
    + intros Hnone. rewrite Hnone in *. by simplify_eq.
  - intros n Hget Hout out. subst out. unfold post_quizzes_generate.
    rewrite Hauth. unfold generate_quiz_data, parse_generate_quiz. simpl.
    destruct (z_array_string _) as [?|materialIds]; [done|]. simpl.
    destruct (z_string _) as [?|topic]; [done|]. simpl.
    destruct (z_difficulty _) as [?|difficulty]; [done|]. simpl.
    rewrite Hget. simpl.
    destruct (1 <=? n)%Z eqn:Hlow; destruct (n <=? 50)%Z eqn:Hhigh; simpl; try done.
    lia.
Qed.

Lemma quiz_generation_validates_first_witness :
  (∃ b, parse_generate_quiz generate_body = inr b ∧
        gq_numQuestions b = 10%Z ∧ gq_difficulty b = "medium") ∧
  (let out :=
     post_quizzes_generate (Some "sk-or-1") (gateway_says "{}") sample_parse
       sample_quiz_prompt (Some "alice")
       (JObj [("materialIds", JArr []); ("topic", JStr "cells"); ("numQuestions", JNum 51)])
       "quiz-2" 3000 mem_people in
   status out.1 = 400 ∧ out.2 = mem_people).
Proof.
  split.
  - eexists. split; [reflexivity|].
    pose proof (proj1 (quiz_generation_validates_first (S:=MemStorage.t) None gateway_down
                         sample_parse sample_quiz_prompt (Some "alice") "alice"
                         [("materialIds", JArr []); ("topic", JStr "cells")]
                         "quiz-2" 3000 mem_people eq_refl) _ eq_refl)
      as (_ & _ & Hcount & Hlevel).
    split; [by apply Hcount|by apply Hlevel].
  - apply (proj2 (quiz_generation_validates_first (S:=MemStorage.t) (Some "sk-or-1")
                    (gateway_says "{}") sample_parse sample_quiz_prompt (Some "alice")
                    "alice"
                    [("materialIds", JArr []); ("topic", JStr "cells");
                     ("numQuestions", JNum 51)]
                    "quiz-2" 3000 mem_people eq_refl) 51%Z eq_refl).
    right. lia.
Defined.

(** ** Profile updates *)

Lemma parse_profile_update_names (body : json) (updates : PartialUser.t) :
  parse_profile_update body = inr updates →
  updates = PartialUser.mk None None None None None (PartialUser.plan updates)
              (PartialUser.language updates) None.
Proof.
  unfold parse_profile_update. intros Hparse. exc_inv Hparse.
  by injection Hparse as <-.
Qed.

Lemma set_user_profile_updated (updates : PartialUser.t) (old : User.t) :
  updates = PartialUser.mk None None None None None (PartialUser.plan updates)
              (PartialUser.language updates) None →
  profile_updated updates old (DatabaseStorage.set_user updates old).
Proof.
  intros ->. unfold profile_updated. simpl. repeat split; apply applied_patch.
Qed.

(** [updateUser] of the database store on the update of a profile. *)
Lemma DatabaseStorage_updateUser_profile (uid : string) (plan language : option string)
    (st : DatabaseStorage.t) :
  let updates := PartialUser.mk None None None None None plan language None in
  DatabaseStorage.updateUser uid updates st
  = if decide (plan = None ∧ language = None) then inl DatabaseStorage.no_values_to_set
    else inr (head (DatabaseStorage.set_user updates
                    <$> filter (λ r, User.id r = uid) (DatabaseStorage.users st)),
              DatabaseStorage.with_users st
                (DatabaseStorage.db_update (DatabaseStorage.set_user updates)
                   (λ r, User.id r = uid) (DatabaseStorage.users st)).2).
Proof.
  intros updates. unfold DatabaseStorage.updateUser, DatabaseStorage.db_update. cbv zeta.
  destruct (decide (plan = None ∧ language = None)) as [[-> ->]|Hnames].
  - rewrite (check_false (_ ∨ is_Some _)); [done|].
    unfold DatabaseStorage.sets_user_column. simpl.
    intros Hsome. repeat destruct Hsome as [Hsome|Hsome]; by apply is_Some_None in Hsome.
  - assert (DatabaseStorage.sets_user_column updates) as Hsets.
    { unfold DatabaseStorage.sets_user_column. simpl.
      destruct plan as [p|]; [by do 4 right; left|].
      destruct language as [l|]; [by do 5 right; left|]. by destruct Hnames. }
    rewrite (check_true (_ ∨ is_Some _)) by (by left).
    simpl. rewrite (check_true (DatabaseStorage.sets_user_column _)) by done.
    simpl. rewrite (check_true (_ ∨ _ ∧ _)) by (by right).
    simpl. rewrite (check_true (_ ∨ _ ∨ _)); [done|]. right. by left.
Qed.



(** ** Uploads and the gateway *)

Lemma image_is_neither_text_nor_pdf (m : string) :
  String.prefix "image/" m = true →
  String.prefix "text/" m = false ∧ m ≠ "application/pdf".
Proof.
  intros Himage. apply prefix_split in Himage. rewrite Himage.
  rewrite !append_String. split; [done|]. discriminate.
Qed.

(** X20.  [POST /api/materials/upload] asks the model for images only.
    For an upload whose content type does not start with [image/] the
    outcome is the same whatever the API key and the gateway are, and it is
    answered 200 when the store takes the material and the uploaded file is
    removed; an image upload made while the API key is missing or the
    gateway answers with an error status is answered 500 and nothing is
    stored. *)
Theorem upload_asks_the_model_only_for_images {S : Type} `{IStorage S}
    (OPENROUTER_API_KEY : option string) (fetch : ChatCompletionRequest → FetchResponse)
    (userId : option string) (uid : string) (file : UploadedFile)
    (id : string) (now : Date) (st : S) :
  authenticated userId = Some uid →
  let out := post_materials_upload OPENROUTER_API_KEY fetch userId (Some file) id now st in
  (String.prefix "image/" (mimetype file) = false →
     (∀ key gateway, post_materials_upload key gateway userId (Some file) id now st = out) ∧
     (unlink_error file = None →
      (∀ content type, ∃ created st',
         createMaterial id now (material_of_upload uid file content type) st
         = inr (created, st')) →
      status out.1 = 200)) ∧
  (String.prefix "image/" (mimetype file) = true →
     (∃ error, createOpenRouterClient OPENROUTER_API_KEY = inl error) ∨
     (∀ request, fetch_ok (fetch request) = false) →
     status out.1 = 500 ∧ out.2 = st).
Proof.
  intros Hauth out. subst out. unfold post_materials_upload. rewrite Hauth. split.
  - intros Hother.
    assert (∀ key gateway, extract_content key gateway file
              = extract_content OPENROUTER_API_KEY fetch file) as Hsame.
    { intros key gateway. unfold extract_content. rewrite Hother. by repeat case_match. }
    split; [intros key gateway; by rewrite Hsame|].
    intros Hunlink Htakes. rewrite Hunlink.
    destruct (extract_content _ _ file) as [error|[content type]] eqn:Hextract.
    + unfold extract_content in Hextract. rewrite Hother in Hextract.
      by repeat case_match.
    + destruct (Htakes content type) as (created & st' & Hcreate).
      unfold material_of_upload in Hcreate. by rewrite Hcreate.
  - intros Himage Hfails.
    destruct (image_is_neither_text_nor_pdf _ Himage) as [Htext Hpdf].
    unfold extract_content. rewrite Htext, Himage, decide_False by exact Hpdf.
    destruct Hfails as [[error Hkey]|Hdown].
    + rewrite Hkey. by simpl.
    + destruct (createOpenRouterClient OPENROUTER_API_KEY) as [error|key]; [by simpl|].
      simpl. unfold chat. rewrite Hdown. by simpl.
Qed.

Lemma upload_asks_the_model_only_for_images_witness :
  (post_materials_upload None gateway_down (Some "alice") (Some scan_pdf) "mat-1" 3000
     mem_people
   = post_materials_upload (Some "sk-or-1") (gateway_says "a scan") (Some "alice")
       (Some scan_pdf) "mat-1" 3000 mem_people) ∧
  status (post_materials_upload (Some "sk-or-1") (gateway_says "a scan") (Some "alice")
            (Some scan_pdf) "mat-1" 3000 mem_people).1 = 200 ∧
  (let out :=
     post_materials_upload (Some "sk-or-1") gateway_down (Some "alice")
       (Some diagram_png) "mat-1" 3000 db_people in
   status out.1 = 500 ∧ out.2 = db_people).
Proof.
  pose proof (proj1 (upload_asks_the_model_only_for_images (S:=MemStorage.t)
                       (Some "sk-or-1") (gateway_says "a scan") (Some "alice") "alice"
                       scan_pdf "mat-1" 3000 mem_people eq_refl) eq_refl)
    as [Hsame Hok].
  split; [apply Hsame|]. split.
  - apply Hok; [reflexivity|]. intros content type. by eexists _, _.
  - apply (proj2 (upload_asks_the_model_only_for_images (S:=DatabaseStorage.t)
                    (Some "sk-or-1") gateway_down (Some "alice") "alice"
                    diagram_png "mat-1" 3000 db_people eq_refl) eq_refl).
    right. by intros request.
Defined.

(** ** The serverless quiz generator *)

Lemma or_empty_array_truthy (x : option json) : truthy (or_empty_array x) = true.
Proof. unfold or_empty_array. destruct x as [j|]; [|done]. by destruct (truthy j) eqn:?. Qed.

Ltac exc_step H :=
  apply exc_bind_inr in H as (? & ? & H); cbv beta zeta in H.

(** X21.  The serverless quiz generator [api/quizzes/generate.ts]
    answers 405 to anything but a POST, 400 only for a missing topic and 500
    for every failure behind it (no body, no API key, a gateway error,
    unparsable model output).  A quiz it returns was asked for by a POST
    with a truthy topic, is titled after the topic, always carries a
    [questions] and a [materialIds] value that is not falsy, and the
    difficulty of the request, which is ["medium"] only when the request
    names none. *)
Theorem api_quizzes_generate_replies (OPENROUTER_API_KEY : option string)
    (fetch : ChatCompletionRequest → FetchResponse) (JSON_parse : string → option json)
    (generate_prompt : json → json → json → option json → string)
    (req : VercelRequest) :
  let reply :=
    api_quizzes_generate OPENROUTER_API_KEY fetch JSON_parse generate_prompt req in
  (∀ code error, reply = VError code error →
     (code = 405 ∧ method req ≠ "POST") ∨
     (code = 400 ∧ method req = "POST" ∧ error = "Topic is required") ∨
     (code = 500 ∧ method req = "POST")) ∧
  (∀ quiz, reply = VQuiz quiz →
     method req = "POST" ∧
     ∃ body topic given_difficulty,
       req_body req = Some body ∧ get_prop "topic" body = inr (Some topic) ∧
       truthy topic = true ∧
       gen_title quiz = to_js_string topic +:+ " - Quiz" ∧
       truthy (gen_questions quiz) = true ∧ truthy (gen_materialIds quiz) = true ∧
       get_prop "difficulty" body = inr given_difficulty ∧
       gen_difficulty quiz = default (JStr "medium") given_difficulty) ∧
  (∀ fields topic,
     method req = "POST" → req_body req = Some (JObj fields) →
     obj_get "topic" fields = Some topic → truthy topic = true →
     (∀ request, fetch_ok (fetch request) = false) →
     ∃ error, reply = VError 500 error).
Proof.
  intros reply. subst reply. unfold api_quizzes_generate.
  destruct (decide (method req = "POST")) as [Hpost|Hother].
  - match goal with
    | |- context [match ?a with inl _ => _ | inr _ => _ end] =>
        destruct a as [failure|reply] eqn:Hattempt
    end.
    + split; [|split].
      * intros code error [= <- <-]. by right; right.
      * done.
      * intros. by eexists.
    + assert (reply = VError 400 "Topic is required" ∨
              ∃ quiz body topic given_difficulty, reply = VQuiz quiz ∧
                req_body req = Some body ∧ get_prop "topic" body = inr (Some topic) ∧
                truthy topic = true ∧
                gen_title quiz = to_js_string topic +:+ " - Quiz" ∧
                truthy (gen_questions quiz) = true ∧
                truthy (gen_materialIds quiz) = true ∧
                get_prop "difficulty" body = inr given_difficulty ∧
                gen_difficulty quiz = default (JStr "medium") given_difficulty ∧
                ∃ request, fetch_ok (fetch request) = true) as Hreply.
      { do 6 exc_step Hattempt.
        repeat match goal with
               | x : option json |- _ => match type of Hattempt with
                                         | context [match x with _ => _ end] =>
                                             destruct x
                                         end
               end.
        all: try (left; congruence).
        destruct (truthy _) eqn:Htruthy; [|left; congruence].
        do 5 exc_step Hattempt. injection Hattempt as <-. right.
        destruct (req_body req) as [body|] eqn:Hbody; [|done]. simplify_eq.
        eexists _, _, _, _. split; [reflexivity|]. split; [reflexivity|].
        split; [eassumption|]. split; [exact Htruthy|]. simpl.
        split; [done|]. split; [apply or_empty_array_truthy|].
        split; [apply or_empty_array_truthy|]. split; [eassumption|]. split; [done|].
        match goal with
        | Hchat : chat (fetch ?r) = inr _ |- _ =>
            exists r; unfold chat in Hchat; by destruct (fetch_ok (fetch r))
        end. }
      split; [|split].
      * intros code error ->.
        destruct Hreply as [[= <- <-]|(quiz & ? & ? & ? & ? & _)]; [|done].
        right; left. done.
      * intros quiz ->. split; [done|].
        destruct Hreply as [?|(quiz' & body & topic & given & [= <-] & Hrest)]; [done|].
        exists body, topic, given.
        destruct Hrest as (? & ? & ? & ? & ? & ? & ? & ? & _). by repeat split.
      * intros fields topic _ Hbody Htopic Htruthy Hdown. exfalso.
        destruct Hreply as [->|(quiz & ? & ? & ? & ? & ? & ? & ? & ? & ? & ? & ? & ? & [request Hok])].
        -- rewrite Hbody in Hattempt. simpl in Hattempt. rewrite Htopic in Hattempt.
           simpl in Hattempt. rewrite Htruthy in Hattempt.
           destruct (createOpenRouterClient OPENROUTER_API_KEY); [done|].
           simpl in Hattempt. unfold chat in Hattempt. by rewrite Hdown in Hattempt.
        -- by rewrite Hdown in Hok.
  - split; [|split]; [|done|done].
    intros code error [= <- <-]. by left.
Qed.

Lemma api_quizzes_generate_replies_witness :
  ∃ quiz,
    api_quizzes_generate (Some "sk-or-1") (gateway_says "{}") sample_parse
      (λ _ _ _ _, "") cells_request = VQuiz quiz ∧
    gen_title quiz = "cells - Quiz" ∧ gen_difficulty quiz = JStr "medium" ∧
    gen_questions quiz = JArr [].
Proof.
  eexists. split; [reflexivity|].
  destruct (proj1 (proj2 (api_quizzes_generate_replies (Some "sk-or-1")
                            (gateway_says "{}") sample_parse (λ _ _ _ _, "")
                            cells_request)) _ eq_refl)
    as (_ & body & topic & given & Hbody & Htopic & _ & Htitle & _ & _ & Hgiven & Hlevel).
  injection Hbody as <-. simpl in Htopic, Hgiven.
  injection Htopic as <-. injection Hgiven as <-.
  split; [exact Htitle|]. split; [exact Hlevel|reflexivity].
Defined.

(** ** The undo stack of the canvas *)

(** X22.  The history index of the canvas never leaves the history.
    From a state whose index is [-1] or points into the history,
    [saveToHistory] drops the undone tail, pushes what is shown and points
    at it; [undo] and [redo] never read outside the history, keep the
    history as it is, show the snapshot the index moves to, and [redo]
    takes back an [undo] that moved. *)
Theorem canvas_history_index_stays_valid {Snapshot : Type} (c : Canvas.t Snapshot) :
  Canvas.valid Snapshot c →
  (let c' := Canvas.saveToHistory Snapshot c in
   Canvas.valid Snapshot c' ∧
   Canvas.history Snapshot c'
   = take (Z.to_nat (Canvas.historyIndex Snapshot c + 1)) (Canvas.history Snapshot c)
     ++ [Canvas.shown Snapshot c] ∧
   Canvas.historyIndex Snapshot c' = Canvas.historyIndex Snapshot c + 1 ∧
   Canvas.redo Snapshot c' = inr c') ∧
  (∃ c', Canvas.undo Snapshot c = inr c' ∧ Canvas.valid Snapshot c' ∧
     Canvas.history Snapshot c' = Canvas.history Snapshot c ∧
     (0 < Canvas.historyIndex Snapshot c →
        Canvas.historyIndex Snapshot c' = Canvas.historyIndex Snapshot c - 1 ∧
        Canvas.history Snapshot c !! Z.to_nat (Canvas.historyIndex Snapshot c')
        = Some (Canvas.shown Snapshot c') ∧
        ∃ c'', Canvas.redo Snapshot c' = inr c'' ∧
          Canvas.history Snapshot c'' = Canvas.history Snapshot c ∧
          Canvas.historyIndex Snapshot c'' = Canvas.historyIndex Snapshot c) ∧
     (Canvas.historyIndex Snapshot c ≤ 0 → c' = c)) ∧
  (∃ c', Canvas.redo Snapshot c = inr c' ∧ Canvas.valid Snapshot c' ∧
     Canvas.history Snapshot c' = Canvas.history Snapshot c ∧
     (Canvas.historyIndex Snapshot c < Z.of_nat (length (Canvas.history Snapshot c)) - 1 →
        Canvas.historyIndex Snapshot c' = Canvas.historyIndex Snapshot c + 1 ∧
        Canvas.history Snapshot c !! Z.to_nat (Canvas.historyIndex Snapshot c')
        = Some (Canvas.shown Snapshot c'))).
Proof.
  destruct c as [shown history index]. unfold Canvas.valid. simpl. intros Hvalid.
  assert (∀ i, 0 ≤ i < Z.of_nat (length history) →
            ∃ s, Canvas.at_index Snapshot i history = Some s ∧
                 history !! Z.to_nat i = Some s) as Hread.
  { intros i Hi. unfold Canvas.at_index.
    destruct (Z.ltb_spec i 0) as [?|_]; [lia|].
    destruct (lookup_lt_is_Some_2 history (Z.to_nat i)) as [s Hs]; [lia|]. by exists s. }
  split; [|split].
  - unfold Canvas.saveToHistory, Canvas.redo, Canvas.slice0. simpl.
    destruct (Z.ltb_spec (index + 1) 0) as [?|_]; [lia|].
    rewrite !length_app, !length_take. simpl.
    repeat split; try lia.
    destruct (Z.ltb_spec (Z.of_nat (Z.to_nat (index + 1) `min` length history + 1) - 1)
                (Z.of_nat (Z.to_nat (index + 1) `min` length history + 1) - 1))
      as [?|_]; [lia|done].
  - unfold Canvas.undo. simpl. destruct (Z.ltb_spec 0 index) as [Hpos|Hzero].
    + destruct (Hread (index - 1)) as (s & -> & Hs); [lia|].
      eexists. split; [reflexivity|]. simpl. split; [lia|]. split; [done|].
      split; [|lia]. intros _. split; [done|]. split; [exact Hs|].
      unfold Canvas.redo. simpl.
      destruct (Z.ltb_spec (index - 1) (Z.of_nat (length history) - 1)) as [_|?]; [|lia].
      replace (index - 1 + 1) with index by lia.
      destruct (Hread index) as (s' & -> & _); [lia|].
      eexists. split; [reflexivity|]. by simpl.
    + eexists. split; [reflexivity|]. simpl. split; [lia|]. split; [done|].
      split; [lia|done].
  - unfold Canvas.redo. simpl.
    destruct (Z.ltb_spec index (Z.of_nat (length history) - 1)) as [Hmore|Hlast].
    + destruct (Hread (index + 1)) as (s & -> & Hs); [lia|].
      eexists. split; [reflexivity|]. simpl. split; [lia|]. split; [done|].
      intros _. by split.
    + eexists. split; [reflexivity|]. simpl. split; [lia|]. split; [done|]. lia.
Qed.

Lemma canvas_history_index_stays_valid_witness :
  Canvas.valid _ (Canvas.saveToHistory _ two_saved) ∧
  ∃ c', Canvas.undo _ two_saved = inr c' ∧ Canvas.shown _ c' = ["Biology"] ∧
    Canvas.historyIndex _ c' = 0.
Proof.
  assert (Canvas.valid _ two_saved) as Hvalid by (unfold Canvas.valid; simpl; lia).
  destruct (canvas_history_index_stays_valid two_saved Hvalid)
    as ((Hsaved & _) & (c' & Hundo & _ & _ & Hmoved & _) & _).
  split; [exact Hsaved|]. exists c'. split; [exact Hundo|].
  destruct Hmoved as (Hindex & Hshown & _); [simpl; lia|].
  rewrite Hindex in Hshown. simpl in Hshown. injection Hshown as <-.
  split; [reflexivity|exact Hindex].
Defined.
